(** * The real-time hub of the chat backend

    A shallow embedding of [backend/src/websocket/websocket.ts] (class
    [WebSocketManager]) together with the parts of the Mongoose models
    [models/Chat.ts], [models/Message.ts] and [models/User.ts] that its
    handlers run through.

    Conventions of the embedding.
    - An [ExtendedWebSocket] is a mutable JavaScript object that the manager
      reaches through several references (the [connectedUsers] map, the
      [wss.clients] set, the closures of timers).  The objects live in a heap
      [sockets] indexed by a reference [ConnId]; every other structure holds
      references, so aliasing is the code's.
    - Every handler is one step of the hub: the store calls it awaits and
      the broadcasts it starts run to completion, in program order, before
      the next event is taken.  Where the code leaves the order open and a
      property depends on it, the finer reading is a definition of its own:
      [handleSendMessage_order] for the two fanouts of a sent message, which
      the handler does not await; [handleMessageRead_find] and
      [handleMessageRead_rest] for a frame that arrives while an earlier one
      awaits the store; [onConnectionAt] for a socket that closes while the
      connection listener awaits.
    - A [string] is the UTF-8 text of the JavaScript string it stands for,
      byte by byte: [Message.length16] counts the UTF-16 code units that
      [String.prototype.length] counts, and [Message.trim] strips the white
      space that [String.prototype.trim] strips.
    - The MongoDB collections are finite maps from the text of an [ObjectId]
      to the document.  A store call throws when Mongoose cannot cast one of
      its arguments to an [ObjectId] or when a validator of the schema
      rejects the document; the store itself is taken to be reachable.
    - [new Date()] and [Date.now()] read the field [now], in milliseconds.
    - The payload fields [chatId], [messageId] and [content] of a client
      event are strings; a frame whose envelope cannot be parsed or
      destructured is the input [None] of [handleMessage]. *)

From stdpp Require Import gmap strings list fin_maps.
From Stdlib Require Import ZArith Lia Ascii.

Open Scope string_scope.
Open Scope list_scope.
Open Scope nat_scope.

(** ** JavaScript values *)

(** [if (x)] / [!x] / [x && ..] on an optional string: [undefined] and the
    empty string are falsy. *)
Definition truthy (x : option string) : bool :=
  match x with
  | Some s => bool_decide (s ≠ "")
  | None => false
  end.

(** [`${x}`] on an optional string. *)
Definition template (x : option string) : string := default "undefined" x.

(** The outcome of awaiting a store call: the value, or a rejected promise. *)
Inductive result (A : Type) : Type :=
| Ok (a : A)
| Throw.
Arguments Ok {A} a.
Arguments Throw {A}.

(** ** The documents of the store *)

Module User.
Record t := mk
  { username : string;
    avatar : option string;
    isOnline : bool;
    lastSeen : Z }.
End User.

Module Chat.
Inductive kind := private | group.

Record t := mk
  { type : kind;
    participants : list string;
    admin : option string;
    lastMessage : option string }.

(** [chatSchema.pre('save', ...)]: [None] is [next(new Error(..))], and a
    group chat without an admin gets its first participant as admin. *)
Definition pre_save (c : t) : option t :=
  match type c with
  | private =>
      if bool_decide (length (participants c) ≠ 2) then None else Some c
  | group =>
      if bool_decide (length (participants c) < 2) then None
      else if bool_decide (admin c = None)
           then Some (mk group (participants c) (head (participants c)) (lastMessage c))
           else Some c
  end.
End Chat.

Module Message.
Record IReadReceipt := mkReceipt
  { user : string;
    readAt : Z }.

Record t := mk
  { sender : option string;
    chat : string;
    content : string;
    messageType : string;
    fileUrl : option string;
    fileName : option string;
    fileSize : option Z;
    readBy : list IReadReceipt }.

(** A [string] is the UTF-8 text of the JavaScript string it stands for,
    byte by byte.  [utf8 s] tells that [s] is such a text: every character
    is encoded in the shortest form, and none is a surrogate or lies beyond
    U+10FFFF. *)
Definition continues (a : ascii) : bool :=
  (128 <=? nat_of_ascii a) && (nat_of_ascii a <? 192).

Fixpoint utf8 (s : string) : bool :=
  match s with
  | EmptyString => true
  | String a s1 =>
      let n := nat_of_ascii a in
      if n <? 128 then utf8 s1
      else
        match s1 with
        | EmptyString => false
        | String b s2 =>
            let m := nat_of_ascii b in
            if (194 <=? n) && (n <? 224) then continues b && utf8 s2
            else
              match s2 with
              | EmptyString => false
              | String c s3 =>
                  if (224 <=? n) && (n <? 240) then
                    continues b && continues c
                    && negb ((n =? 224) && (m <? 160))
                    && negb ((n =? 237) && (160 <=? m))
                    && utf8 s3
                  else
                    match s3 with
                    | EmptyString => false
                    | String d s4 =>
                        (240 <=? n) && (n <? 245)
                        && continues b && continues c && continues d
                        && negb ((n =? 240) && (m <? 144))
                        && negb ((n =? 244) && (144 <=? m))
                        && utf8 s4
                    end
              end
        end
  end.

(** [s.length]: the UTF-16 code units of the text, one for a character of
    up to three bytes and two for a character of four. *)
Fixpoint length16 (s : string) : nat :=
  match s with
  | EmptyString => 0
  | String a s' =>
      let n := nat_of_ascii a in
      (if n <? 128 then 1 else if n <? 192 then 0 else if n <? 240 then 1 else 2)
      + length16 s'
  end.

(** The white space and the line terminators of ECMAScript, which
    [String.prototype.trim] strips: of one byte U+0009 to U+000D and U+0020;
    of two bytes U+00A0; of three bytes U+1680, U+2000 to U+200A, U+2028,
    U+2029, U+202F, U+205F, U+3000 and U+FEFF. *)
Definition is_space (a : ascii) : bool :=
  bool_decide (a ∈ [" "%char; "009"%char; "010"%char; "011"%char; "012"%char; "013"%char]).

Definition is_space2 (a b : ascii) : bool :=
  bool_decide ((nat_of_ascii a, nat_of_ascii b) = (194, 160)).

Definition is_space3 (a b c : ascii) : bool :=
  bool_decide ((nat_of_ascii a, nat_of_ascii b, nat_of_ascii c)
               ∈ [(225, 154, 128); (226, 128, 168); (226, 128, 169); (226, 128, 175);
                  (226, 129, 159); (227, 128, 128); (239, 187, 191)])
  || bool_decide (nat_of_ascii a = 226 ∧ nat_of_ascii b = 128
                  ∧ 128 ≤ nat_of_ascii c ≤ 138).

(** The text without the white space it starts with; [sp2] and [sp3] tell
    the white space of two and of three bytes. *)
Fixpoint strip (sp2 : ascii → ascii → bool) (sp3 : ascii → ascii → ascii → bool)
    (s : string) : string :=
  match s with
  | EmptyString => EmptyString
  | String a s1 =>
      if is_space a then strip sp2 sp3 s1
      else
        match s1 with
        | EmptyString => s
        | String b s2 =>
            if sp2 a b then strip sp2 sp3 s2
            else
              match s2 with
              | EmptyString => s
              | String c s3 => if sp3 a b c then strip sp2 sp3 s3 else s
              end
        end
  end.

Definition trim_start (s : string) : string := strip is_space2 is_space3 s.

(** From its end the text is read last byte first. *)
Definition trim_end (s : string) : string :=
  String.rev (strip (λ b a, is_space2 a b) (λ c b a, is_space3 a b c) (String.rev s)).

(** The setter of a [trim: true] path, [String.prototype.trim]. *)
Definition trim (s : string) : string := trim_end (trim_start s).

(** The validators of [messageSchema] on a new document: [sender] and
    [content] are required, [content.length] is at most 2000, and
    [messageType] is one of the enumerated values. *)
Definition valid (m : t) : bool :=
  bool_decide (is_Some (sender m))
  && bool_decide (content m ≠ "")
  && bool_decide (length16 (content m) ≤ 2000)
  && bool_decide (messageType m ∈ ["text"; "image"; "file"]).
End Message.

Record Store := mkStore
  { users : gmap string User.t;
    chats : gmap string Chat.t;
    messages : gmap string Message.t }.

(** ** Connections and events *)

(** A reference to an [ExtendedWebSocket] object. *)
Definition ConnId := nat.

Inductive ReadyState := CONNECTING | OPEN | CLOSING | CLOSED.

Global Instance ReadyState_eq_dec : EqDecision ReadyState.
Proof. solve_decision. Defined.

(** [listening] records that the connection handler has attached the
    ['message'], ['close'], ['error'] and ['pong'] listeners. *)
Record ExtendedWebSocket := mkWs
  { userId : option string;
    username : option string;
    isAlive : option bool;
    readyState : ReadyState;
    listening : bool }.

(** [TypingUser] of [types/index.ts]. *)
Record TypingUser := mkTyping
  { t_userId : option string;
    t_username : option string;
    t_chatId : string;
    t_timestamp : Z }.

(** The [message] of a [new_message] payload: the stored message with the
    [username] and [avatar] of its sender populated ([None] when the sender
    has no user document). *)
Record PopulatedMessage := mkPopulated
  { pm_id : string;
    pm_doc : Message.t;
    pm_sender : option (string * option string) }.

(** Payloads of the events the server sends. *)
Inductive Payload :=
| P_error (message : string) (timestamp : option Z)
| P_connection (message userId : string) (timestamp : Z)
| P_room (chatId : string) (timestamp : Z)
| P_new_message (message : option PopulatedMessage) (chatId : string) (timestamp : Z)
| P_typing (userId username : option string) (chatId : string) (timestamp : Z)
| P_message_read (messageId chatId : string) (userId username : option string) (timestamp : Z)
| P_presence (userId username : option string) (timestamp : Z).

(** An outbound [{ type, payload }] envelope. *)
Record WebSocketMessage := mkMsg
  { type : string;
    payload : Payload }.

(** The events a client sends, after [JSON.parse] and the destructuring of
    [message.payload] by the handler of each [type]. *)
Inductive ClientEvent :=
| join_room (chatId : string)
| leave_room (chatId : string)
| send_message (chatId content : string) (messageType fileUrl fileName : option string)
    (fileSize : option Z)
| typing_start (chatId : string)
| typing_stop (chatId : string)
| message_read (messageId chatId : string)
| unknown_type (type : string).

(** A pending [setTimeout] of [handleTypingStart]: the time it fires and what
    its closure captured. *)
Record Timer := mkTimer
  { fireAt : Z;
    tm_key : string;
    tm_chatId : string;
    tm_ws : ConnId }.

(** A frame written to a socket by [ws.send]. *)
Abbreviation Delivery := (ConnId * WebSocketMessage)%type.

Record HubState := mkHub
  { sockets : gmap ConnId ExtendedWebSocket;
    clients : list ConnId;
    connectedUsers : gmap string ConnId;
    typingUsers : gmap string TypingUser;
    timers : list Timer;
    db : Store;
    now : Z;
    outbox : list Delivery }.

(** Field updates of the hub state. *)
Definition set_sockets (x : gmap ConnId ExtendedWebSocket) (st : HubState) : HubState :=
  mkHub x (clients st) (connectedUsers st) (typingUsers st)
        (timers st) (db st) (now st) (outbox st).

Definition set_clients (x : list ConnId) (st : HubState) : HubState :=
  mkHub (sockets st) x (connectedUsers st) (typingUsers st)
        (timers st) (db st) (now st) (outbox st).

Definition set_connectedUsers (x : gmap string ConnId) (st : HubState) : HubState :=
  mkHub (sockets st) (clients st) x (typingUsers st) (timers st) (db st) (now st) (outbox st).

Definition set_typingUsers (x : gmap string TypingUser) (st : HubState) : HubState :=
  mkHub (sockets st) (clients st) (connectedUsers st) x
        (timers st) (db st) (now st) (outbox st).

Definition set_timers (x : list Timer) (st : HubState) : HubState :=
  mkHub (sockets st) (clients st) (connectedUsers st) (typingUsers st)
        x (db st) (now st) (outbox st).

Definition set_db (x : Store) (st : HubState) : HubState :=
  mkHub (sockets st) (clients st) (connectedUsers st) (typingUsers st)
        (timers st) x (now st) (outbox st).

Definition set_now (x : Z) (st : HubState) : HubState :=
  mkHub (sockets st) (clients st) (connectedUsers st) (typingUsers st)
        (timers st) (db st) x (outbox st).

Definition set_outbox (x : list Delivery) (st : HubState) : HubState :=
  mkHub (sockets st) (clients st) (connectedUsers st) (typingUsers st)
        (timers st) (db st) (now st) x.

(** The fields of the socket object behind a reference. *)
Definition ws_userId (st : HubState) (ws : ConnId) : option string :=
  w ← sockets st !! ws; userId w.

Definition ws_username (st : HubState) (ws : ConnId) : option string :=
  w ← sockets st !! ws; username w.

Section Hub.

(** Whether Mongoose casts a string to an [ObjectId]; a query or a save with
    a string it cannot cast rejects with a [CastError]. *)
Variable castObjectId : string → bool.

(** [jwt.verify(token, process.env.JWT_SECRET)]: the [userId] of the decoded
    token, or [None] when the call throws. *)
Variable jwt_verify : string → option string.

(** ** The store calls of the hub *)

(** [.populate('participants', ..)]: each reference is replaced by its user
    document, and the references without one are dropped from the array. *)
Definition populate_participants (s : Store) (ps : list string) : list string :=
  filter (λ p, is_Some (users s !! p)) ps.

(** [Chat.findOne({ _id: chatId, participants: userId })].  An [undefined]
    [userId] matches no chat. *)
Definition Chat_findOne (s : Store) (chatId : string) (uid : option string)
  : result (option Chat.t) :=
  if castObjectId chatId then
    match uid with
    | Some u =>
        if castObjectId u then
          Ok (c ← chats s !! chatId;
              if bool_decide (u ∈ Chat.participants c) then Some c else None)
        else Throw
    | None => Ok None
    end
  else Throw.

(** [Chat.findById(chatId).populate('participants', '_id')], as the array of
    the populated participants' ids. *)
Definition Chat_findById_populated (s : Store) (chatId : string)
  : result (option (list string)) :=
  if castObjectId chatId then
    Ok (c ← chats s !! chatId; Some (populate_participants s (Chat.participants c)))
  else Throw.

(** [Chat.find({ participants: userId }).populate('participants', '_id')]. *)
Definition Chat_find_populated (s : Store) (uid : string) : result (list (list string)) :=
  if castObjectId uid then
    Ok (map (λ kc, populate_participants s (Chat.participants kc.2))
            (filter (λ kc, uid ∈ Chat.participants kc.2) (map_to_list (chats s))))
  else Throw.

(** [chat.save()]: the [pre('save')] hook, then the write. *)
Definition Chat_save (s : Store) (chatId : string) (c : Chat.t) : result Store :=
  match Chat.pre_save c with
  | Some c' => Ok (mkStore (users s) (<[chatId := c']> (chats s)) (messages s))
  | None => Throw
  end.

(** [Message.findById(messageId)]. *)
Definition Message_findById (s : Store) (messageId : string) : result (option Message.t) :=
  if castObjectId messageId then Ok (messages s !! messageId) else Throw.

(** [new Message({..})] followed by [save()]: the setter of [content] trims
    it, the references are cast, the validators run, and the document is
    written under an [_id] that no stored message has. *)
Definition Message_save (s : Store) (m : Message.t) : result (string * Message.t * Store) :=
  let m' := Message.mk (Message.sender m) (Message.chat m) (Message.trim (Message.content m))
              (Message.messageType m) (Message.fileUrl m) (Message.fileName m)
              (Message.fileSize m) (Message.readBy m) in
  if Message.valid m' && from_option castObjectId false (Message.sender m')
     && castObjectId (Message.chat m')
  then
    let _id := fresh (dom (messages s)) in
    Ok (_id, m', mkStore (users s) (chats s) (<[_id := m']> (messages s)))
  else Throw.

(** [messageDoc.save()] of a message that was loaded from the store. *)
Definition Message_update (s : Store) (_id : string) (m : Message.t) : Store :=
  mkStore (users s) (chats s) (<[_id := m]> (messages s)).

(** [messageDoc.save()] after [messageDoc.readBy.push(receipt)], as the
    store sees it: Mongoose sends the [$push] of the new element, which
    lands behind whatever the stored list holds by then, and [save()]
    throws when the document is no longer stored. *)
Definition Message_push (s : Store) (_id : string) (receipt : Message.IReadReceipt)
  : result Store :=
  match messages s !! _id with
  | Some m =>
      Ok (Message_update s _id
            (Message.mk (Message.sender m) (Message.chat m) (Message.content m)
               (Message.messageType m) (Message.fileUrl m) (Message.fileName m)
               (Message.fileSize m) (Message.readBy m ++ [receipt])))
  | None => Throw
  end.

(** [Message.findById(_id).populate('sender', 'username avatar')] for the
    [_id] of a document, which needs no cast. *)
Definition Message_populated (s : Store) (_id : string) : option PopulatedMessage :=
  m ← messages s !! _id;
  Some (mkPopulated _id m
          (u ← Message.sender m; d ← users s !! u; Some (User.username d, User.avatar d))).

(** [User.findById(id)]. *)
Definition User_findById (s : Store) (id : string) : result (option User.t) :=
  if castObjectId id then Ok (users s !! id) else Throw.

(** Writing [isOnline] and [lastSeen] of the user [id], if it exists:
    [user.save()] in the connection handler and
    [User.findByIdAndUpdate(id, { isOnline, lastSeen })] on disconnect. *)
Definition User_setPresence (s : Store) (id : string) (online : bool) (seen : Z) : Store :=
  mkStore (alter (λ u, User.mk (User.username u) (User.avatar u) online seen) id (users s))
          (chats s) (messages s).

Definition User_findByIdAndUpdate (s : Store) (id : string) (online : bool) (seen : Z)
  : result Store :=
  if castObjectId id then Ok (User_setPresence s id online seen) else Throw.

(** ** The fanout *)

(** [sendToClient]: the frame is written iff the socket is open. *)
Definition sendToClient (ws : ConnId) (message : WebSocketMessage) (st : HubState) : HubState :=
  match sockets st !! ws with
  | Some w =>
      if bool_decide (readyState w = OPEN)
      then set_outbox (outbox st ++ [(ws, message)]) st
      else st
  | None => st
  end.

(** The body of the [forEach] of [broadcastToChat]. *)
Definition broadcastToChat_each (message : WebSocketMessage) (excludeUserId : option string)
    (st : HubState) (participant : string) : HubState :=
  if bool_decide (Some participant = excludeUserId) then st
  else match connectedUsers st !! participant with
       | Some userWs => sendToClient userWs message st
       | None => st
       end.

Definition broadcastToChat (chatId : string) (message : WebSocketMessage)
    (excludeUserId : option string) (st : HubState) : HubState :=
  match Chat_findById_populated (db st) chatId with
  | Ok (Some participants) =>
      foldl (broadcastToChat_each message excludeUserId) st participants
  | Ok None => st
  | Throw => st
  end.

(** The body of the inner [forEach] of [broadcastToUserChats], on the pair of
    the [notifiedUsers] set and the hub state. *)
Definition broadcastToUserChats_each (uid : string) (message : WebSocketMessage)
    (acc : gset string * HubState) (participantId : string) : gset string * HubState :=
  let '(notifiedUsers, st) := acc in
  if bool_decide (participantId = uid) || bool_decide (participantId ∈ notifiedUsers)
  then acc
  else ({[participantId]} ∪ notifiedUsers,
        match connectedUsers st !! participantId with
        | Some userWs => sendToClient userWs message st
        | None => st
        end).

Definition broadcastToUserChats (uid : string) (message : WebSocketMessage)
    (st : HubState) : HubState :=
  match Chat_find_populated (db st) uid with
  | Ok chats =>
      (foldl (λ acc chat, foldl (broadcastToUserChats_each uid message) acc chat)
             (∅, st) chats).2
  | Throw => st
  end.

(** ** The event handlers *)

(** The key of a typing claim, [`${ws.userId}-${chatId}`]. *)
Definition typingKey (st : HubState) (ws : ConnId) (chatId : string) : string :=
  template (ws_userId st ws) +:+ "-" +:+ chatId.

(** The [typing_start] / [typing_stop] envelope for the user of [ws]. *)
Definition typing_event (type : string) (st : HubState) (ws : ConnId) (chatId : string)
  : WebSocketMessage :=
  mkMsg type (P_typing (ws_userId st ws) (ws_username st ws) chatId (now st)).

Definition access_denied : WebSocketMessage :=
  mkMsg "error" (P_error "Chat not found or access denied" None).

(** [handleJoinRoom]; [Throw] is an exception that escapes to the [catch] of
    [handleMessage]. *)
Definition handleJoinRoom (ws : ConnId) (chatId : string) (st : HubState) : result HubState :=
  match Chat_findOne (db st) chatId (ws_userId st ws) with
  | Ok (Some _) => Ok (sendToClient ws (mkMsg "room_joined" (P_room chatId (now st))) st)
  | Ok None => Ok (sendToClient ws access_denied st)
  | Throw => Throw
  end.

Definition handleLeaveRoom (ws : ConnId) (chatId : string) (st : HubState) : HubState :=
  let st1 := set_typingUsers (delete (typingKey st ws chatId) (typingUsers st)) st in
  sendToClient ws (mkMsg "room_left" (P_room chatId (now st))) st1.

(** [...(x && { x })] for the optional fields of a new message. *)
Definition spread_string (x : option string) : option string :=
  if truthy x then x else None.

Definition spread_number (x : option Z) : option Z :=
  match x with
  | Some z => if bool_decide (z = 0%Z) then None else Some z
  | None => None
  end.

Definition handleSendMessage (ws : ConnId) (chatId content : string)
    (messageType fileUrl fileName : option string) (fileSize : option Z)
    (st : HubState) : HubState :=
  let failed := sendToClient ws (mkMsg "error" (P_error "Failed to send message" None)) in
  match Chat_findOne (db st) chatId (ws_userId st ws) with
  | Ok None => sendToClient ws access_denied st
  | Throw => failed st
  | Ok (Some chat) =>
      let newMessage :=
        Message.mk (ws_userId st ws) chatId content (default "text" messageType)
                   (spread_string fileUrl) (spread_string fileName) (spread_number fileSize) [] in
      match Message_save (db st) newMessage with
      | Throw => failed st
      | Ok (_id, _, db1) =>
          let st1 := set_db db1 st in
          let chat' := Chat.mk (Chat.type chat) (Chat.participants chat) (Chat.admin chat)
                               (Some _id) in
          match Chat_save db1 chatId chat' with
          | Throw => failed st1
          | Ok db2 =>
              let st2 := set_db db2 st1 in
              let populatedMessage := Message_populated db2 _id in
              let st3 :=
                broadcastToChat chatId
                  (mkMsg "new_message" (P_new_message populatedMessage chatId (now st)))
                  None st2 in
              let st4 := set_typingUsers (delete (typingKey st ws chatId) (typingUsers st3)) st3 in
              broadcastToChat chatId (typing_event "typing_stop" st ws chatId)
                              (ws_userId st ws) st4
          end
      end
  end.


Definition handleTypingStart (ws : ConnId) (chatId : string) (st : HubState) : HubState :=
  let key := typingKey st ws chatId in
  let st1 :=
    set_typingUsers
      (<[key := mkTyping (ws_userId st ws) (ws_username st ws) chatId (now st)]> (typingUsers st))
      st in
  let st2 := broadcastToChat chatId (typing_event "typing_start" st ws chatId)
                             (ws_userId st ws) st1 in
  set_timers (timers st2 ++ [mkTimer (now st + 3000) key chatId ws]) st2.

(** The callback that [handleTypingStart] passes to [setTimeout]. *)
Definition typingTimeout (t : Timer) (st : HubState) : HubState :=
  if bool_decide (is_Some (typingUsers st !! tm_key t)) then
    let st1 := set_typingUsers (delete (tm_key t) (typingUsers st)) st in
    broadcastToChat (tm_chatId t) (typing_event "typing_stop" st (tm_ws t) (tm_chatId t))
                    (ws_userId st (tm_ws t)) st1
  else st.

Definition handleTypingStop (ws : ConnId) (chatId : string) (st : HubState) : HubState :=
  let st1 := set_typingUsers (delete (typingKey st ws chatId) (typingUsers st)) st in
  broadcastToChat chatId (typing_event "typing_stop" st ws chatId) (ws_userId st ws) st1.

(** [messageDoc.readBy.some(receipt => receipt.user.toString() === ws.userId)]. *)
Definition alreadyRead (uid : option string) (m : Message.t) : bool :=
  existsb (λ receipt, bool_decide (Some (Message.user receipt) = uid)) (Message.readBy m).

Definition read_event (st : HubState) (ws : ConnId) (messageId chatId : string)
  : WebSocketMessage :=
  mkMsg "message_read"
        (P_message_read messageId chatId (ws_userId st ws) (ws_username st ws) (now st)).

Definition handleMessageRead (ws : ConnId) (messageId chatId : string) (st : HubState)
  : HubState :=
  match Message_findById (db st) messageId with
  | Ok (Some messageDoc) =>
      if alreadyRead (ws_userId st ws) messageDoc then
        broadcastToChat chatId (read_event st ws messageId chatId) None st
      else
        match ws_userId st ws with
        | Some u =>
            if castObjectId u then
              let messageDoc' :=
                Message.mk (Message.sender messageDoc) (Message.chat messageDoc)
                  (Message.content messageDoc) (Message.messageType messageDoc)
                  (Message.fileUrl messageDoc) (Message.fileName messageDoc)
                  (Message.fileSize messageDoc)
                  (Message.readBy messageDoc ++ [Message.mkReceipt u (now st)]) in
              broadcastToChat chatId (read_event st ws messageId chatId) None
                (set_db (Message_update (db st) messageId messageDoc') st)
            else st
        | None => st
        end
  | Ok None => st
  | Throw => st
  end.

(** The listener of a socket does not await the handler, and
    [handleMessageRead] awaits [Message.findById] before it looks at the
    list and [messageDoc.save()] after it has pushed: the hub may take
    another frame in between.  The handler in its two halves around the
    first [await]: the answer of [Message.findById], and the rest of the
    handler on that answer, run on the state that the hub has by then.
    [handleMessageRead] above is the second half run right on the answer
    of the first. *)
Definition handleMessageRead_find (messageId : string) (st : HubState)
  : result (option Message.t) :=
  Message_findById (db st) messageId.

Definition handleMessageRead_rest (ws : ConnId) (messageId chatId : string)
    (found : result (option Message.t)) (st : HubState) : HubState :=
  match found with
  | Ok (Some messageDoc) =>
      if alreadyRead (ws_userId st ws) messageDoc then
        broadcastToChat chatId (read_event st ws messageId chatId) None st
      else
        match ws_userId st ws with
        | Some u =>
            if castObjectId u then
              match Message_push (db st) messageId (Message.mkReceipt u (now st)) with
              | Ok db' =>
                  broadcastToChat chatId (read_event st ws messageId chatId) None
                    (set_db db' st)
              | Throw => st
              end
            else st
        | None => st
        end
  | Ok None => st
  | Throw => st
  end.

Definition presence_event (type : string) (uid : string) (name : option string) (t : Z)
  : WebSocketMessage :=
  mkMsg type (P_presence (Some uid) name t).

(** The loop of [handleDisconnection] over [typingUsers.entries()]. *)
Definition clearTyping (uid : option string) (typing : gmap string TypingUser)
  : gmap string TypingUser :=
  foldl (λ m kv, if bool_decide (t_userId kv.2 = uid) then delete kv.1 m else m)
        typing (map_to_list typing).

Definition handleDisconnection (ws : ConnId) (st : HubState) : HubState :=
  match ws_userId st ws with
  | Some u =>
      if truthy (Some u) then
        let st1 := set_connectedUsers (delete u (connectedUsers st)) st in
        let st2 := set_typingUsers (clearTyping (Some u) (typingUsers st1)) st1 in
        match User_findByIdAndUpdate (db st2) u false (now st) with
        | Ok db' =>
            broadcastToUserChats u (presence_event "user_offline" u (ws_username st ws) (now st))
                                 (set_db db' st2)
        | Throw => st2
        end
      else st
  | None => st
  end.

(** [handleMessage]: [None] is a frame on which [JSON.parse] throws. *)
Definition handleMessage (ws : ConnId) (data : option ClientEvent) (st : HubState) : HubState :=
  let failed :=
    sendToClient ws (mkMsg "error" (P_error "Error processing message" (Some (now st)))) in
  match data with
  | Some (join_room chatId) =>
      match handleJoinRoom ws chatId st with
      | Ok st' => st'
      | Throw => failed st
      end
  | Some (leave_room chatId) => handleLeaveRoom ws chatId st
  | Some (send_message chatId content messageType fileUrl fileName fileSize) =>
      handleSendMessage ws chatId content messageType fileUrl fileName fileSize st
  | Some (typing_start chatId) => handleTypingStart ws chatId st
  | Some (typing_stop chatId) => handleTypingStop ws chatId st
  | Some (message_read messageId chatId) => handleMessageRead ws messageId chatId st
  | Some (unknown_type _) => st
  | None => failed st
  end.

(** ** Connection life cycle *)

(** The upgrade request, as far as the connection handler reads it: the
    [token] search parameter of the URL and the [authorization] header. *)
Record Request := mkRequest
  { token_param : option string;
    authorization : option string }.

(** The text before the first space of [s], and what follows that space. *)
Fixpoint split_space (s : string) : string * option string :=
  match s with
  | EmptyString => (EmptyString, None)
  | String a s' =>
      if Ascii.eqb a " "%char then (EmptyString, Some s')
      else let '(w, r) := split_space s' in (String a w, r)
  end.

(** [authorization.split(' ')[1]]. *)
Definition split_1 (authorization : string) : option string :=
  r ← (split_space authorization).2; Some (split_space r).1.

Definition set_readyState (r : ReadyState) (w : ExtendedWebSocket) : ExtendedWebSocket :=
  mkWs (userId w) (username w) (isAlive w) r (listening w).

Definition set_isAlive (b : bool) (w : ExtendedWebSocket) : ExtendedWebSocket :=
  mkWs (userId w) (username w) (Some b) (readyState w) (listening w).

Definition set_listening (w : ExtendedWebSocket) : ExtendedWebSocket :=
  mkWs (userId w) (username w) (isAlive w) (readyState w) true.

(** [ws.close(code, reason)] and [ws.terminate()] both leave a socket that
    is not yet closed in the state [CLOSING]; its ['close'] event follows. *)
Definition closing (w : ExtendedWebSocket) : ExtendedWebSocket :=
  if bool_decide (readyState w = CLOSED) then w else set_readyState CLOSING w.

Definition ws_close (ws : ConnId) (st : HubState) : HubState :=
  set_sockets (alter closing ws (sockets st)) st.

Definition ws_terminate (ws : ConnId) (st : HubState) : HubState :=
  set_sockets (alter closing ws (sockets st)) st.

(** The ['connection'] listener of [setupWebSocket], run on the socket object
    that the server has just created and added to [wss.clients].  The
    listener awaits the store before it binds the socket; [r] is the ready
    state that the socket has when the listener goes on: [OPEN], or, when
    the client has gone away in the meantime, [CLOSING] or [CLOSED].  A
    socket that is [CLOSED] has emitted ['close'] before any listener was
    attached, and the server has dropped it from [wss.clients].  A request
    that is refused before the first await is refused on an open socket;
    the state given is the one after the client has gone away, which is the
    same.  [broadcastToUserChats] is not awaited: it writes its frames when
    its query returns, after the listener has attached its own listeners
    and sent the welcome frame. *)
Definition onConnectionAt (r : ReadyState) (req : Request) (st : HubState) : HubState :=
  let ws := fresh (dom (sockets st)) in
  let st0 :=
    set_clients (if bool_decide (r = CLOSED) then clients st else clients st ++ [ws])
      (set_sockets (<[ws := mkWs None None None r false]> (sockets st)) st) in
  let token :=
    if truthy (token_param req) then token_param req else authorization req ≫= split_1 in
  if negb (truthy token) then ws_close ws st0
  else
    match token ≫= jwt_verify with
    | None => ws_close ws st0
    | Some decodedUserId =>
        match User_findById (db st0) decodedUserId with
        | Ok (Some user) =>
            let uid := decodedUserId in
            let st1 :=
              set_sockets
                (<[ws := mkWs (Some uid) (Some (User.username user)) (Some true) r false]>
                   (sockets st0)) st0 in
            let st2 := set_connectedUsers (<[uid := ws]> (connectedUsers st1)) st1 in
            let st3 := set_db (User_setPresence (db st2) uid true (now st)) st2 in
            let st4 := set_sockets (alter set_listening ws (sockets st3)) st3 in
            let st5 :=
              sendToClient ws
                (mkMsg "connection" (P_connection "Connected successfully" uid (now st))) st4 in
            broadcastToUserChats uid
              (presence_event "user_online" uid (Some (User.username user)) (now st)) st5
        | Ok None => ws_close ws st0
        | Throw => ws_close ws st0
        end
    end.

(** The listener on a socket that stays open while it runs. *)
Definition onConnection (req : Request) (st : HubState) : HubState :=
  onConnectionAt OPEN req st.

(** The ['pong'] listener. *)
Definition onPong (ws : ConnId) (st : HubState) : HubState :=
  match sockets st !! ws with
  | Some w =>
      if listening w then set_sockets (<[ws := set_isAlive true w]> (sockets st)) st else st
  | None => st
  end.

(** The socket emits ['close']: it is closed, the server drops it from
    [wss.clients], and the ['close'] listener runs if it was attached. *)
Definition emitClose (st : HubState) (ws : ConnId) : HubState :=
  match sockets st !! ws with
  | Some w =>
      let st1 :=
        set_clients (filter (λ c, c ≠ ws) (clients st))
          (set_sockets (<[ws := set_readyState CLOSED w]> (sockets st)) st) in
      if listening w then handleDisconnection ws st1 else st1
  | None => st
  end.

(** The body of the [forEach] of [setupHeartbeat]. *)
Definition heartbeat_each (st : HubState) (ws : ConnId) : HubState :=
  match sockets st !! ws with
  | Some w =>
      if bool_decide (isAlive w = Some false) then ws_terminate ws st
      else set_sockets (<[ws := set_isAlive false w]> (sockets st)) st
  | None => st
  end.

(** The callback of [setInterval] in [setupHeartbeat]. *)
Definition heartbeat (st : HubState) : HubState :=
  foldl heartbeat_each st (clients st).

(** The sockets on which that callback calls [terminate]. *)
Definition terminated (st : HubState) : list ConnId :=
  filter (λ ws, (sockets st !! ws) ≫= isAlive = Some false) (clients st).

(** One heartbeat: the callback, then the ['close'] events of the sockets
    it destroyed. *)
Definition tick (st : HubState) : HubState :=
  foldl emitClose (heartbeat st) (terminated st).

(** Time passes: the clock moves [ms] milliseconds on and the typing timers
    that fall due fire, oldest first, each at its own time. *)
Definition elapse (ms : Z) (st : HubState) : HubState :=
  let deadline := (now st + ms)%Z in
  let due := filter (λ t, (fireAt t ≤ deadline)%Z) (timers st) in
  let later := filter (λ t, ¬ (fireAt t ≤ deadline)%Z) (timers st) in
  set_now deadline
    (foldl (λ s t, typingTimeout t (set_now (fireAt t) s)) (set_timers later st) due).

(** What the hub reacts to.  [Lost req closed] is an upgrade request whose
    client goes away while the listener awaits: the socket is closing when
    the listener goes on, or closed already. *)
Inductive Input :=
| Connect (req : Request)
| Frame (ws : ConnId) (data : option ClientEvent)
| Pong (ws : ConnId)
| Close (ws : ConnId)
| Heartbeat
| Elapse (ms : Z)
| Lost (req : Request) (closed : bool).

Definition step (st : HubState) (i : Input) : HubState :=
  match i with
  | Connect req => onConnection req st
  | Frame ws data =>
      match sockets st !! ws with
      | Some w =>
          if listening w && bool_decide (readyState w ≠ CLOSED)
          then handleMessage ws data st else st
      | None => st
      end
  | Pong ws => onPong ws st
  | Close ws =>
      match sockets st !! ws with
      | Some w => if bool_decide (readyState w ≠ CLOSED) then emitClose st ws else st
      | None => st
      end
  | Heartbeat => tick st
  | Elapse ms => if bool_decide (0 ≤ ms)%Z then elapse ms st else st
  | Lost req closed => onConnectionAt (if closed then CLOSED else CLOSING) req st
  end.

Definition run (st : HubState) (inputs : list Input) : HubState := foldl step st inputs.

(** ** What a fanout writes, as a function of the state it starts from *)

(** The frames of [sendToClient ws message]. *)
Definition frames (st : HubState) (ws : ConnId) (message : WebSocketMessage) : list Delivery :=
  match sockets st !! ws with
  | Some w => if bool_decide (readyState w = OPEN) then [(ws, message)] else []
  | None => []
  end.

(** The frames for one resolved recipient: through the registry, to the
    socket stored for that identity. *)
Definition deliver (st : HubState) (message : WebSocketMessage) (uid : string) : list Delivery :=
  match connectedUsers st !! uid with
  | Some userWs => frames st userWs message
  | None => []
  end.

(** The identities that [broadcastToChat] resolves, in order. *)
Definition roomRecipients (st : HubState) (chatId : string) (excludeUserId : option string)
  : list string :=
  match Chat_findById_populated (db st) chatId with
  | Ok (Some participants) => filter (λ p, Some p ≠ excludeUserId) participants
  | Ok None => []
  | Throw => []
  end.

Definition roomFrames (st : HubState) (chatId : string) (message : WebSocketMessage)
    (excludeUserId : option string) : list Delivery :=
  roomRecipients st chatId excludeUserId ≫= deliver st message.

(** The identities that [broadcastToUserChats] adds to [notifiedUsers], in
    the order it adds them. *)
Definition notify (uid : string) (notified : list string) (participantId : string)
  : list string :=
  if bool_decide (participantId = uid) || bool_decide (participantId ∈ notified)
  then notified else notified ++ [participantId].

Definition userRoomsRecipients (st : HubState) (uid : string) : list string :=
  match Chat_find_populated (db st) uid with
  | Ok chats => foldl (notify uid) [] (concat chats)
  | Throw => []
  end.

Definition userRoomsFrames (st : HubState) (uid : string) (message : WebSocketMessage)
  : list Delivery :=
  userRoomsRecipients st uid ≫= deliver st message.

(** The number of frames of type [t] written to the socket [ws]. *)
Definition count_frames (ws : ConnId) (t : string) (ds : list Delivery) : nat :=
  length (filter (λ d, d.1 = ws ∧ type d.2 = t) ds)%nat.

(** The number of frames written to sockets that are bound to the user
    identity [uid]. *)
Definition count_to_user (st : HubState) (uid : string) (ds : list Delivery) : nat :=
  length (filter (λ d, ws_userId st d.1 = Some uid) ds).

(** [wss.clients] is a set of sockets that exist. *)
Definition clients_wf (st : HubState) : Prop :=
  NoDup (clients st) ∧ ∀ c, c ∈ clients st → is_Some (sockets st !! c).

(** Two states with the same sockets, registry and [wss.clients]. *)
Definition same_conns (st st' : HubState) : Prop :=
  sockets st' = sockets st ∧ connectedUsers st' = connectedUsers st
  ∧ clients st' = clients st.

(** What one heartbeat does to a socket of [wss.clients]. *)
Definition beat (w : ExtendedWebSocket) : ExtendedWebSocket :=
  if bool_decide (isAlive w = Some false) then closing w else set_isAlive false w.

(** Every registry entry points at a socket bound to the identity that keys
    it ([connectedUsers.set(user._id.toString(), ws)] follows
    [ws.userId = user._id.toString()]). *)
Definition registry_wf (st : HubState) : Prop :=
  ∀ uid ws, connectedUsers st !! uid = Some ws → ws_userId st ws = Some uid.

End Hub.

(** The hub right after [new WebSocketManager(server)]. *)
Definition init (s : Store) : HubState := mkHub ∅ [] ∅ ∅ [] s 0 [].

(** ** A concrete deployment, for evaluating the hub *)

Module Demo.

Definition is_hex (a : ascii) : bool :=
  let n := nat_of_ascii a in
  (48 <=? n)%nat && (n <=? 57)%nat || (97 <=? n)%nat && (n <=? 102)%nat
  || (65 <=? n)%nat && (n <=? 70)%nat.

(** The strings that denote an [ObjectId]: 24 hexadecimal digits. *)
Definition castObjectId (s : string) : bool :=
  bool_decide (String.length s = 24%nat) && forallb is_hex (String.list_ascii_of_string s).

(** Tokens are the text [jwt:] followed by the user id they were signed for. *)
Definition jwt_verify (token : string) : option string :=
  match token with
  | String "j" (String "w" (String "t" (String ":" uid))) => Some uid
  | _ => None
  end.

Definition alice : string := "a00000000000000000000001".
Definition bob : string := "b00000000000000000000002".
Definition carol : string := "c00000000000000000000003".
Definition lobby : string := "d00000000000000000000001".
Definition team : string := "d00000000000000000000002".

Definition user (name : string) : User.t := User.mk name None false 0.

(** Three users; alice and bob share the private chat [lobby], and all
    three are in the group chat [team]. *)
Definition hello : string := "e00000000000000000000001".
Definition nowhere : string := "d00000000000000000000009".
Definition nothing : string := "e00000000000000000000009".

Definition store : Store :=
  mkStore
    (<[alice := user "alice"]> (<[bob := user "bob"]> (<[carol := user "carol"]> ∅)))
    (<[lobby := Chat.mk Chat.private [alice; bob] None None]>
       (<[team := Chat.mk Chat.group [alice; bob; carol] (Some alice) None]> ∅))
    (<[hello := Message.mk (Some bob) lobby "hello" "text" None None None []]> ∅).

Definition login (uid : string) : Input :=
  Connect (mkRequest (Some ("jwt:" +:+ uid)) None).

Definition run : HubState → list Input → HubState := run castObjectId jwt_verify.

(** The types of the frames written to the socket [ws], oldest first. *)
Definition received (ws : ConnId) (st : HubState) : list string :=
  map (λ d, type d.2) (filter (λ d, d.1 = ws) (outbox st)).

(** Alice is connected on socket 0 and bob on socket 1. *)
Definition online : HubState := run (init store) [login alice; login bob].

(** Alice has connected twice: socket 0, then socket 1. *)
Definition reconnected : HubState := run (init store) [login alice; login alice].

(** Carol is connected on socket 0. *)
Definition outsider : HubState := run (init store) [login carol].

(** One upgrade request without a token: socket 0 was never bound. *)
Definition anonymous : HubState := run (init store) [Connect (mkRequest None None)].

(** Alice starts typing in the lobby at 0 ms and again at 1000 ms; the
    state at 3000 ms. *)
Definition retyped : HubState :=
  run online [Frame 0 (Some (typing_start lobby)); Elapse 1000;
              Frame 0 (Some (typing_start lobby)); Elapse 2000].

(** Alice has marked bob's message read. *)
Definition seen : HubState := run online [Frame 0 (Some (message_read hello lobby))].

(** After a heartbeat bob has answered the ping and alice has not. *)
Definition unanswered : HubState := run online [Heartbeat; Pong 1].

Definition alice_ws : ExtendedWebSocket := mkWs (Some alice) (Some "alice") (Some true) OPEN true.
Definition bob_ws : ExtendedWebSocket := mkWs (Some bob) (Some "bob") (Some true) OPEN true.
Definition carol_ws : ExtendedWebSocket := mkWs (Some carol) (Some "carol") (Some true) OPEN true.

End Demo.

(** * The rest of the manager *)

(** ** Diagnostics *)

(** [ConnectedUser] of [types/index.ts]. *)
Module ConnectedUser.
Record t := mk
  { userId : string;
    username : option string;
    socketId : string;
    lastSeen : Z }.
End ConnectedUser.

Section Diagnostics.

(** [ws.toString()] for the socket object behind a reference. *)
Variable toString : ConnId → string.

(** [getConnectedUsers]: one entry per pair of [connectedUsers], here in the
    order of the keys and not in the order of insertion of the [Map]; what is
    proved of the result does not depend on its order. *)
Definition getConnectedUsers (st : HubState) : list ConnectedUser.t :=
  map (λ kv, ConnectedUser.mk kv.1 (ws_username st kv.2) (toString kv.2) (now st))
      (map_to_list (connectedUsers st)).

End Diagnostics.

(** [getOnlineCount]: [connectedUsers.size]. *)
Definition getOnlineCount (st : HubState) : nat := size (connectedUsers st).

(** ** The credential of an upgrade request *)

(** [url.searchParams.get('token') || req.headers.authorization?.split(' ')[1]],
    the [token] of the connection handler. *)
Definition request_token (req : Request) : option string :=
  if truthy (token_param req) then token_param req else authorization req ≫= split_1.

(** ** Typing claims and their timers *)

(** Every pending timer is due within 3000 ms, and every typing claim has a
    pending timer for its key. *)
Definition timers_wf (st : HubState) : Prop :=
  Forall (λ t, (fireAt t ≤ now st + 3000)%Z) (timers st)
  ∧ ∀ k, is_Some (typingUsers st !! k) → ∃ t, t ∈ timers st ∧ tm_key t = k.

(** The second state has the timers and the clock of the first, and no
    typing claim that the first has not. *)
Definition typing_shrinks (st st' : HubState) : Prop :=
  timers st' = timers st ∧ now st' = now st
  ∧ ∀ k c, typingUsers st' !! k = Some c → typingUsers st !! k = Some c.

(** ** Sockets that passed the connection handler *)

(** The socket behind [c] is bound to a user identity and a user name. *)
Definition authenticated (st : HubState) (c : ConnId) : Prop :=
  ∃ w u n, sockets st !! c = Some w ∧ userId w = Some u ∧ username w = Some n.

(** Listeners are attached to bound sockets only, and a bound socket has a
    name. *)
Definition socket_wf (w : ExtendedWebSocket) : Prop :=
  (listening w = true → is_Some (userId w)) ∧ (is_Some (userId w) → is_Some (username w)).

(** The registry points at sockets bound to its keys, the sockets are well
    formed, and every frame written so far went to an authenticated
    socket. *)
Definition good (st : HubState) : Prop :=
  registry_wf st
  ∧ (∀ c w, sockets st !! c = Some w → socket_wf w)
  ∧ Forall (λ d : Delivery, authenticated st d.1) (outbox st).

(** ** What a store keeps *)

(** The second store has the users and the chats of the first, with the same
    names, kinds and participants, and every message of the first with the
    same sender, chat and content and with its read receipts as the first
    receipts. *)
Definition store_grows (s s' : Store) : Prop :=
  (∀ k, match users s !! k, users s' !! k with
        | Some u, Some u' => User.username u' = User.username u ∧ User.avatar u' = User.avatar u
        | None, None => True
        | _, _ => False
        end)
  ∧ (∀ k, match chats s !! k, chats s' !! k with
          | Some c, Some c' =>
              Chat.type c' = Chat.type c ∧ Chat.participants c' = Chat.participants c
          | None, None => True
          | _, _ => False
          end)
  ∧ (∀ k m, messages s !! k = Some m →
            ∃ m', messages s' !! k = Some m'
                  ∧ Message.sender m' = Message.sender m
                  ∧ Message.chat m' = Message.chat m
                  ∧ Message.content m' = Message.content m
                  ∧ Message.messageType m' = Message.messageType m
                  ∧ Message.readBy m `prefix_of` Message.readBy m').

(** * The REST middleware *)

(** [authHeader?.startsWith('Bearer ')] and [authHeader.substring(7)] of
    [authenticate]. *)
Definition bearer (authHeader : option string) : option string :=
  h ← authHeader;
  if String.prefix "Bearer " h then Some (String.substring 7 (String.length h - 7) h) else None.

Section Auth.

Variable castObjectId : string → bool.
Variable jwt_verify : string → option string.

(** [authenticate] with [JWT_SECRET] defined: the identity and document that
    become [req.user] before [next()], or [None] for a 401 response. *)
Definition authenticate (authHeader : option string) (s : Store) : option (string * User.t) :=
  match bearer authHeader with
  | None => None
  | Some token =>
      match jwt_verify token with
      | None => None
      | Some decodedUserId =>
          match User_findById castObjectId s decodedUserId with
          | Ok (Some user) => Some (decodedUserId, user)
          | Ok None => None
          | Throw => None
          end
      end
  end.

End Auth.

(** No character of [s] is a space. *)
Fixpoint no_space (s : string) : bool :=
  match s with
  | EmptyString => true
  | String a s' => negb (Ascii.eqb a " "%char) && no_space s'
  end.

(** * The REST routes *)

(** A route is run for the user that [authenticate] has put in [req.user];
    [uid] is [req.user._id].  Its result is the status of the response and
    the store it leaves. *)

(** [[...new Set(l)]]: the first occurrence of every element, in order. *)
Definition Set_of (l : list string) : list string :=
  foldl (λ acc x, if bool_decide (x ∈ acc) then acc else acc ++ [x]) [] l.

Section Routes.

Variable castObjectId : string → bool.

(** ** Messages *)

(** [Message.findOne({ _id: id, sender: uid })]. *)
Definition Message_findOne (s : Store) (id uid : string) : result (option Message.t) :=
  if castObjectId id then
    Ok (m ← messages s !! id;
        if bool_decide (Message.sender m = Some uid) then Some m else None)
  else Throw.

(** [Message.findByIdAndDelete(id)]. *)
Definition Message_findByIdAndDelete (s : Store) (id : string) : result Store :=
  if castObjectId id then Ok (mkStore (users s) (chats s) (delete id (messages s)))
  else Throw.

(** [POST /], send a message. *)
Definition post_message (uid : string) (chatId content messageType fileUrl fileName : option string)
    (fileSize : option Z) (s : Store) : nat * Store :=
  match chatId, content with
  | Some chatId, Some content =>
      if negb (truthy (Some chatId)) || negb (truthy (Some content)) then (400, s)
      else
        match Chat_findOne castObjectId s chatId (Some uid) with
        | Ok None => (404, s)
        | Throw => (500, s)
        | Ok (Some chat) =>
            let message :=
              Message.mk (Some uid) chatId content (default "text" messageType)
                         (spread_string fileUrl) (spread_string fileName)
                         (spread_number fileSize) [] in
            match Message_save castObjectId s message with
            | Throw => (500, s)
            | Ok (_id, _, s1) =>
                let chat' := Chat.mk (Chat.type chat) (Chat.participants chat) (Chat.admin chat)
                                     (Some _id) in
                match Chat_save s1 chatId chat' with
                | Throw => (500, s1)
                | Ok s2 => (201, s2)
                end
            end
        end
  | _, _ => (400, s)
  end.

(** [DELETE /:id], delete a message. *)
Definition delete_message (uid id : string) (s : Store) : nat * Store :=
  match Message_findOne s id uid with
  | Throw => (500, s)
  | Ok None => (404, s)
  | Ok (Some _) =>
      match Message_findByIdAndDelete s id with
      | Ok s' => (200, s')
      | Throw => (500, s)
      end
  end.

(** [POST /:id/read], mark a message as read, at the time [t]. *)
Definition post_read (uid id : string) (t : Z) (s : Store) : nat * Store :=
  match Message_findById castObjectId s id with
  | Throw => (500, s)
  | Ok None => (404, s)
  | Ok (Some message) =>
      match Chat_findOne castObjectId s (Message.chat message) (Some uid) with
      | Throw => (500, s)
      | Ok None => (403, s)
      | Ok (Some _) =>
          if alreadyRead (Some uid) message then (200, s)
          else
            let message' :=
              Message.mk (Message.sender message) (Message.chat message)
                (Message.content message) (Message.messageType message)
                (Message.fileUrl message) (Message.fileName message)
                (Message.fileSize message)
                (Message.readBy message ++ [Message.mkReceipt uid t]) in
            (200, Message_update s id message')
      end
  end.

(** ** Chats *)

(** [User.find({ _id: { $in: ids } })], as the ids of the documents found. *)
Definition User_find_in (s : Store) (ids : list string) : result (list string) :=
  if forallb castObjectId ids
  then Ok (filter (λ k, k ∈ ids) (map fst (map_to_list (users s))))
  else Throw.

(** [Chat.findOne({ type: 'private', participants: { $all: ids, $size: 2 } })],
    as whether a chat is found. *)
Definition Chat_exists_private (s : Store) (ids : list string) : result bool :=
  if forallb castObjectId ids
  then Ok (existsb
             (λ kc : string * Chat.t,
                match Chat.type kc.2 with Chat.private => true | Chat.group => false end
                && bool_decide (length (Chat.participants kc.2) = 2)
                && forallb (λ p, bool_decide (p ∈ Chat.participants kc.2)) ids)
             (map_to_list (chats s)))
  else Throw.

(** The [type] of a new chat passes the [enum] validator. *)
Definition Chat_kind (type : string) : option Chat.kind :=
  if bool_decide (type = "private") then Some Chat.private
  else if bool_decide (type = "group") then Some Chat.group
  else None.

(** [new Chat({..})] followed by [save()]: the references are cast, the
    validators of [type] and [name] run, then the [pre('save')] hook, and the
    document is written under an [_id] that no stored chat has. *)
Definition Chat_create (s : Store) (name : option string) (type : string)
    (participants : list string) (admin : option string) : result (string * Store) :=
  match Chat_kind type with
  | Some kind =>
      if forallb castObjectId participants
         && bool_decide (Message.length16 (Message.trim (default "" name)) ≤ 50)
      then
        match Chat.pre_save (Chat.mk kind participants admin None) with
        | Some c =>
            let _id := fresh (dom (chats s)) in
            Ok (_id, mkStore (users s) (<[_id := c]> (chats s)) (messages s))
        | None => Throw
        end
      else Throw
  | None => Throw
  end.

(** [POST /], create a chat.  [participantIds] is [None] unless the body has
    an array there. *)
Definition post_chat (uid : string) (participantIds : option (list string))
    (name type : option string) (s : Store) : nat * Store :=
  match participantIds with
  | None => (400, s)
  | Some ids =>
      if bool_decide (length ids = 0) then (400, s)
      else
        let type := default "private" type in
        let allParticipants := Set_of (uid :: ids) in
        match User_find_in s allParticipants with
        | Throw => (500, s)
        | Ok found =>
            if bool_decide (length found ≠ length allParticipants) then (400, s)
            else
              let create :=
                match Chat_create s (if bool_decide (type = "group") then name else None) type
                        allParticipants (if bool_decide (type = "group") then Some uid else None)
                with
                | Ok (_, s') => (201, s')
                | Throw => (500, s)
                end in
              if bool_decide (type = "private") && bool_decide (length allParticipants = 2)
              then
                match Chat_exists_private s allParticipants with
                | Throw => (500, s)
                | Ok true => (400, s)
                | Ok false => create
                end
              else create
        end
  end.

(** [DELETE /:id], delete a chat and its messages. *)
Definition delete_chat (uid id : string) (s : Store) : nat * Store :=
  match Chat_findOne castObjectId s id (Some uid) with
  | Throw => (500, s)
  | Ok None => (404, s)
  | Ok (Some chat) =>
      if match Chat.type chat with Chat.group => true | Chat.private => false end
         && bool_decide (Chat.admin chat ≠ Some uid)
      then (403, s)
      else (200, mkStore (users s) (delete id (chats s))
                         (filter (λ km, Message.chat km.2 ≠ id) (messages s)))
  end.

End Routes.


(** * The client of the hub *)

(** [WebSocketService] of the front end: its handler table and its reconnect
    bookkeeping.  An event handler is a function reference; [connects]
    counts the sockets the service has created with [new WebSocket(url)],
    and stands for the field [ws], which only [emit] and [isConnected]
    read. *)
Module WebSocketService.

Record t := mk
  { eventHandlers : gmap string (list nat);
    reconnectAttempts : nat;
    isManualClose : bool;
    connects : nat }.

Definition maxReconnectAttempts : nat := 5.
Definition reconnectInterval : Z := 3000.

(** [new WebSocketService()]. *)
Definition new : t := mk ∅ 0 false 0.

(** [connect(token)], up to the creation of the socket. *)
Definition connect (c : t) : t :=
  mk (eventHandlers c) (reconnectAttempts c) (isManualClose c) (S (connects c)).

(** The [onopen] listener. *)
Definition onopen (c : t) : t := mk (eventHandlers c) 0 false (connects c).

(** The [onclose] listener: the delay of the [setTimeout] it sets, if it
    sets one. *)
Definition onclose (c : t) : option Z :=
  if negb (isManualClose c) && bool_decide (reconnectAttempts c < maxReconnectAttempts)
  then Some (reconnectInterval * Z.of_nat (reconnectAttempts c))%Z
  else None.

(** The callback that [onclose] passes to [setTimeout]. *)
Definition reconnect (c : t) : t :=
  connect (mk (eventHandlers c) (S (reconnectAttempts c)) (isManualClose c) (connects c)).

(** [disconnect()]. *)
Definition disconnect (c : t) : t :=
  mk (eventHandlers c) (reconnectAttempts c) true (connects c).

(** [on(event, handler)]. *)
Definition on (event : string) (handler : nat) (c : t) : t :=
  let handlers :=
    if bool_decide (is_Some (eventHandlers c !! event)) then eventHandlers c
    else <[event := []]> (eventHandlers c) in
  mk (alter (λ hs, hs ++ [handler]) event handlers)
     (reconnectAttempts c) (isManualClose c) (connects c).

(** [handlers.splice(handlers.indexOf(handler), 1)] when the index is not
    [-1]: the first occurrence of [handler] is removed. *)
Fixpoint splice_first (handler : nat) (handlers : list nat) : list nat :=
  match handlers with
  | [] => []
  | h :: hs => if bool_decide (h = handler) then hs else h :: splice_first handler hs
  end.

(** [off(event, handler)]. *)
Definition off (event : string) (handler : nat) (c : t) : t :=
  mk (alter (splice_first handler) event (eventHandlers c))
     (reconnectAttempts c) (isManualClose c) (connects c).

(** [handleMessage(message)]: the handlers called, in order. *)
Definition handleMessage (type : string) (c : t) : list nat :=
  default [] (eventHandlers c !! type).

(** [n] connections in a row that close without having opened, each
    followed by the timer that its [onclose] set, if it set one: the delays
    of the timers, and the service afterwards. *)
Fixpoint failures (n : nat) (c : t) : list Z * t :=
  match n with
  | 0 => ([], c)
  | S n' =>
      match onclose c with
      | Some delay => let '(ds, c') := failures n' (reconnect c) in (delay :: ds, c')
      | None => ([], c)
      end
  end.

End WebSocketService.

(** ** More of the concrete deployment *)

Module Cases.

(** The token that [Demo.jwt_verify] accepts for [uid]. *)
Definition token (uid : string) : string := "jwt:" +:+ uid.

Definition upgrade (uid : string) : Request := mkRequest (Some (token uid)) None.

(** Alice is connected on socket 0. *)
Definition single : HubState := Demo.run (init Demo.store) [Demo.login Demo.alice].

(** The deployment with one more chat, a group that has lost everyone but
    alice. *)
Definition solo : string := "d00000000000000000000003".

Definition store : Store :=
  mkStore (users Demo.store)
    (<[solo := Chat.mk Chat.group [Demo.alice] (Some Demo.alice) None]> (chats Demo.store))
    (messages Demo.store).

(** Alice is connected on socket 0 of that deployment. *)
Definition alone : HubState := Demo.run (init store) [Demo.login Demo.alice].

Definition alice_doc : User.t := User.mk "alice" None true 0.

Definition hello_doc : Message.t :=
  Message.mk (Some Demo.bob) Demo.lobby "hello" "text" None None None [].

Definition lobby_doc : Chat.t := Chat.mk Chat.private [Demo.alice; Demo.bob] None None.

(** The text of the character that UTF-8 encodes in the bytes given. *)
Definition text (bytes : list nat) : string :=
  String.string_of_list_ascii (map ascii_of_nat bytes).

(** U+00A0, the no-break space, and U+3000, the ideographic space. *)
Definition nbsp : string := text [194; 160].
Definition wide_space : string := text [227; 128; 128].

(** Every character that [String.prototype.trim] strips, one after the
    other: U+0009 to U+000D, U+0020, U+00A0, U+1680, U+2000 to U+200A,
    U+2028, U+2029, U+202F, U+205F, U+3000 and U+FEFF. *)
Definition blank : string :=
  foldr String.append ""
    (map text
       [[9]; [10]; [11]; [12]; [13]; [32]; [194; 160]; [225; 154; 128];
        [226; 128; 128]; [226; 128; 129]; [226; 128; 130]; [226; 128; 131];
        [226; 128; 132]; [226; 128; 133]; [226; 128; 134]; [226; 128; 135];
        [226; 128; 136]; [226; 128; 137]; [226; 128; 138]; [226; 128; 168];
        [226; 128; 169]; [226; 128; 175]; [226; 129; 159]; [227; 128; 128];
        [239; 187; 191]]).

(** Characters that it keeps: U+0085, the next line control, U+200B, the
    zero width space, U+00E9, an e with an acute accent, and U+1F600, a
    face, which takes two UTF-16 code units. *)
Definition next_line : string := text [194; 133].
Definition zero_width : string := text [226; 128; 139].
Definition e_acute : string := text [195; 169].
Definition face : string := text [240; 159; 152; 128].

(** [s.repeat(n)]. *)
Fixpoint repeat (n : nat) (s : string) : string :=
  match n with
  | 0 => ""
  | S n' => s +:+ repeat n' s
  end.

End Cases.

(** * Properties of the hub *)

Section Facts.

Variable castObjectId : string → bool.

(** ** The fanout only appends to the outbox *)

Lemma set_outbox_nil (st : HubState) : set_outbox (outbox st ++ []) st = st.
Proof. destruct st; unfold set_outbox; simpl. by rewrite app_nil_r. Qed.

Lemma set_outbox_twice (st : HubState) (a b : list Delivery) :
  set_outbox (outbox (set_outbox (outbox st ++ a) st) ++ b) (set_outbox (outbox st ++ a) st)
  = set_outbox (outbox st ++ (a ++ b)) st.
Proof. unfold set_outbox; simpl. by rewrite app_assoc. Qed.

Lemma sendToClient_frames (ws : ConnId) (m : WebSocketMessage) (st : HubState) :
  sendToClient ws m st = set_outbox (outbox st ++ frames st ws m) st.
Proof.
  unfold sendToClient, frames.
  destruct (sockets st !! ws) as [w|]; [|by rewrite set_outbox_nil].
  case_bool_decide; [done | by rewrite set_outbox_nil].
Qed.

Lemma broadcastToChat_each_frames m ex st p :
  broadcastToChat_each m ex st p
  = set_outbox (outbox st ++ (if bool_decide (Some p = ex) then [] else deliver st m p)) st.
Proof.
  unfold broadcastToChat_each, deliver.
  case_bool_decide; [by rewrite set_outbox_nil|].
  destruct (connectedUsers st !! p); [apply sendToClient_frames | by rewrite set_outbox_nil].
Qed.

Lemma broadcastToChat_fold m ex ps st :
  foldl (broadcastToChat_each m ex) st ps
  = set_outbox (outbox st ++ (filter (λ p, Some p ≠ ex) ps ≫= deliver st m)) st.
Proof.
  revert st. induction ps as [|p ps IH]; intros st; simpl.
  - by rewrite set_outbox_nil.
  - rewrite IH, broadcastToChat_each_frames. rewrite filter_cons.
    case_bool_decide as Hp.
    + rewrite decide_False by (intros H; by apply H).
      by rewrite set_outbox_twice.
    + rewrite decide_True by done. rewrite set_outbox_twice. simpl. done.
Qed.

Lemma broadcastToChat_frames chatId m ex st :
  broadcastToChat castObjectId chatId m ex st
  = set_outbox (outbox st ++ roomFrames castObjectId st chatId m ex) st.
Proof.
  unfold broadcastToChat, roomFrames, roomRecipients.
  destruct (Chat_findById_populated castObjectId (db st) chatId) as [[ps|]|];
    [apply broadcastToChat_fold | by rewrite set_outbox_nil..].
Qed.

Lemma foldl_concat {A B} (f : A → B → A) (a : A) (ls : list (list B)) :
  foldl (λ acc l, foldl f acc l) a ls = foldl f a (concat ls).
Proof.
  revert a. induction ls as [|l ls IH]; intros a; simpl; [done|].
  by rewrite foldl_app, IH.
Qed.

Lemma broadcastToUserChats_each_notify uid m st (l : list string) p :
  broadcastToUserChats_each uid m
    (list_to_set l, set_outbox (outbox st ++ (l ≫= deliver st m)) st) p
  = (list_to_set (notify uid l p),
     set_outbox (outbox st ++ (notify uid l p ≫= deliver st m)) st).
Proof.
  unfold broadcastToUserChats_each, notify.
  rewrite (bool_decide_ext (p ∈ (list_to_set l : gset string)) (p ∈ l))
    by apply elem_of_list_to_set.
  destruct (bool_decide (p = uid) || bool_decide (p ∈ l)); [done|].
  f_equal.
  - rewrite list_to_set_app_L. simpl. rewrite (right_id_L ∅ (∪)). apply (comm_L (∪)).
  - rewrite bind_app. simpl. rewrite app_nil_r.
    assert (deliver st m p = match connectedUsers st !! p with
                             | Some c => frames st c m
                             | None => []
                             end) as -> by done.
    simpl. destruct (connectedUsers st !! p) as [c|].
    + rewrite sendToClient_frames. exact (set_outbox_twice st _ _).
    + by rewrite app_nil_r.
Qed.

Lemma broadcastToUserChats_fold uid m st ps (l : list string) :
  foldl (broadcastToUserChats_each uid m)
    (list_to_set l, set_outbox (outbox st ++ (l ≫= deliver st m)) st) ps
  = (list_to_set (foldl (notify uid) l ps),
     set_outbox (outbox st ++ (foldl (notify uid) l ps ≫= deliver st m)) st).
Proof.
  revert l. induction ps as [|p ps IH]; intros l; cbn [foldl]; [done|].
  by rewrite broadcastToUserChats_each_notify, IH.
Qed.

Lemma broadcastToUserChats_frames uid m st :
  broadcastToUserChats castObjectId uid m st
  = set_outbox (outbox st ++ userRoomsFrames castObjectId st uid m) st.
Proof.
  unfold broadcastToUserChats, userRoomsFrames, userRoomsRecipients.
  destruct (Chat_find_populated castObjectId (db st) uid) as [chats|];
    [|by rewrite set_outbox_nil].
  rewrite foldl_concat.
  pose proof (broadcastToUserChats_fold uid m st (concat chats) []) as H.
  simpl in H. rewrite set_outbox_nil in H. by rewrite H.
Qed.

(** ** The recipients of a presence fanout *)

Lemma notify_elem uid ps (l : list string) x :
  x ∈ foldl (notify uid) l ps ↔ x ∈ l ∨ (x ≠ uid ∧ x ∈ ps).
Proof.
  revert l. induction ps as [|p ps IH]; intros l; simpl.
  - rewrite elem_of_nil. naive_solver.
  - rewrite IH. unfold notify. rewrite elem_of_cons.
    destruct (bool_decide (p = uid) || bool_decide (p ∈ l)) eqn:E.
    + apply orb_true_iff in E as [E|E]; apply bool_decide_eq_true in E; naive_solver.
    + apply orb_false_iff in E as [E1 E2].
      apply bool_decide_eq_false in E1. rewrite elem_of_app, list_elem_of_singleton.
      naive_solver.
Qed.

Lemma notify_NoDup uid ps (l : list string) :
  NoDup l → NoDup (foldl (notify uid) l ps).
Proof.
  revert l. induction ps as [|p ps IH]; intros l Hl; simpl; [done|].
  apply IH. unfold notify.
  destruct (bool_decide (p = uid) || bool_decide (p ∈ l)) eqn:E; [done|].
  apply orb_false_iff in E as [_ E]. apply bool_decide_eq_false in E.
  apply NoDup_app. split_and!; [done | | apply NoDup_singleton].
  intros x Hx Hx'. apply list_elem_of_singleton in Hx'. by subst.
Qed.

Lemma userRoomsRecipients_NoDup st uid : NoDup (userRoomsRecipients castObjectId st uid).
Proof.
  unfold userRoomsRecipients.
  destruct (Chat_find_populated castObjectId (db st) uid); [|apply NoDup_nil_2].
  apply notify_NoDup, NoDup_nil_2.
Qed.

Lemma userRoomsRecipients_not_self st uid : uid ∉ userRoomsRecipients castObjectId st uid.
Proof.
  unfold userRoomsRecipients.
  destruct (Chat_find_populated castObjectId (db st) uid); [|apply not_elem_of_nil].
  rewrite notify_elem, elem_of_nil. naive_solver.
Qed.

(** ** Typing stop *)

(** C3 (as the code has it): [handleTypingStop] deletes the claim of
    (U, R) and writes the [typing_stop] fanout to the room without looking
    whether a claim existed; the sender is not among its recipients. *)
Theorem handleTypingStop_always_fans_out ws chatId st :
  handleTypingStop castObjectId ws chatId st
  = set_outbox
      (outbox st ++ roomFrames castObjectId st chatId
                      (typing_event "typing_stop" st ws chatId) (ws_userId st ws))
      (set_typingUsers (delete (typingKey st ws chatId) (typingUsers st)) st)
  ∧ Forall (λ p, Some p ≠ ws_userId st ws)
           (roomRecipients castObjectId st chatId (ws_userId st ws)).
Proof.
  split.
  - unfold handleTypingStop. by rewrite broadcastToChat_frames.
  - apply Forall_forall. intros p Hp. unfold roomRecipients in Hp.
    destruct (Chat_findById_populated castObjectId (db st) chatId) as [[ps|]|];
      try by apply elem_of_nil in Hp.
    by apply list_elem_of_filter in Hp as [Hp _].
Qed.

(** ** Sending to a room one is not a member of *)

Lemma frames_open st ws w m :
  sockets st !! ws = Some w → readyState w = OPEN → frames st ws m = [(ws, m)].
Proof. intros Hw Ho. unfold frames. rewrite Hw. by rewrite bool_decide_eq_true_2. Qed.

Lemma Chat_findOne_non_member s chatId uid chat u :
  chats s !! chatId = Some chat → uid = Some u → u ∉ Chat.participants chat →
  Chat_findOne castObjectId s chatId uid = Ok None
  ∨ Chat_findOne castObjectId s chatId uid = Throw.
Proof.
  intros Hc -> Hu. unfold Chat_findOne.
  destruct (castObjectId chatId); [|by right].
  destruct (castObjectId u); [|by right].
  left. rewrite Hc. simpl. by rewrite bool_decide_eq_false_2.
Qed.

Lemma Chat_findOne_absent s chatId uid :
  chats s !! chatId = None →
  Chat_findOne castObjectId s chatId uid = Ok None
  ∨ Chat_findOne castObjectId s chatId uid = Throw.
Proof.
  intros Hc. unfold Chat_findOne.
  destruct (castObjectId chatId); [|by right].
  destruct uid as [u|]; [|by left].
  destruct (castObjectId u); [|by right].
  left. by rewrite Hc.
Qed.

Lemma handleSendMessage_refused ws w chatId content messageType fileUrl fileName fileSize st :
  sockets st !! ws = Some w → readyState w = OPEN →
  Chat_findOne castObjectId (db st) chatId (ws_userId st ws) = Ok None
  ∨ Chat_findOne castObjectId (db st) chatId (ws_userId st ws) = Throw →
  ∃ m, type m = "error"
       ∧ handleSendMessage castObjectId ws chatId content messageType fileUrl fileName fileSize st
         = set_outbox (outbox st ++ [(ws, m)]) st.
Proof.
  intros Hw Ho [H|H]; unfold handleSendMessage; rewrite H, sendToClient_frames;
    rewrite (frames_open _ _ _ _ Hw Ho); eexists; (split; [|reflexivity]); reflexivity.
Qed.

(** C5: a [send_message] for a room whose participants do not include the
    sender writes one [error] frame to the sender's socket and changes
    nothing else: no message is stored, the room's document is as it was,
    and no other socket is written to. *)
Theorem handleSendMessage_non_member ws w u chatId chat content messageType fileUrl fileName
    fileSize st :
  sockets st !! ws = Some w → readyState w = OPEN → userId w = Some u →
  chats (db st) !! chatId = Some chat → u ∉ Chat.participants chat →
  ∃ m, type m = "error"
       ∧ handleSendMessage castObjectId ws chatId content messageType fileUrl fileName fileSize st
         = set_outbox (outbox st ++ [(ws, m)]) st.
Proof.
  intros Hw Ho Hu Hc Hm.
  apply (handleSendMessage_refused _ w); [done..|].
  apply (Chat_findOne_non_member _ _ _ chat u); [done| |done].
  unfold ws_userId. by rewrite Hw.
Qed.

(** ** Read receipts *)

Lemma filter_all {A} (P : A → Prop) `{!∀ x, Decision (P x)} (l : list A) :
  (∀ x, P x) → filter P l = l.
Proof.
  intros HP. induction l as [|x l IH]; [done|].
  by rewrite filter_cons_True, IH.
Qed.

Lemma handleMessageRead_first ws u messageId chatId m st :
  castObjectId messageId = true → castObjectId u = true →
  messages (db st) !! messageId = Some m → ws_userId st ws = Some u →
  alreadyRead (Some u) m = false →
  ∃ m', messages (db (handleMessageRead castObjectId ws messageId chatId st)) !! messageId
        = Some m'
        ∧ Message.readBy m' = (Message.readBy m ++ [Message.mkReceipt u (now st)])%list
        ∧ alreadyRead (Some u) m' = true.
Proof.
  intros Hid Hu Hm Hws Hr. unfold handleMessageRead, Message_findById.
  rewrite Hid, Hm, Hws, Hr, Hu, broadcastToChat_frames. simpl.
  rewrite lookup_insert_eq. eexists; split_and!; [done..|].
  unfold alreadyRead. simpl. rewrite existsb_app. simpl.
  rewrite bool_decide_eq_true_2 by done. by rewrite orb_true_r.
Qed.

(** ** Events that name something that is not stored *)

(** C9 (as the code has it): a [join_room] or a [send_message] for a chat
    that is not stored is answered by one [error] frame to the sender and
    changes nothing else; a [message_read] for a message that is not stored
    is dropped without any reply, change or fanout. *)
Theorem not_found_replies ws w chatId messageId chatId' content messageType fileUrl fileName
    fileSize st :
  sockets st !! ws = Some w → readyState w = OPEN →
  chats (db st) !! chatId = None → messages (db st) !! messageId = None →
  (∃ m, type m = "error"
        ∧ handleMessage castObjectId ws (Some (join_room chatId)) st
          = set_outbox (outbox st ++ [(ws, m)]) st)
  ∧ (∃ m, type m = "error"
          ∧ handleMessage castObjectId ws
              (Some (send_message chatId content messageType fileUrl fileName fileSize)) st
            = set_outbox (outbox st ++ [(ws, m)]) st)
  ∧ handleMessage castObjectId ws (Some (message_read messageId chatId')) st = st.
Proof.
  intros Hw Ho Hc Hm.
  pose proof (Chat_findOne_absent (db st) chatId (ws_userId st ws) Hc) as Hf.
  split_and!.
  - simpl. unfold handleJoinRoom.
    destruct Hf as [-> | ->]; rewrite sendToClient_frames, (frames_open _ _ _ _ Hw Ho);
      eexists; (split; [|reflexivity]); reflexivity.
  - simpl. by apply (handleSendMessage_refused _ w).
  - simpl. unfold handleMessageRead, Message_findById.
    destruct (castObjectId messageId); [by rewrite Hm | done].
Qed.

(** ** Disconnection *)

Lemma handleDisconnection_some ws u st :
  ws_userId st ws = Some u → u ≠ "" →
  handleDisconnection castObjectId ws st
  = let st2 :=
      set_typingUsers (clearTyping (Some u) (typingUsers st))
        (set_connectedUsers (delete u (connectedUsers st)) st) in
    if castObjectId u then
      set_outbox
        (outbox st
         ++ userRoomsFrames castObjectId
              (set_db (User_setPresence (db st) u false (now st)) st2) u
              (presence_event "user_offline" u (ws_username st ws) (now st)))
        (set_db (User_setPresence (db st) u false (now st)) st2)
    else st2.
Proof.
  intros Hu Hne. unfold handleDisconnection. rewrite Hu. simpl.
  rewrite bool_decide_eq_true_2 by done.
  unfold User_findByIdAndUpdate. simpl.
  destruct (castObjectId u); [|done].
  by rewrite broadcastToUserChats_frames.
Qed.

(** C1 (as the code has it): the disconnect path of a connection bound to
    the identity U deletes the registry entry of U whichever connection it
    holds. *)
Theorem handleDisconnection_unregisters ws u st :
  ws_userId st ws = Some u → u ≠ "" →
  connectedUsers (handleDisconnection castObjectId ws st) !! u = None.
Proof.
  intros Hu Hne. rewrite (handleDisconnection_some _ _ _ Hu Hne). simpl.
  destruct (castObjectId u); simpl; apply lookup_delete_eq.
Qed.

(** C10: the disconnect handling of a connection that no identity was
    bound to changes nothing; the ['close'] event of such a socket only
    closes it and drops it from [wss.clients]. *)
Theorem handleDisconnection_unauthenticated ws st :
  truthy (ws_userId st ws) = false →
  handleDisconnection castObjectId ws st = st
  ∧ connectedUsers (emitClose castObjectId st ws) = connectedUsers st
  ∧ typingUsers (emitClose castObjectId st ws) = typingUsers st
  ∧ timers (emitClose castObjectId st ws) = timers st
  ∧ db (emitClose castObjectId st ws) = db st
  ∧ outbox (emitClose castObjectId st ws) = outbox st.
Proof.
  intros Hu.
  assert (∀ st', ws_userId st' ws = ws_userId st ws →
                 handleDisconnection castObjectId ws st' = st') as Hd.
  { intros st' E. unfold handleDisconnection. rewrite E.
    destruct (ws_userId st ws) as [u|]; [|done]. by rewrite Hu. }
  split; [by apply Hd|].
  unfold emitClose. destruct (sockets st !! ws) as [w|] eqn:Hw; [|done].
  destruct (listening w); [|done].
  rewrite Hd; [done|].
  unfold ws_userId. simpl. by rewrite lookup_insert_eq, Hw.
Qed.

(** ** Counting the frames of a fanout *)

Lemma deliver_cases st m p :
  deliver st m p = []
  ∨ ∃ c, connectedUsers st !! p = Some c ∧ deliver st m p = [(c, m)].
Proof.
  unfold deliver, frames. destruct (connectedUsers st !! p) as [c|]; [|by left].
  destruct (sockets st !! c) as [w|]; [|by left].
  case_bool_decide; [right; eauto | by left].
Qed.

Lemma deliver_open st m p c w :
  connectedUsers st !! p = Some c → sockets st !! c = Some w → readyState w = OPEN →
  deliver st m p = [(c, m)].
Proof. intros Hc Hw Ho. unfold deliver. rewrite Hc. by apply (frames_open _ _ w). Qed.

Lemma Forall_deliver st m (l : list string) : Forall (λ d, d.2 = m) (l ≫= deliver st m).
Proof.
  apply Forall_forall. intros d (p & Hd & _)%list_elem_of_bind.
  destruct (deliver_cases st m p) as [E | (c & _ & E)]; rewrite E in Hd.
  - by apply elem_of_nil in Hd.
  - apply list_elem_of_singleton in Hd. by subst.
Qed.

(** Frames to the sockets of one identity come from resolving that identity. *)
Lemma count_to_user_deliver st m v (l : list string) :
  registry_wf st → NoDup l →
  count_to_user st v (l ≫= deliver st m) ≤ (if decide (v ∈ l) then 1 else 0).
Proof.
  intros Hwf. unfold count_to_user.
  induction l as [|p l IH]; intros Hnd; [simpl; lia|].
  apply NoDup_cons in Hnd as [Hp Hnd]. specialize (IH Hnd).
  cbn [mbind list_bind]. rewrite filter_app, length_app.
  match goal with
  | |- ?a + _ ≤ _ => assert (a ≤ (if decide (v = p) then 1 else 0)) as Hhd
  end.
  { destruct (deliver_cases st m p) as [E | (c & Hc & E)]; rewrite E.
    - simpl. case_decide; lia.
    - rewrite filter_cons, filter_nil. apply Hwf in Hc. simpl.
      rewrite Hc. repeat case_decide; simplify_eq; simpl; lia. }
  destruct (decide (v = p)) as [->|Hne].
  - rewrite decide_False in IH by done.
    rewrite decide_True by apply list_elem_of_here. lia.
  - destruct (decide (v ∈ l)).
    + rewrite decide_True by (by apply list_elem_of_further). lia.
    + case_decide; lia.
Qed.

(** C7: [broadcastToUserChats] for U writes only frames that carry the
    event, at most one of them to the sockets of any one identity, and none
    to a socket of U. *)
Theorem broadcastToUserChats_once uid m v st :
  registry_wf st →
  ∃ ds, broadcastToUserChats castObjectId uid m st = set_outbox (outbox st ++ ds) st
        ∧ Forall (λ d, d.2 = m) ds
        ∧ count_to_user st v ds ≤ 1
        ∧ count_to_user st uid ds = 0.
Proof.
  intros Hwf. exists (userRoomsFrames castObjectId st uid m).
  split_and!.
  - apply broadcastToUserChats_frames.
  - apply Forall_deliver.
  - pose proof (count_to_user_deliver st m v _ Hwf (userRoomsRecipients_NoDup st uid)) as H.
    unfold userRoomsFrames. case_decide; lia.
  - pose proof (count_to_user_deliver st m uid _ Hwf (userRoomsRecipients_NoDup st uid)) as H.
    rewrite decide_False in H by apply userRoomsRecipients_not_self.
    unfold userRoomsFrames. lia.
Qed.

(** Frames to one registered socket come from resolving its identity. *)
Lemma count_frames_deliver st t pl p c w (l : list string) :
  registry_wf st → NoDup l →
  connectedUsers st !! p = Some c → sockets st !! c = Some w → readyState w = OPEN →
  count_frames c t (l ≫= deliver st (mkMsg t pl)) = (if decide (p ∈ l) then 1 else 0).
Proof.
  intros Hwf Hnd Hc Hw Ho. unfold count_frames.
  induction l as [|q l IH]; [done|].
  apply NoDup_cons in Hnd as [Hq Hnd]. specialize (IH Hnd).
  cbn [mbind list_bind]. rewrite filter_app, length_app, IH.
  destruct (decide (p = q)) as [<-|Hne].
  - rewrite (deliver_open _ _ _ _ _ Hc Hw Ho).
    rewrite decide_False by done. rewrite decide_True by apply list_elem_of_here.
    rewrite filter_cons_True by done. done.
  - assert (filter (λ d : Delivery, d.1 = c ∧ type d.2 = t) (deliver st (mkMsg t pl) q) = [])
      as ->.
    { destruct (deliver_cases st (mkMsg t pl) q) as [E | (c' & Hc' & E)]; rewrite E; [done|].
      rewrite filter_cons_False; [done|]. simpl. intros [-> _].
      apply Hwf in Hc, Hc'. congruence. }
    simpl. destruct (decide (p ∈ l)).
    + by rewrite decide_True by (by apply list_elem_of_further).
    + rewrite decide_False; [done|]. by intros [?|?]%elem_of_cons.
Qed.

(** ** A message sent to one's own room *)


Lemma Chat_findOne_member s chatId u chat :
  castObjectId chatId = true → castObjectId u = true →
  chats s !! chatId = Some chat → u ∈ Chat.participants chat →
  Chat_findOne castObjectId s chatId (Some u) = Ok (Some chat).
Proof.
  intros Hc Hu Hs Hm. unfold Chat_findOne. rewrite Hc, Hu, Hs. simpl.
  by rewrite bool_decide_eq_true_2.
Qed.


Lemma count_frames_app c t (l1 l2 : list Delivery) :
  count_frames c t (l1 ++ l2) = count_frames c t l1 + count_frames c t l2.
Proof. unfold count_frames. by rewrite filter_app, length_app. Qed.




(** ** A message read again *)

(** C6: a [message_read] by a user U who is already in the [readBy] list
    of the message stores nothing: the whole state but the outbox is as it
    was, so the message is the stored one and its list keeps its entry for
    U.  The fanout is still written: every frame of it is the
    [message_read] envelope with the message, the room of the payload and
    U's identity and name, nobody is left out, and every stored participant
    of that room with an open registered socket, U included, gets exactly
    one such frame. *)
Theorem handleMessageRead_again ws messageId chatId m st :
  castObjectId messageId = true →
  messages (db st) !! messageId = Some m →
  alreadyRead (ws_userId st ws) m = true →
  let st' := handleMessageRead castObjectId ws messageId chatId st in
  let event :=
    mkMsg "message_read"
      (P_message_read messageId chatId (ws_userId st ws) (ws_username st ws) (now st)) in
  ∃ ds,
    st' = set_outbox (outbox st ++ ds) st
    ∧ messages (db st') !! messageId = Some m
    ∧ ds = roomFrames castObjectId st chatId event None
    ∧ Forall (λ d, d.2 = event) ds
    ∧ ∀ chat p c wp,
        registry_wf st → castObjectId chatId = true →
        chats (db st) !! chatId = Some chat → NoDup (Chat.participants chat) →
        p ∈ Chat.participants chat → is_Some (users (db st) !! p) →
        connectedUsers st !! p = Some c → sockets st !! c = Some wp → readyState wp = OPEN →
        (c, event) ∈ ds ∧ count_frames c "message_read" ds = 1.
Proof.
  intros Hid Hm Hr st' event.
  assert (st' = set_outbox (outbox st ++ roomFrames castObjectId st chatId event None) st)
    as Hst.
  { unfold st', handleMessageRead, Message_findById.
    by rewrite Hid, Hm, Hr, broadcastToChat_frames. }
  exists (roomFrames castObjectId st chatId event None). split_and!.
  - done.
  - by rewrite Hst.
  - done.
  - apply Forall_deliver.
  - intros chat p c wp Hwf Hcc Hchat Hnd Hp Hs Hc Hwp Ho.
    unfold roomFrames, roomRecipients, Chat_findById_populated. rewrite Hcc, Hchat. simpl.
    rewrite (filter_all (λ p, Some p ≠ None)) by done.
    assert (p ∈ populate_participants (db st) (Chat.participants chat)) as Hin
      by by apply list_elem_of_filter.
    split.
    + apply list_elem_of_bind. exists p. split; [|done].
      rewrite (deliver_open _ _ _ _ _ Hc Hwp Ho). apply list_elem_of_here.
    + unfold event.
      rewrite (count_frames_deliver st _ _ p c wp); [|done|by apply NoDup_filter|done..].
      by rewrite decide_True.
Qed.

(** ** Typing claims and their timers *)

Lemma handleTypingStart_eq ws chatId st :
  handleTypingStart castObjectId ws chatId st
  = set_timers
      (timers st ++ [mkTimer (now st + 3000) (typingKey st ws chatId) chatId ws])
      (set_outbox
         (outbox st ++ roomFrames castObjectId st chatId
                         (typing_event "typing_start" st ws chatId) (ws_userId st ws))
         (set_typingUsers
            (<[typingKey st ws chatId :=
                 mkTyping (ws_userId st ws) (ws_username st ws) chatId (now st)]>
               (typingUsers st)) st)).
Proof. unfold handleTypingStart. by rewrite broadcastToChat_frames. Qed.

Lemma typingTimeout_claimed t st :
  is_Some (typingUsers st !! tm_key t) →
  typingTimeout castObjectId t st
  = set_outbox
      (outbox st ++ roomFrames castObjectId st (tm_chatId t)
                      (typing_event "typing_stop" st (tm_ws t) (tm_chatId t))
                      (ws_userId st (tm_ws t)))
      (set_typingUsers (delete (tm_key t) (typingUsers st)) st).
Proof.
  intros H. unfold typingTimeout. rewrite bool_decide_eq_true_2 by done.
  by rewrite broadcastToChat_frames.
Qed.

Lemma typingTimeout_unclaimed t st :
  typingUsers st !! tm_key t = None → typingTimeout castObjectId t st = st.
Proof.
  intros H. unfold typingTimeout. rewrite bool_decide_eq_false_2; [done|].
  rewrite H. by intros [? ?].
Qed.

(** C2 (as the code has it): every [typing_start] arms a timer of its own,
    3000 ms out, and none is ever cancelled.  When U starts typing in R and
    starts again [d] ms later, with [0 < d < 3000], the first timer fires
    3000 ms after the first start: it finds the refreshed claim, deletes it
    and writes the [typing_stop] fanout, [3000 - d] ms after the second
    start; the timer of the second start is still pending then, and when
    it fires, [d] ms later, it finds no claim and does nothing. *)
Theorem typing_restart_keeps_first_expiry ws chatId d st :
  timers st = [] → (0 < d < 3000)%Z →
  let key := typingKey st ws chatId in
  let s1 := handleTypingStart castObjectId ws chatId st in
  let s2 := handleTypingStart castObjectId ws chatId (elapse castObjectId d s1) in
  let s3 := elapse castObjectId (3000 - d) s2 in
  let s4 := elapse castObjectId d s3 in
  now s2 = (now st + d)%Z
  ∧ is_Some (typingUsers s2 !! key)
  ∧ now s3 = (now st + 3000)%Z
  ∧ typingUsers s3 = delete key (typingUsers st)
  ∧ outbox s3
    = outbox s2
      ++ roomFrames castObjectId st chatId
           (mkMsg "typing_stop"
                  (P_typing (ws_userId st ws) (ws_username st ws) chatId (now st + 3000)))
           (ws_userId st ws)
  ∧ timers s3 = [mkTimer (now st + d + 3000) key chatId ws]
  ∧ now s4 = (now st + d + 3000)%Z
  ∧ timers s4 = []
  ∧ typingUsers s4 = typingUsers s3
  ∧ outbox s4 = outbox s3.
Proof.
  intros Ht Hd key s1 s2 s3 s4.
  set (t1 := mkTimer (now st + 3000) key chatId ws).
  set (t2 := mkTimer (now st + d + 3000) key chatId ws).
  set (c1 := mkTyping (ws_userId st ws) (ws_username st ws) chatId (now st)).
  set (c2 := mkTyping (ws_userId st ws) (ws_username st ws) chatId (now st + d)).
  assert (elapse castObjectId d s1 = set_now (now st + d) s1) as E1.
  { unfold elapse, s1. rewrite handleTypingStart_eq. cbn [timers set_timers now set_outbox
      set_typingUsers]. rewrite Ht. cbn [app].
    rewrite !filter_cons, !filter_nil. cbn [fireAt].
    repeat case_decide; try lia. done. }
  assert (∃ o2, s2 = set_timers [t1; t2]
                       (set_outbox o2
                          (set_typingUsers (<[key := c2]> (<[key := c1]> (typingUsers st)))
                             (set_now (now st + d) st)))) as [o2 E2].
  { eexists. unfold s2. rewrite E1, handleTypingStart_eq. unfold s1.
    rewrite handleTypingStart_eq. unfold set_timers, set_outbox, set_typingUsers, set_now.
    cbn. rewrite Ht. reflexivity. }
  clearbody s2. subst s2.
  assert (s3 = set_now (now st + d + (3000 - d))
                 (set_outbox
                    (o2 ++ roomFrames castObjectId st chatId
                             (mkMsg "typing_stop"
                                (P_typing (ws_userId st ws) (ws_username st ws) chatId
                                          (now st + 3000)))
                             (ws_userId st ws))
                    (set_typingUsers (delete key (<[key := c2]> (<[key := c1]> (typingUsers st))))
                       (set_timers [t2] (set_now (now st + 3000) st))))) as E3.
  { unfold s3, elapse.
    cbn [timers set_timers now set_outbox set_typingUsers set_now].
    rewrite !filter_cons, !filter_nil. cbn [fireAt t1 t2].
    repeat case_decide; try lia.
    cbn [foldl]. rewrite typingTimeout_claimed by (cbn; rewrite lookup_insert_eq; eauto).
    reflexivity. }
  assert (s4 = set_now (now st + d + (3000 - d) + d)
                 (set_timers [] (set_now (now st + d + 3000) s3))) as E4.
  { unfold s4, elapse. rewrite E3.
    cbn [timers set_timers now set_outbox set_typingUsers set_now].
    rewrite !filter_cons, !filter_nil. cbn [fireAt t2].
    repeat case_decide; try lia.
    cbn [foldl]. rewrite typingTimeout_unclaimed by (cbn; apply lookup_delete_eq).
    reflexivity. }
  clearbody s4. subst s4. clearbody s3. subst s3. cbn.
  split_and!.
  - done.
  - rewrite lookup_insert_eq. eauto.
  - lia.
  - by rewrite !delete_insert_eq.
  - done.
  - done.
  - lia.
  - done.
  - done.
  - done.
Qed.

(** ** The heartbeat *)

Lemma set_sockets_id st : set_sockets (sockets st) st = st.
Proof. by destruct st. Qed.

Lemma heartbeat_each_beat st c :
  heartbeat_each st c = set_sockets (alter beat c (sockets st)) st.
Proof.
  unfold heartbeat_each, ws_terminate.
  destruct (sockets st !! c) as [w|] eqn:Hw.
  - case_bool_decide as Ha; f_equal; apply map_eq; intros k; rewrite lookup_alter.
    + rewrite lookup_alter. case_decide; [|done]. subst k.
      rewrite Hw. simpl. unfold beat. by rewrite bool_decide_eq_true_2.
    + rewrite lookup_insert. case_decide; [|done]. subst k.
      rewrite Hw. simpl. unfold beat. by rewrite bool_decide_eq_false_2.
  - rewrite <- (set_sockets_id st) at 1. f_equal. apply map_eq. intros k.
    rewrite lookup_alter. case_decide; [|done]. subst k. by rewrite Hw.
Qed.

Lemma heartbeat_beat st :
  heartbeat st = set_sockets (foldl (λ m c, alter beat c m) (sockets st) (clients st)) st.
Proof.
  unfold heartbeat. generalize (clients st) as l. intros l.
  assert (∀ m, foldl heartbeat_each (set_sockets m st) l
               = set_sockets (foldl (λ m c, alter beat c m) m l) st) as H.
  { induction l as [|c l IH]; intros m; [done|].
    cbn [foldl]. rewrite heartbeat_each_beat. apply IH. }
  rewrite <- (set_sockets_id st) at 1. apply H.
Qed.

Lemma lookup_beats (m : gmap ConnId ExtendedWebSocket) (l : list ConnId) c :
  NoDup l →
  foldl (λ m c, alter beat c m) m l !! c = if decide (c ∈ l) then beat <$> m !! c else m !! c.
Proof.
  revert m. induction l as [|x l IH]; intros m Hnd; [done|].
  apply NoDup_cons in Hnd as [Hx Hnd]. cbn [foldl]. rewrite IH by done.
  rewrite lookup_alter.
  destruct (decide (x = c)) as [->|Hne].
  - rewrite decide_False by done. by rewrite decide_True by apply list_elem_of_here.
  - destruct (decide (c ∈ l)).
    + by rewrite decide_True by (by apply list_elem_of_further).
    + rewrite decide_False; [done|]. intros [?|?]%elem_of_cons; by simplify_eq.
Qed.

Lemma heartbeat_socket st c :
  NoDup (clients st) →
  sockets (heartbeat st) !! c
  = if decide (c ∈ clients st) then beat <$> sockets st !! c else sockets st !! c.
Proof. intros Hnd. rewrite heartbeat_beat. simpl. by apply lookup_beats. Qed.

(** ** The ['close'] event *)

Lemma ws_userId_insert st c w w' c' :
  sockets st !! c = Some w → userId w' = userId w →
  ws_userId (set_sockets (<[c := w']> (sockets st)) st) c' = ws_userId st c'.
Proof.
  intros Hw Hu. unfold ws_userId. simpl. rewrite lookup_insert.
  case_decide; [|done]. subst c'. rewrite Hw. simpl. done.
Qed.

(** The state after [emitClose] of an existing socket, by cases on what the
    ['close'] listener does. *)
Lemma emitClose_cases st c w :
  sockets st !! c = Some w →
  let st1 := set_clients (filter (λ x, x ≠ c) (clients st))
               (set_sockets (<[c := set_readyState CLOSED w]> (sockets st)) st) in
  emitClose castObjectId st c = st1
  ∨ ∃ u, listening w = true ∧ userId w = Some u ∧ u ≠ ""
         ∧ emitClose castObjectId st c = handleDisconnection castObjectId c st1
         ∧ ws_userId st1 c = Some u.
Proof.
  intros Hw st1. unfold emitClose. rewrite Hw. fold st1.
  destruct (listening w) eqn:Hl; [|by left].
  assert (ws_userId st1 c = userId w) as Hu.
  { unfold ws_userId, st1. simpl. by rewrite lookup_insert_eq. }
  destruct (userId w) as [u|] eqn:Hu'.
  - destruct (decide (u = "")) as [->|Hne].
    + left. unfold handleDisconnection. rewrite Hu. done.
    + right. exists u. by split_and!.
  - left. unfold handleDisconnection. by rewrite Hu.
Qed.

(** What [emitClose] leaves alone, and what it may change. *)
Lemma emitClose_frame st c :
  now (emitClose castObjectId st c) = now st
  ∧ chats (db (emitClose castObjectId st c)) = chats (db st)
  ∧ (∀ x, is_Some (users (db (emitClose castObjectId st c)) !! x)
          ↔ is_Some (users (db st) !! x))
  ∧ (∀ c', ws_userId (emitClose castObjectId st c) c' = ws_userId st c')
  ∧ (∀ c', c' ≠ c → sockets (emitClose castObjectId st c) !! c' = sockets st !! c')
  ∧ (∀ w, sockets st !! c = Some w →
          sockets (emitClose castObjectId st c) !! c = Some (set_readyState CLOSED w)
          ∧ clients (emitClose castObjectId st c) = filter (λ x, x ≠ c) (clients st))
  ∧ (∀ v, ws_userId st c ≠ Some v →
          connectedUsers (emitClose castObjectId st c) !! v = connectedUsers st !! v)
  ∧ (∃ ds, outbox (emitClose castObjectId st c) = outbox st ++ ds).
Proof.
  destruct (sockets st !! c) as [w|] eqn:Hw; cycle 1.
  { unfold emitClose. rewrite Hw. split_and!; try done.
    exists []. by rewrite app_nil_r. }
  assert (∀ c', ws_userId st c' =
                ws_userId (set_clients (filter (λ x, x ≠ c) (clients st))
                   (set_sockets (<[c := set_readyState CLOSED w]> (sockets st)) st)) c') as Hid.
  { intros c'. symmetry. by apply (ws_userId_insert st c w). }
  destruct (emitClose_cases st c w Hw) as [-> | (u & Hl & Hu & Hne & -> & Hu1)].
  - simpl. split_and!; try done.
    + intros c' Hc'. by rewrite lookup_insert_ne.
    + intros w' ?; simplify_eq. by rewrite lookup_insert_eq.
    + exists []. by rewrite app_nil_r.
  - rewrite (handleDisconnection_some _ _ _ Hu1 Hne). cbn zeta.
    assert (ws_userId st c = Some u) as Hu0 by by rewrite Hid.
    destruct (castObjectId u); simpl; split_and!; try done.
    + intros x. unfold User_setPresence. simpl. rewrite lookup_alter.
      case_decide; [|done]. subst x. by rewrite <- !not_eq_None_Some, fmap_None.
    + intros c' Hc'. by rewrite lookup_insert_ne.
    + intros w' ?; simplify_eq. by rewrite lookup_insert_eq.
    + intros v Hv. rewrite lookup_delete_ne; [done|]. congruence.
    + eauto.
    + intros c' Hc'. by rewrite lookup_insert_ne.
    + intros w' ?; simplify_eq. by rewrite lookup_insert_eq.
    + intros v Hv. rewrite lookup_delete_ne; [done|]. congruence.
    + exists []. by rewrite app_nil_r.
Qed.

Lemma emitClose_clients st c :
  clients (emitClose castObjectId st c) = clients st
  ∨ clients (emitClose castObjectId st c) = filter (λ x, x ≠ c) (clients st).
Proof.
  destruct (sockets st !! c) as [w|] eqn:Hw.
  - right. destruct (emitClose_frame st c) as (_ & _ & _ & _ & _ & H & _).
    by apply (H w).
  - left. unfold emitClose. by rewrite Hw.
Qed.

Lemma emitClose_registry_None st c v :
  connectedUsers st !! v = None → connectedUsers (emitClose castObjectId st c) !! v = None.
Proof.
  intros Hv. destruct (sockets st !! c) as [w|] eqn:Hw; [|unfold emitClose; by rewrite Hw].
  destruct (emitClose_cases st c w Hw) as [-> | (u & Hl & Hu & Hne & -> & Hu1)]; [done|].
  rewrite (handleDisconnection_some _ _ _ Hu1 Hne). cbn zeta.
  destruct (castObjectId u); simpl; rewrite lookup_delete; by case_decide.
Qed.

(** The ['close'] event of a socket that the listeners are attached to and
    that is bound to [u] runs the disconnect path. *)
Lemma emitClose_disconnects st c w u :
  sockets st !! c = Some w → listening w = true → userId w = Some u →
  let st1 := set_clients (filter (λ x, x ≠ c) (clients st))
               (set_sockets (<[c := set_readyState CLOSED w]> (sockets st)) st) in
  emitClose castObjectId st c = handleDisconnection castObjectId c st1
  ∧ ws_userId st1 c = Some u ∧ ws_username st1 c = username w.
Proof.
  intros Hw Hl Hu st1. unfold emitClose. rewrite Hw, Hl. fold st1.
  unfold ws_userId, ws_username, st1. simpl. by rewrite lookup_insert_eq.
Qed.

Lemma emitClose_unregisters st c w u :
  sockets st !! c = Some w → listening w = true → userId w = Some u → u ≠ "" →
  connectedUsers (emitClose castObjectId st c) !! u = None.
Proof.
  intros Hw Hl Hu Hne.
  destruct (emitClose_disconnects st c w u Hw Hl Hu) as (-> & Hu1 & _).
  rewrite (handleDisconnection_some _ _ _ Hu1 Hne). cbn zeta.
  destruct (castObjectId u); simpl; apply lookup_delete_eq.
Qed.

Lemma userRoomsRecipients_member st u v k chat :
  castObjectId u = true → chats (db st) !! k = Some chat →
  u ∈ Chat.participants chat → v ∈ Chat.participants chat →
  is_Some (users (db st) !! v) → v ≠ u →
  v ∈ userRoomsRecipients castObjectId st u.
Proof.
  intros Hc Hk Hu Hv Hs Hne. unfold userRoomsRecipients, Chat_find_populated. rewrite Hc.
  apply notify_elem. right. split; [done|].
  apply list_elem_of_In, in_concat.
  exists (populate_participants (db st) (Chat.participants chat)). split.
  - apply in_map_iff. exists (k, chat). split; [done|].
    apply list_elem_of_In, list_elem_of_filter. split; [done|].
    by apply elem_of_map_to_list.
  - by apply list_elem_of_In, list_elem_of_filter.
Qed.

(** The disconnect path of a socket of [u] writes the [user_offline] frame
    to the open registered socket of everyone who shares a chat with [u]. *)
Lemma handleDisconnection_notifies st ws u v cv wv k chat :
  ws_userId st ws = Some u → u ≠ "" → castObjectId u = true →
  v ≠ u → connectedUsers st !! v = Some cv → sockets st !! cv = Some wv →
  readyState wv = OPEN →
  chats (db st) !! k = Some chat → u ∈ Chat.participants chat → v ∈ Chat.participants chat →
  is_Some (users (db st) !! v) →
  (cv, presence_event "user_offline" u (ws_username st ws) (now st))
  ∈ outbox (handleDisconnection castObjectId ws st).
Proof.
  intros Hu Hne Hc Hvu Hv Hwv Ho Hk Hmu Hmv Hs.
  rewrite (handleDisconnection_some _ _ _ Hu Hne). cbn zeta. rewrite Hc. simpl.
  apply elem_of_app. right. unfold userRoomsFrames.
  apply list_elem_of_bind. exists v. split.
  - rewrite (deliver_open _ _ _ cv wv); [apply list_elem_of_here| |done..].
    simpl. by rewrite lookup_delete_ne.
  - apply (userRoomsRecipients_member _ _ _ k chat); try done.
    simpl. unfold User_setPresence. simpl. rewrite lookup_alter.
    case_decide; [|done]. subst. by apply fmap_is_Some.
Qed.

(** ** Folds over the sockets that close *)

Lemma foldl_preserves {A B} (I : A → Prop) (R : B → Prop) (f : A → B → A) l a :
  Forall R l → I a → (∀ a b, I a → R b → I (f a b)) → I (foldl f a l).
Proof.
  intros HR Ha Hstep. revert a Ha.
  induction HR as [|b l Hb HR IH]; intros a Ha; [done|].
  cbn [foldl]. apply IH. by apply Hstep.
Qed.

Lemma foldl_reaches {A B} `{!EqDecision B} (Pre Post : A → Prop) (R : B → Prop)
    (f : A → B → A) x l a :
  x ∈ l → Forall R l → Pre a →
  (∀ a b, Pre a → R b → b ≠ x → Pre (f a b)) →
  (∀ a, Pre a → Post (f a x)) →
  (∀ a b, Post a → Post (f a b)) →
  Post (foldl f a l).
Proof.
  intros Hx HR Ha Hpre Hx' Hpost. revert a Ha Hx.
  induction HR as [|b l Hb HR IH]; intros a Ha Hx; [by apply elem_of_nil in Hx|].
  cbn [foldl]. destruct (decide (b = x)) as [->|Hne].
  - apply (foldl_preserves Post (λ _, True)); [by apply Forall_true | by apply Hx' | eauto].
  - apply IH; [by apply Hpre|]. apply elem_of_cons in Hx as [?|?]; [congruence|done].
Qed.

Lemma terminated_elem st c :
  c ∈ terminated st ↔ c ∈ clients st ∧ sockets st !! c ≫= isAlive = Some false.
Proof. unfold terminated. rewrite list_elem_of_filter. naive_solver. Qed.

Lemma beat_fields w :
  userId (beat w) = userId w ∧ username (beat w) = username w
  ∧ listening (beat w) = listening w.
Proof. unfold beat, closing. repeat case_bool_decide; done. Qed.

Lemma heartbeat_frame st :
  clients (heartbeat st) = clients st ∧ connectedUsers (heartbeat st) = connectedUsers st
  ∧ db (heartbeat st) = db st ∧ now (heartbeat st) = now st
  ∧ outbox (heartbeat st) = outbox st.
Proof. by rewrite heartbeat_beat. Qed.

Lemma heartbeat_userId st c :
  NoDup (clients st) → ws_userId (heartbeat st) c = ws_userId st c.
Proof.
  intros Hnd. unfold ws_userId. rewrite heartbeat_socket by done.
  case_decide; [|done]. destruct (sockets st !! c) as [w|]; [|done].
  simpl. apply beat_fields.
Qed.

Lemma tick_clients_NoDup st : NoDup (clients st) → NoDup (clients (tick castObjectId st)).
Proof.
  intros Hnd. unfold tick.
  apply (foldl_preserves (λ s, NoDup (clients s)) (λ _, True)); [by apply Forall_true| |].
  - by rewrite (proj1 (heartbeat_frame st)).
  - intros s c Hs _. destruct (emitClose_clients s c) as [-> | ->]; [done|].
    by apply NoDup_filter.
Qed.

(** A socket whose flag is not [false] comes out of a heartbeat open, in
    [wss.clients], with the flag reset. *)
Lemma tick_survives st ws w :
  NoDup (clients st) → ws ∈ clients st → sockets st !! ws = Some w →
  isAlive w ≠ Some false →
  sockets (tick castObjectId st) !! ws = Some (set_isAlive false w) ∧ ws ∈ clients (tick castObjectId st).
Proof.
  intros Hnd Hin Hw Ha. unfold tick.
  apply (foldl_preserves
           (λ s, sockets s !! ws = Some (set_isAlive false w) ∧ ws ∈ clients s)
           (λ c, c ≠ ws)).
  - apply Forall_forall. intros c [_ Hc]%terminated_elem ->.
    rewrite Hw in Hc. simpl in Hc. done.
  - rewrite heartbeat_socket, decide_True, Hw, (proj1 (heartbeat_frame st)) by done.
    split; [|done]. simpl. unfold beat. by rewrite bool_decide_eq_false_2.
  - intros s c [Hs Hc] Hne.
    destruct (emitClose_frame s c) as (_ & _ & _ & _ & Hother & _).
    rewrite Hother by done. split; [done|].
    destruct (emitClose_clients s c) as [-> | ->]; [done|].
    by apply list_elem_of_filter.
Qed.

(** A socket whose flag is still [false] is closed by the heartbeat, leaves
    [wss.clients], and its disconnect path takes its user out of the
    registry. *)
Lemma tick_terminates st ws w u :
  NoDup (clients st) → ws ∈ clients st → sockets st !! ws = Some w →
  isAlive w = Some false → listening w = true → userId w = Some u → u ≠ "" →
  (∃ w', sockets (tick castObjectId st) !! ws = Some w' ∧ readyState w' = CLOSED)
  ∧ (ws ∉ clients (tick castObjectId st))
  ∧ connectedUsers (tick castObjectId st) !! u = None.
Proof.
  intros Hnd Hin Hw Ha Hl Hu Hne. unfold tick.
  apply (foldl_reaches
           (λ s, ∃ w1, sockets s !! ws = Some w1 ∧ listening w1 = true ∧ userId w1 = Some u)
           (λ s, (∃ w', sockets s !! ws = Some w' ∧ readyState w' = CLOSED)
                 ∧ (ws ∉ clients s) ∧ connectedUsers s !! u = None)
           (λ _, True) _ ws).
  - apply terminated_elem. rewrite Hw. done.
  - by apply Forall_true.
  - exists (beat w). rewrite heartbeat_socket, decide_True, Hw by done.
    destruct (beat_fields w) as (-> & _ & ->). done.
  - intros s c (w1 & Hw1 & Hl1 & Hu1) _ Hc.
    destruct (emitClose_frame s c) as (_ & _ & _ & _ & Hother & _).
    exists w1. by rewrite Hother.
  - intros s (w1 & Hw1 & Hl1 & Hu1).
    destruct (emitClose_frame s ws) as (_ & _ & _ & _ & _ & Hself & _).
    destruct (Hself w1 Hw1) as [Hs Hc]. split_and!.
    + eauto.
    + rewrite Hc. intros [? _]%list_elem_of_filter. done.
    + by apply (emitClose_unregisters s ws w1).
  - intros s c ((w' & Hw' & Hr) & Hc & Hreg).
    destruct (emitClose_frame s c) as (_ & _ & _ & _ & Hother & Hself & _). split_and!.
    + destruct (decide (c = ws)) as [->|Hcw].
      * destruct (Hself w' Hw') as [-> _]. eauto.
      * rewrite Hother by done. eauto.
    + destruct (emitClose_clients s c) as [-> | ->]; [done|].
      intros [_ ?]%list_elem_of_filter. done.
    + by apply emitClose_registry_None.
Qed.

(** In that heartbeat, the [user_offline] frame of the socket's user reaches
    the open, answering socket of a user [v] who shares a chat with it,
    provided no socket of [v] itself is closed by the same heartbeat. *)
Lemma tick_notifies st ws w u v cv wv k chat :
  NoDup (clients st) → ws ∈ clients st → sockets st !! ws = Some w →
  isAlive w = Some false → listening w = true → userId w = Some u → u ≠ "" →
  castObjectId u = true → v ≠ u →
  connectedUsers st !! v = Some cv → sockets st !! cv = Some wv →
  readyState wv = OPEN → isAlive wv ≠ Some false →
  (∀ c, c ∈ terminated st → ws_userId st c ≠ Some v) →
  chats (db st) !! k = Some chat → u ∈ Chat.participants chat → v ∈ Chat.participants chat →
  is_Some (users (db st) !! v) →
  (cv, presence_event "user_offline" u (username w) (now st)) ∈ outbox (tick castObjectId st).
Proof.
  intros Hnd Hin Hw Ha Hl Hu Hne Hcast Hvu Hv Hwv Ho Hav Hterm Hk Hmu Hmv Hs.
  assert (cv ≠ ws) as Hcv by (intros ->; congruence).
  destruct (heartbeat_frame st) as (Hhc & Hhr & Hhd & Hhn & Hho).
  unfold tick.
  apply (foldl_reaches
           (λ s, (∃ w1, sockets s !! ws = Some w1 ∧ listening w1 = true
                        ∧ userId w1 = Some u ∧ username w1 = username w)
                 ∧ connectedUsers s !! v = Some cv
                 ∧ (∃ wv', sockets s !! cv = Some wv' ∧ readyState wv' = OPEN)
                 ∧ chats (db s) = chats (db st)
                 ∧ is_Some (users (db s) !! v)
                 ∧ now s = now st
                 ∧ ∀ c, ws_userId s c = ws_userId st c)
           (λ s, (cv, presence_event "user_offline" u (username w) (now st)) ∈ outbox s)
           (λ c, c ≠ cv ∧ ws_userId st c ≠ Some v) _ ws).
  - apply terminated_elem. rewrite Hw. done.
  - apply Forall_forall. intros c Hc. split; [|by apply Hterm].
    intros ->. apply terminated_elem in Hc as [_ Hc]. rewrite Hwv in Hc. done.
  - split_and!.
    + exists (beat w). rewrite heartbeat_socket, decide_True, Hw by done.
      destruct (beat_fields w) as (-> & -> & ->). done.
    + by rewrite Hhr.
    + rewrite heartbeat_socket by done. rewrite Hwv. case_decide; [|eauto].
      eexists. split; [done|]. unfold beat. by rewrite bool_decide_eq_false_2.
    + by rewrite Hhd.
    + by rewrite Hhd.
    + done.
    + intros c. by apply heartbeat_userId.
  - intros s c ((w1 & Hw1 & Hl1 & Hu1 & Hn1) & Hreg & (wv' & Hwv' & Ho') & Hch & Hus & Hnow
                & Hid) [Hccv Hcu] Hc.
    destruct (emitClose_frame s c) as (En & Ech & Eus & Eid & Eother & _ & Ereg & _).
    split_and!.
    + exists w1. by rewrite Eother.
    + rewrite Ereg; [done|]. by rewrite Hid.
    + exists wv'. by rewrite Eother.
    + by rewrite Ech.
    + by apply Eus.
    + by rewrite En.
    + intros c'. by rewrite Eid.
  - intros s ((w1 & Hw1 & Hl1 & Hu1 & Hn1) & Hreg & (wv' & Hwv' & Ho') & Hch & Hus & Hnow
              & Hid).
    destruct (emitClose_disconnects s ws w1 u Hw1 Hl1 Hu1) as (-> & Hu2 & Hn2).
    rewrite <- Hn1, <- Hn2, <- Hnow.
    set (s1 := set_clients _ _) in *. change (now s) with (now s1).
    apply (handleDisconnection_notifies s1 ws u v cv wv' k chat); try done.
    + unfold s1. simpl. by rewrite lookup_insert_ne.
    + unfold s1. simpl. by rewrite Hch.
  - intros s c Hin'. destruct (emitClose_frame s c) as (_ & _ & _ & _ & _ & _ & _ & ds & ->).
    apply elem_of_app. by left.
Qed.

(** C8: a socket whose flag was set at connect time and that never answers
    is still open and in [wss.clients] after the first heartbeat, with the
    flag reset; the next heartbeat that finds the flag still reset closes
    it, and the ['close'] event runs the disconnect path: the socket leaves
    [wss.clients], its user leaves the registry, and the [user_offline]
    frame is written to the open socket of every user who shares a chat
    with it and loses no socket of its own in that heartbeat. *)
Theorem heartbeat_two_ticks ws w u st :
  NoDup (clients st) → ws ∈ clients st → sockets st !! ws = Some w →
  isAlive w = Some true → readyState w = OPEN → listening w = true →
  userId w = Some u → u ≠ "" →
  (sockets (tick castObjectId st) !! ws = Some (set_isAlive false w)
   ∧ readyState (set_isAlive false w) = OPEN
   ∧ ws ∈ clients (tick castObjectId st)
   ∧ NoDup (clients (tick castObjectId st)))
  ∧ ∀ st2,
      NoDup (clients st2) → ws ∈ clients st2 →
      sockets st2 !! ws = Some (set_isAlive false w) →
      (∃ w', sockets (tick castObjectId st2) !! ws = Some w' ∧ readyState w' = CLOSED)
      ∧ (ws ∉ clients (tick castObjectId st2))
      ∧ connectedUsers (tick castObjectId st2) !! u = None
      ∧ ∀ v cv wv k chat,
          castObjectId u = true → v ≠ u →
          connectedUsers st2 !! v = Some cv → sockets st2 !! cv = Some wv →
          readyState wv = OPEN → isAlive wv ≠ Some false →
          (∀ c, c ∈ terminated st2 → ws_userId st2 c ≠ Some v) →
          chats (db st2) !! k = Some chat →
          u ∈ Chat.participants chat → v ∈ Chat.participants chat →
          is_Some (users (db st2) !! v) →
          (cv, presence_event "user_offline" u (username w) (now st2))
          ∈ outbox (tick castObjectId st2).
Proof.
  intros Hnd Hin Hw Ha Ho Hl Hu Hne. split.
  - destruct (tick_survives st ws w) as [H1 H2]; [done..|by rewrite Ha|].
    split_and!; [done..|]. by apply tick_clients_NoDup.
  - intros st2 Hnd2 Hin2 Hw2.
    destruct (tick_terminates st2 ws (set_isAlive false w) u) as (H1 & H2 & H3); [done..|].
    split_and!; [done..|].
    intros v cv wv k chat Hcast Hvu Hv Hwv Hov Hav Hterm Hk Hmu Hmv Hs.
    by apply (tick_notifies st2 ws (set_isAlive false w) u v cv wv k chat).
Qed.

(** ** The registry and [wss.clients] in every reachable state *)

Lemma handleMessage_same_conns ws data st :
  same_conns st (handleMessage castObjectId ws data st).
Proof.
  unfold same_conns.
  destruct data as [[]|]; simpl;
    unfold handleJoinRoom, handleLeaveRoom, handleSendMessage, handleTypingStart,
      handleTypingStop, handleMessageRead;
    repeat case_match; simplify_eq;
    rewrite ?sendToClient_frames, ?broadcastToChat_frames; done.
Qed.

Lemma typingTimeout_same_conns t st : same_conns st (typingTimeout castObjectId t st).
Proof.
  unfold same_conns, typingTimeout. case_bool_decide; [|done].
  by rewrite broadcastToChat_frames.
Qed.

Lemma elapse_same_conns ms st : same_conns st (elapse castObjectId ms st).
Proof.
  unfold elapse. generalize (filter (λ t, (fireAt t ≤ now st + ms)%Z) (timers st)) as due.
  generalize (filter (λ t, ¬ (fireAt t ≤ now st + ms)%Z) (timers st)) as later.
  intros later due.
  assert (∀ s, same_conns st s →
               same_conns st (foldl (λ s t, typingTimeout castObjectId t (set_now (fireAt t) s))
                                    s due)) as H.
  { induction due as [|t due IH]; intros s Hs; [done|]. cbn [foldl]. apply IH.
    destruct (typingTimeout_same_conns t (set_now (fireAt t) s)) as (E1 & E2 & E3).
    unfold same_conns. rewrite E1, E2, E3. exact Hs. }
  destruct (H (set_timers later st)) as (E1 & E2 & E3); [done|].
  unfold same_conns. simpl. done.
Qed.

Lemma registry_wf_same_conns st st' : same_conns st st' → registry_wf st → registry_wf st'.
Proof.
  intros (Hs & Hr & _) Hwf uid ws. unfold ws_userId. rewrite Hs, Hr. apply Hwf.
Qed.

Lemma clients_wf_same_conns st st' : same_conns st st' → clients_wf st → clients_wf st'.
Proof. intros (Hs & _ & Hc) Hwf. unfold clients_wf. by rewrite Hs, Hc. Qed.

Lemma emitClose_registry_Some st c v x :
  connectedUsers (emitClose castObjectId st c) !! v = Some x → connectedUsers st !! v = Some x.
Proof.
  destruct (sockets st !! c) as [w|] eqn:Hw; [|unfold emitClose; by rewrite Hw].
  destruct (emitClose_cases st c w Hw) as [-> | (u & Hl & Hu & Hne & -> & Hu1)]; [done|].
  rewrite (handleDisconnection_some _ _ _ Hu1 Hne). cbn zeta.
  destruct (castObjectId u); simpl; rewrite lookup_delete; by case_decide.
Qed.

Lemma emitClose_wf st c :
  registry_wf st ∧ clients_wf st →
  registry_wf (emitClose castObjectId st c) ∧ clients_wf (emitClose castObjectId st c).
Proof.
  intros [Hr [Hnd Hc]].
  destruct (emitClose_frame st c) as (_ & _ & _ & Hid & Hother & Hself & _).
  split; [|split].
  - intros v x Hv%emitClose_registry_Some. rewrite Hid. by apply Hr.
  - destruct (emitClose_clients st c) as [-> | ->]; [done | by apply NoDup_filter].
  - intros c' Hc'.
    assert (c' ∈ clients st) as Hin.
    { destruct (emitClose_clients st c) as [E | E]; rewrite E in Hc'; [done|].
      by apply list_elem_of_filter in Hc' as [_ ?]. }
    destruct (decide (c' = c)) as [->|Hne].
    + destruct (Hc c Hin) as [w Hw]. destruct (Hself w Hw) as [-> _]. eauto.
    + rewrite Hother by done. by apply Hc.
Qed.

Lemma tick_wf st :
  registry_wf st ∧ clients_wf st →
  registry_wf (tick castObjectId st) ∧ clients_wf (tick castObjectId st).
Proof.
  intros [Hr [Hnd Hc]]. unfold tick.
  apply (foldl_preserves (λ s, registry_wf s ∧ clients_wf s) (λ _, True));
    [by apply Forall_true| |by intros s c Hs _; apply emitClose_wf].
  destruct (heartbeat_frame st) as (Hhc & Hhr & _).
  split; [|split].
  - intros v x. rewrite Hhr, heartbeat_userId by done. apply Hr.
  - by rewrite Hhc.
  - intros c. rewrite Hhc, heartbeat_socket by done. intros Hin.
    rewrite decide_True by done. apply fmap_is_Some. by apply Hc.
Qed.

Lemma onPong_wf ws st :
  registry_wf st ∧ clients_wf st → registry_wf (onPong ws st) ∧ clients_wf (onPong ws st).
Proof.
  intros [Hr [Hnd Hc]]. unfold onPong.
  destruct (sockets st !! ws) as [w|] eqn:Hw; [|done].
  destruct (listening w); [|done]. split; [|split].
  - intros v x Hv. rewrite (ws_userId_insert st ws w) by done. by apply Hr.
  - done.
  - intros c Hin. simpl. rewrite lookup_insert. case_decide; [eauto | by apply Hc].
Qed.

Lemma fresh_socket st :
  clients_wf st → fresh (dom (sockets st)) ∉ clients st.
Proof.
  intros [_ Hc] Hin. apply Hc, elem_of_dom in Hin. by apply is_fresh in Hin.
Qed.

Section Reachable.

Variable jwt_verify : string → option string.

Lemma onConnectionAt_wf r req st :
  registry_wf st ∧ clients_wf st →
  registry_wf (onConnectionAt castObjectId jwt_verify r req st)
  ∧ clients_wf (onConnectionAt castObjectId jwt_verify r req st).
Proof.
  intros [Hr Hcw]. pose proof (fresh_socket st Hcw) as Hfresh. destruct Hcw as [Hnd Hc].
  set (ws := fresh (dom (sockets st))) in *.
  assert (sockets st !! ws = None) as Hnone by apply not_elem_of_dom, is_fresh.
  assert (∀ v x, connectedUsers st !! v = Some x → x ≠ ws) as Hreg.
  { intros v x Hv ->. apply Hr in Hv. unfold ws_userId in Hv. by rewrite Hnone in Hv. }
  set (cs := if bool_decide (r = CLOSED) then clients st else clients st ++ [ws]).
  set (st0 := set_clients cs
                (set_sockets (<[ws := mkWs None None None r false]> (sockets st)) st)).
  assert (NoDup cs) as Hnd'.
  { unfold cs. case_bool_decide; [done|].
    apply NoDup_app. split_and!; [done| |apply NoDup_singleton].
    intros x Hx ->%list_elem_of_singleton. done. }
  assert (∀ c, c ∈ cs → c = ws ∨ c ∈ clients st) as Hcs.
  { intros c. unfold cs. case_bool_decide; [by right|].
    intros [?|?%list_elem_of_singleton]%elem_of_app; [by right | by left]. }
  assert (registry_wf (ws_close ws st0) ∧ clients_wf (ws_close ws st0)) as Hclosed.
  { split; [|split].
    - intros v x Hv. pose proof (Hreg v x Hv) as Hx. unfold ws_userId. simpl.
      rewrite lookup_alter_ne, lookup_insert_ne by done. by apply Hr.
    - done.
    - intros c Hin. simpl. rewrite lookup_alter, lookup_insert.
      repeat case_decide; simplify_eq; rewrite ?lookup_insert_eq; eauto.
      rewrite lookup_insert_ne by done.
      destruct (Hcs c Hin) as [?|?]; [done | by apply Hc]. }
  unfold onConnectionAt. fold ws. fold cs. fold st0.
  destruct (truthy _); simpl; [|exact Hclosed].
  destruct (_ ≫= jwt_verify) as [uid|]; [|exact Hclosed].
  destruct (User_findById _ _ _) as [[user|]|]; try exact Hclosed.
  rewrite broadcastToUserChats_frames, sendToClient_frames.
  split; [|split].
  - intros v x. unfold ws_userId. simpl. rewrite lookup_insert, lookup_alter.
    repeat case_decide; simplify_eq; intros Hv; simplify_eq;
      rewrite ?lookup_insert_eq, ?lookup_insert_ne by done; simpl; try done;
      try (exfalso; by eapply Hreg); by apply Hr.
  - done.
  - intros c Hin. simpl. rewrite lookup_alter.
    case_decide; simplify_eq; [rewrite lookup_insert_eq; eauto|].
    rewrite !lookup_insert_ne by done.
    destruct (Hcs c Hin) as [?|?]; [done | by apply Hc].
Qed.

Lemma onConnection_wf req st :
  registry_wf st ∧ clients_wf st →
  registry_wf (onConnection castObjectId jwt_verify req st)
  ∧ clients_wf (onConnection castObjectId jwt_verify req st).
Proof. apply onConnectionAt_wf. Qed.

(** The registry points at sockets of the right identity, and
    [wss.clients] holds each of its sockets once, in every state that the
    hub reaches. *)
Lemma step_wf st i :
  registry_wf st ∧ clients_wf st →
  registry_wf (step castObjectId jwt_verify st i)
  ∧ clients_wf (step castObjectId jwt_verify st i).
Proof.
  intros Hwf. destruct i as [req|ws data|ws|ws| |ms|req closed]; simpl.
  - by apply onConnection_wf.
  - destruct (sockets st !! ws) as [w|]; [|done].
    destruct (_ && _); [|done].
    pose proof (handleMessage_same_conns ws data st) as Hs. destruct Hwf.
    split; [by apply (registry_wf_same_conns st) | by apply (clients_wf_same_conns st)].
  - by apply onPong_wf.
  - destruct (sockets st !! ws) as [w|]; [|done].
    case_bool_decide; [by apply emitClose_wf | done].
  - by apply tick_wf.
  - case_bool_decide; [|done].
    pose proof (elapse_same_conns ms st) as Hs. destruct Hwf.
    split; [by apply (registry_wf_same_conns st) | by apply (clients_wf_same_conns st)].
  - by apply onConnectionAt_wf.
Qed.

Lemma run_wf s inputs :
  registry_wf (run castObjectId jwt_verify (init s) inputs)
  ∧ clients_wf (run castObjectId jwt_verify (init s) inputs).
Proof.
  unfold run.
  apply (foldl_preserves (λ st, registry_wf st ∧ clients_wf st) (λ _, True));
    [by apply Forall_true| |by intros st i Hst _; apply step_wf].
  split; [|split].
  - intros v x Hv. simpl in Hv. by rewrite lookup_empty in Hv.
  - apply NoDup_nil_2.
  - intros c Hc. by apply elem_of_nil in Hc.
Qed.

End Reachable.

End Facts.

(** * The hub on the concrete deployment *)

Ltac by_compute := apply (bool_decide_unpack _); vm_compute; exact I.

(** C1, refuted as stated: alice reconnects on socket 1, which replaces
    socket 0 in the registry; when the disconnect path of the stale socket 0
    runs, the entry of the newer socket 1 is gone. *)
Lemma stale_disconnect_evicts_reconnect :
  ws_userId Demo.reconnected 0 = Some Demo.alice
  ∧ ws_userId Demo.reconnected 1 = Some Demo.alice
  ∧ connectedUsers Demo.reconnected !! Demo.alice = Some 1
  ∧ connectedUsers (handleDisconnection Demo.castObjectId 0 Demo.reconnected) !! Demo.alice
    = None.
Proof. vm_compute. done. Qed.

Lemma handleDisconnection_unregisters_witness :
  connectedUsers (handleDisconnection Demo.castObjectId 0 Demo.reconnected) !! Demo.alice
  = None.
Proof.
  apply (handleDisconnection_unregisters Demo.castObjectId 0 Demo.alice Demo.reconnected);
    [vm_compute; reflexivity | done].
Defined.

(** C2, refuted as stated: alice starts typing at 0 ms and again at
    1000 ms; at 3000 ms, 2000 ms after the second start, bob's socket has
    been sent the [typing_stop] of the first timer and the claim is gone. *)
Lemma typing_stop_before_second_expiry :
  now Demo.retyped = 3000%Z
  ∧ last (outbox Demo.retyped)
    = Some (1, mkMsg "typing_stop"
                     (P_typing (Some Demo.alice) (Some "alice") Demo.lobby 3000))
  ∧ typingUsers Demo.retyped = ∅
  ∧ map fireAt (timers Demo.retyped) = [4000%Z].
Proof. vm_compute. done. Qed.

Lemma typing_restart_keeps_first_expiry_witness :
  timers
    (elapse Demo.castObjectId (3000 - 1000)
       (handleTypingStart Demo.castObjectId 0 Demo.lobby
          (elapse Demo.castObjectId 1000
             (handleTypingStart Demo.castObjectId 0 Demo.lobby Demo.online))))
  = [mkTimer (now Demo.online + 1000 + 3000) (typingKey Demo.online 0 Demo.lobby)
             Demo.lobby 0].
Proof.
  apply (typing_restart_keeps_first_expiry Demo.castObjectId 0 Demo.lobby 1000 Demo.online);
    [vm_compute; reflexivity | lia].
Defined.

(** C3, refuted as stated: alice has no typing claim in the lobby, and her
    [typing_stop] is still sent to bob. *)
Lemma typing_stop_without_claim_is_broadcast :
  typingUsers Demo.online = ∅
  ∧ outbox (handleTypingStop Demo.castObjectId 0 Demo.lobby Demo.online)
    = outbox Demo.online
      ++ [(1, mkMsg "typing_stop" (P_typing (Some Demo.alice) (Some "alice") Demo.lobby 0))].
Proof. vm_compute. done. Qed.



Lemma handleSendMessage_non_member_witness :
  ∃ m, type m = "error"
       ∧ handleSendMessage Demo.castObjectId 0 Demo.lobby "hi" None None None None
           Demo.outsider
         = set_outbox (outbox Demo.outsider ++ [(0, m)]) Demo.outsider.
Proof.
  apply (handleSendMessage_non_member Demo.castObjectId 0 Demo.carol_ws Demo.carol Demo.lobby
           (Chat.mk Chat.private [Demo.alice; Demo.bob] None None));
    [vm_compute; reflexivity | reflexivity | reflexivity | vm_compute; reflexivity
    | by_compute].
Defined.

Lemma handleMessageRead_again_witness :
  ∃ ds,
    handleMessageRead Demo.castObjectId 0 Demo.hello Demo.lobby Demo.seen
    = set_outbox (outbox Demo.seen ++ ds) Demo.seen
    ∧ messages (db Demo.seen) !! Demo.hello
      = Some (Message.mk (Some Demo.bob) Demo.lobby "hello" "text" None None None
                         [Message.mkReceipt Demo.alice 0])
    ∧ Forall (λ d, d.2 = mkMsg "message_read"
                           (P_message_read Demo.hello Demo.lobby (Some Demo.alice)
                                           (Some "alice") 0)) ds
    ∧ count_frames 0 "message_read" ds = 1
    ∧ count_frames 1 "message_read" ds = 1.
Proof.
  destruct (handleMessageRead_again Demo.castObjectId 0 Demo.hello Demo.lobby
              (Message.mk (Some Demo.bob) Demo.lobby "hello" "text" None None None
                          [Message.mkReceipt Demo.alice 0])
              Demo.seen) as (ds & Hst & _ & _ & Hev & Hall);
    [vm_compute; reflexivity..|].
  assert (registry_wf Demo.seen) as Hwf
    by exact (proj1 (step_wf Demo.castObjectId Demo.jwt_verify Demo.online
                       (Frame 0 (Some (message_read Demo.hello Demo.lobby)))
                       (run_wf Demo.castObjectId Demo.jwt_verify Demo.store
                          [Demo.login Demo.alice; Demo.login Demo.bob]))).
  destruct (Hall (Chat.mk Chat.private [Demo.alice; Demo.bob] None None)
                 Demo.alice 0 Demo.alice_ws) as [_ Ha];
    [done | vm_compute; reflexivity | vm_compute; reflexivity | by_compute | by_compute
    | by_compute | vm_compute; reflexivity..|].
  destruct (Hall (Chat.mk Chat.private [Demo.alice; Demo.bob] None None)
                 Demo.bob 1 Demo.bob_ws) as [_ Hb];
    [done | vm_compute; reflexivity | vm_compute; reflexivity | by_compute | by_compute
    | by_compute | vm_compute; reflexivity..|].
  exists ds. split_and!; [exact Hst | vm_compute; reflexivity | exact Hev | exact Ha | exact Hb].
Defined.

Lemma broadcastToUserChats_once_witness :
  ∃ ds, broadcastToUserChats Demo.castObjectId Demo.alice
          (presence_event "user_online" Demo.alice (Some "alice") 0) Demo.online
        = set_outbox (outbox Demo.online ++ ds) Demo.online
        ∧ count_to_user Demo.online Demo.bob ds ≤ 1
        ∧ count_to_user Demo.online Demo.alice ds = 0.
Proof.
  destruct (broadcastToUserChats_once Demo.castObjectId Demo.alice
              (presence_event "user_online" Demo.alice (Some "alice") 0) Demo.bob Demo.online)
    as (ds & H1 & _ & H2 & H3).
  - exact (proj1 (run_wf Demo.castObjectId Demo.jwt_verify Demo.store
                         [Demo.login Demo.alice; Demo.login Demo.bob])).
  - exists ds. split_and!; assumption.
Defined.

(** C9, refuted as stated: alice marks as read a message that is not
    stored; no frame is written, to her or to anyone. *)
Lemma message_read_of_unknown_message_is_silent :
  messages (db Demo.online) !! Demo.nothing = None
  ∧ outbox (handleMessage Demo.castObjectId 0
              (Some (message_read Demo.nothing Demo.lobby)) Demo.online)
    = outbox Demo.online
  ∧ Demo.received 0 Demo.online = ["connection"; "user_online"].
Proof. vm_compute. done. Qed.

Lemma not_found_replies_witness :
  handleMessage Demo.castObjectId 0 (Some (message_read Demo.nothing Demo.lobby)) Demo.online
  = Demo.online.
Proof.
  apply (not_found_replies Demo.castObjectId 0 Demo.alice_ws Demo.nowhere Demo.nothing
           Demo.lobby "hi" None None None None Demo.online);
    [vm_compute; reflexivity | reflexivity | vm_compute; reflexivity..].
Defined.

Lemma handleDisconnection_unauthenticated_witness :
  handleDisconnection Demo.castObjectId 0 Demo.anonymous = Demo.anonymous.
Proof.
  apply (handleDisconnection_unauthenticated Demo.castObjectId 0 Demo.anonymous).
  vm_compute; reflexivity.
Defined.

Lemma heartbeat_two_ticks_witness :
  0 ∈ clients (tick Demo.castObjectId Demo.online)
  ∧ (0 ∉ clients (tick Demo.castObjectId Demo.unanswered))
  ∧ connectedUsers (tick Demo.castObjectId Demo.unanswered) !! Demo.alice = None
  ∧ (1, presence_event "user_offline" Demo.alice (Some "alice") 0)
    ∈ outbox (tick Demo.castObjectId Demo.unanswered).
Proof.
  destruct (heartbeat_two_ticks Demo.castObjectId 0 Demo.alice_ws Demo.alice Demo.online)
    as [(_ & _ & H1 & _) H2];
    [by_compute | by_compute | vm_compute; reflexivity | reflexivity.. | discriminate |].
  destruct (H2 Demo.unanswered) as (_ & H3 & H4 & H5);
    [by_compute | by_compute | vm_compute; reflexivity |].
  split_and!; [assumption..|].
  apply (H5 Demo.bob 1 (set_isAlive true (set_isAlive false Demo.bob_ws)) Demo.lobby
            (Chat.mk Chat.private [Demo.alice; Demo.bob] None None)).
  - vm_compute; reflexivity.
  - discriminate.
  - vm_compute; reflexivity.
  - vm_compute; reflexivity.
  - reflexivity.
  - discriminate.
  - assert (terminated Demo.unanswered = [0]) as -> by (vm_compute; reflexivity).
    intros c ->%list_elem_of_singleton. vm_compute. discriminate.
  - vm_compute; reflexivity.
  - by_compute.
  - by_compute.
  - by_compute.
Defined.

(** * More properties of the hub *)

(** ** The save hook of chats *)

Lemma Chat_pre_save_cases c c' :
  Chat.pre_save c = Some c' →
  Chat.type c' = Chat.type c
  ∧ Chat.participants c' = Chat.participants c
  ∧ Chat.lastMessage c' = Chat.lastMessage c
  ∧ 2 ≤ length (Chat.participants c')
  ∧ (Chat.type c = Chat.private → length (Chat.participants c') = 2 ∧ c' = c)
  ∧ (Chat.type c = Chat.group →
     is_Some (Chat.admin c')
     ∧ (Chat.admin c = None → Chat.admin c' = head (Chat.participants c))
     ∧ (is_Some (Chat.admin c) → c' = c))
  ∧ Chat.pre_save c' = Some c'.
Proof.
  unfold Chat.pre_save. destruct c as [[] ps a lm]; simpl.
  - case_bool_decide as Hl; [done|]. intros [= <-]. simpl.
    assert (length ps = 2) as Hl' by lia.
    split_and!; try done; try lia.
    case_bool_decide; [lia|done].
  - case_bool_decide as Hl; [done|]. case_bool_decide as Ha; intros [= <-]; simpl.
    + subst a. destruct ps as [|p ps]; [simpl in Hl; lia|]. simpl in *.
      split_and!; try done; try lia.
      repeat case_bool_decide; done || lia.
    + split_and!; try done; try lia.
      * intros _. split_and!; [|done..]. destruct a; [by eauto | done].
      * repeat case_bool_decide; done || lia.
Qed.

(** X19: a chat that passes the [pre('save')] hook has at least two
    participants, exactly two if it is private, and an admin if it is a
    group chat (its first participant when none was given); the hook changes
    nothing else, and a chat that passed passes again unchanged. *)
Theorem Chat_pre_save_sound c c' :
  Chat.pre_save c = Some c' →
  Chat.type c' = Chat.type c
  ∧ Chat.participants c' = Chat.participants c
  ∧ Chat.lastMessage c' = Chat.lastMessage c
  ∧ 2 ≤ length (Chat.participants c')
  ∧ (Chat.type c = Chat.private → length (Chat.participants c') = 2 ∧ c' = c)
  ∧ (Chat.type c = Chat.group →
     is_Some (Chat.admin c')
     ∧ (Chat.admin c = None → Chat.admin c' = head (Chat.participants c))
     ∧ (is_Some (Chat.admin c) → c' = c))
  ∧ Chat.pre_save c' = Some c'.
Proof. exact (Chat_pre_save_cases c c'). Qed.

Section MoreFacts.

Variable castObjectId : string → bool.

(** ** Rooms are not subscriptions *)

(** X1: [join_room] and [leave_room] write at most one frame, to the socket
    that sent the event, and leave the store and the registry alone: the
    frames of every room fanout are the same before and after, whoever
    joined or left. *)
Theorem join_leave_do_not_gate_fanout ws chatId st :
  let joined := handleMessage castObjectId ws (Some (join_room chatId)) st in
  let left := handleMessage castObjectId ws (Some (leave_room chatId)) st in
  (∃ ds, joined = set_outbox (outbox st ++ ds) st
         ∧ length ds ≤ 1 ∧ Forall (λ d, d.1 = ws) ds)
  ∧ (∃ ds, left = set_outbox (outbox st ++ ds)
                    (set_typingUsers (delete (typingKey st ws chatId) (typingUsers st)) st)
           ∧ length ds ≤ 1 ∧ Forall (λ d, d.1 = ws ∧ type d.2 = "room_left") ds)
  ∧ (∀ c m ex, roomFrames castObjectId joined c m ex = roomFrames castObjectId st c m ex)
  ∧ (∀ c m ex, roomFrames castObjectId left c m ex = roomFrames castObjectId st c m ex).
Proof.
  intros joined left.
  assert (∀ m, length (frames st ws m) ≤ 1 ∧ Forall (λ d : Delivery, d.1 = ws) (frames st ws m)
               ∧ Forall (λ d : Delivery, d.2 = m) (frames st ws m)) as Hf.
  { intros m. unfold frames. destruct (sockets st !! ws) as [w|]; [case_bool_decide|];
      simpl; split_and!; try lia; repeat constructor. }
  assert (∃ ds, joined = set_outbox (outbox st ++ ds) st
                ∧ length ds ≤ 1 ∧ Forall (λ d : Delivery, d.1 = ws) ds) as Hj.
  { unfold joined. simpl. unfold handleJoinRoom.
    destruct (Chat_findOne castObjectId (db st) chatId (ws_userId st ws)) as [[c|]|];
      rewrite sendToClient_frames; eexists; (split; [reflexivity|]);
      split; apply Hf. }
  assert (∃ ds, left = set_outbox (outbox st ++ ds)
                         (set_typingUsers (delete (typingKey st ws chatId) (typingUsers st)) st)
                ∧ length ds ≤ 1
                ∧ Forall (λ d : Delivery, d.1 = ws ∧ type d.2 = "room_left") ds) as Hl.
  { unfold left. simpl. unfold handleLeaveRoom. rewrite sendToClient_frames.
    eexists. split; [reflexivity|]. split; [apply Hf|].
    destruct (Hf (mkMsg "room_left" (P_room chatId (now st)))) as (_ & H1 & H2).
    apply Forall_and. split; [exact H1|].
    eapply Forall_impl; [exact H2|]. by intros d ->. }
  split_and!; [exact Hj | exact Hl | |].
  - intros c m ex. destruct Hj as (ds & -> & _). reflexivity.
  - intros c m ex. destruct Hl as (ds & -> & _). reflexivity.
Qed.

(** ** Messages that are not sent *)

Lemma Chat_pre_save_ignores_lastMessage c lm :
  Chat.pre_save c = None →
  Chat.pre_save (Chat.mk (Chat.type c) (Chat.participants c) (Chat.admin c) lm) = None.
Proof.
  unfold Chat.pre_save. destruct c as [[] ps ad l]; simpl;
    repeat case_bool_decide; simplify_eq; done.
Qed.

(** Texts beyond ASCII.  [trim] strips every white space character from
    both ends and keeps what is inside; it keeps the next line control and
    the zero width space, which are no white space.  [length16] counts a
    letter of two bytes as one code unit and a face of four bytes as two:
    1001 such letters are within the 2000 of the schema, 1001 faces are
    not. *)
Lemma trim_strips_unicode_space :
  Message.trim Cases.blank = ""
  ∧ Message.trim (Cases.blank +:+ "a" +:+ Cases.blank +:+ Cases.e_acute +:+ Cases.blank)
    = "a" +:+ Cases.blank +:+ Cases.e_acute
  ∧ Message.trim (Cases.next_line +:+ " ") = Cases.next_line
  ∧ Message.trim (" " +:+ Cases.zero_width) = Cases.zero_width.
Proof. split_and!; vm_compute; reflexivity. Qed.

Lemma length16_counts_code_units :
  Message.utf8 (Cases.repeat 1001 Cases.e_acute) = true
  ∧ String.length (Cases.repeat 1001 Cases.e_acute) = 2002
  ∧ Message.length16 (Cases.repeat 1001 Cases.e_acute) = 1001
  ∧ Message.utf8 (Cases.repeat 1001 Cases.face) = true
  ∧ Message.length16 (Cases.repeat 1001 Cases.face) = 2002.
Proof. split_and!; vm_compute; reflexivity. Qed.

(** X2: when a member sends a message that the validators of the message
    schema reject (content that [String.prototype.trim] leaves empty,
    content of more than 2000 UTF-16 code units after trimming, or a
    message type outside the enumeration), the sender gets the one [error]
    frame of the [catch] and nothing else happens: nothing is stored, no
    frame goes to the room, a typing claim stays. *)
Theorem handleSendMessage_invalid ws w u chatId chat content messageType fileUrl fileName
    fileSize st :
  sockets st !! ws = Some w → readyState w = OPEN → userId w = Some u →
  castObjectId chatId = true → castObjectId u = true →
  chats (db st) !! chatId = Some chat → u ∈ Chat.participants chat →
  Message.utf8 content = true →
  Message.trim content = ""
  ∨ 2000 < Message.length16 (Message.trim content)
  ∨ default "text" messageType ∉ ["text"; "image"; "file"] →
  handleSendMessage castObjectId ws chatId content messageType fileUrl fileName fileSize st
  = set_outbox (outbox st ++ [(ws, mkMsg "error" (P_error "Failed to send message" None))]) st.
Proof.
  intros Hw Ho Hu Hcc Hcu Hchat Hmem _ Hbad.
  assert (ws_userId st ws = Some u) as Hws by (unfold ws_userId; by rewrite Hw).
  unfold handleSendMessage. rewrite Hws.
  rewrite (Chat_findOne_member castObjectId _ _ _ chat) by done.
  assert (Message_save castObjectId (db st)
            (Message.mk (Some u) chatId content (default "text" messageType)
               (spread_string fileUrl) (spread_string fileName) (spread_number fileSize) [])
          = Throw) as ->.
  { unfold Message_save, Message.valid. cbn [Message.sender Message.content Message.chat
      Message.messageType].
    destruct Hbad as [H | [H | H]].
    - rewrite (bool_decide_eq_false_2 (Message.trim content ≠ "")) by (by intros ?).
      by rewrite andb_false_r.
    - rewrite (bool_decide_eq_false_2 (Message.length16 (Message.trim content) ≤ 2000)) by lia.
      by rewrite !andb_false_r.
    - rewrite (bool_decide_eq_false_2 (default "text" messageType ∈ _)) by done.
      by rewrite !andb_false_r. }
  rewrite sendToClient_frames. by rewrite (frames_open _ _ w).
Qed.

(** X3: the message is saved before the chat is.  When the [pre('save')]
    hook of the chat rejects the chat document, a valid message of a member
    is already stored: the store gains the message, with the content as
    [String.prototype.trim] leaves it, the chat keeps its old
    [lastMessage], the sender gets the [error] frame, and no frame goes to
    the room. *)
Theorem handleSendMessage_chat_save_fails ws w u chatId chat content messageType fileUrl
    fileName fileSize st :
  sockets st !! ws = Some w → readyState w = OPEN → userId w = Some u →
  castObjectId chatId = true → castObjectId u = true →
  chats (db st) !! chatId = Some chat → u ∈ Chat.participants chat →
  Message.utf8 content = true →
  Message.trim content ≠ "" → Message.length16 (Message.trim content) ≤ 2000 →
  default "text" messageType ∈ ["text"; "image"; "file"] →
  Chat.pre_save chat = None →
  handleSendMessage castObjectId ws chatId content messageType fileUrl fileName fileSize st
  = set_outbox (outbox st ++ [(ws, mkMsg "error" (P_error "Failed to send message" None))])
      (set_db
         (mkStore (users (db st)) (chats (db st))
            (<[fresh (dom (messages (db st))) :=
                 Message.mk (Some u) chatId (Message.trim content) (default "text" messageType)
                   (spread_string fileUrl) (spread_string fileName) (spread_number fileSize)
                   []]> (messages (db st))))
         st).
Proof.
  intros Hw Ho Hu Hcc Hcu Hchat Hmem _ Hne Hlen Hty Hsave.
  assert (ws_userId st ws = Some u) as Hws by (unfold ws_userId; by rewrite Hw).
  unfold handleSendMessage. rewrite Hws.
  rewrite (Chat_findOne_member castObjectId _ _ _ chat) by done.
  unfold Message_save, Message.valid. cbn [Message.sender Message.content Message.chat
    Message.messageType].
  rewrite !bool_decide_eq_true_2 by (done || eauto). simpl.
  rewrite Hcu, Hcc. simpl.
  unfold Chat_save. rewrite (Chat_pre_save_ignores_lastMessage chat _ Hsave).
  rewrite sendToClient_frames. unfold frames. simpl. rewrite Hw.
  by rewrite bool_decide_eq_true_2.
Qed.

(** ** Read receipts of anyone, for any room *)

(** X4: [handleMessageRead] checks neither that the reader is a participant
    of the message's chat nor that the [chatId] of the payload is that chat:
    the first [message_read] of any bound user for a stored message appends
    that user's receipt, and the [message_read] fanout goes to the room named
    in the payload. *)
Theorem handleMessageRead_no_membership ws u messageId chatId m st :
  castObjectId messageId = true → castObjectId u = true →
  messages (db st) !! messageId = Some m → ws_userId st ws = Some u →
  alreadyRead (Some u) m = false →
  handleMessageRead castObjectId ws messageId chatId st
  = set_outbox
      (outbox st ++ roomFrames castObjectId st chatId (read_event st ws messageId chatId) None)
      (set_db
         (Message_update (db st) messageId
            (Message.mk (Message.sender m) (Message.chat m) (Message.content m)
               (Message.messageType m) (Message.fileUrl m) (Message.fileName m)
               (Message.fileSize m) (Message.readBy m ++ [Message.mkReceipt u (now st)])))
         st).
Proof.
  intros Hid Hu Hm Hws Hr. unfold handleMessageRead, Message_findById.
  by rewrite Hid, Hm, Hws, Hr, Hu, broadcastToChat_frames.
Qed.

(** Run right on the answer of [Message.findById], the rest of the handler
    is the handler as one step. *)
Lemma handleMessageRead_halves ws messageId chatId st :
  handleMessageRead_rest castObjectId ws messageId chatId
    (handleMessageRead_find castObjectId messageId st) st
  = handleMessageRead castObjectId ws messageId chatId st.
Proof.
  unfold handleMessageRead_rest, handleMessageRead_find, handleMessageRead, Message_findById,
    Message_push.
  destruct (castObjectId messageId); [|done].
  destruct (messages (db st) !! messageId) as [m|]; [|done].
  destruct (alreadyRead _ _); [done|].
  destruct (ws_userId st ws) as [u|]; [|done].
  by destruct (castObjectId u).
Qed.

(** X5: two [message_read] frames of one socket for a message that its
    user has not read yet.  When the second is handled after the first has
    finished, the first stores one receipt and the second finds it and
    leaves the store as it is.  When the second arrives while the first
    awaits, so that both have the answer of [Message.findById] before
    either saves, both push: the stored list ends with two receipts of the
    same user. *)
Theorem handleMessageRead_twice ws u messageId chatId chatId' m st :
  castObjectId messageId = true → castObjectId u = true →
  messages (db st) !! messageId = Some m → ws_userId st ws = Some u →
  alreadyRead (Some u) m = false →
  let receipt := Message.mkReceipt u (now st) in
  let found := handleMessageRead_find castObjectId messageId st in
  let first := handleMessageRead_rest castObjectId ws messageId chatId found st in
  let after :=
    handleMessageRead_rest castObjectId ws messageId chatId'
      (handleMessageRead_find castObjectId messageId first) first in
  let between := handleMessageRead_rest castObjectId ws messageId chatId' found first in
  first = handleMessageRead castObjectId ws messageId chatId st
  ∧ after = handleMessageRead castObjectId ws messageId chatId' first
  ∧ (∃ m1, messages (db first) !! messageId = Some m1
           ∧ Message.readBy m1 = Message.readBy m ++ [receipt])
  ∧ db after = db first
  ∧ ∃ m2, messages (db between) !! messageId = Some m2
          ∧ Message.readBy m2 = Message.readBy m ++ [receipt; receipt].
Proof.
  intros Hid Hu Hm Hws Hr receipt found first after between.
  assert (first = set_outbox (outbox st ++ roomFrames castObjectId st chatId
                                              (read_event st ws messageId chatId) None)
                    (set_db (Message_update (db st) messageId
                               (Message.mk (Message.sender m) (Message.chat m)
                                  (Message.content m) (Message.messageType m)
                                  (Message.fileUrl m) (Message.fileName m)
                                  (Message.fileSize m) (Message.readBy m ++ [receipt])))
                            st)) as Hfirst.
  { unfold first, found, handleMessageRead_rest, handleMessageRead_find, Message_findById,
      Message_push.
    by rewrite Hid, Hm, Hws, Hr, Hu, broadcastToChat_frames. }
  assert (ws_userId first ws = Some u) as Hws1 by (by rewrite Hfirst).
  assert (now first = now st) as Hnow by (by rewrite Hfirst).
  assert (messages (db first) !! messageId
          = Some (Message.mk (Message.sender m) (Message.chat m) (Message.content m)
                    (Message.messageType m) (Message.fileUrl m) (Message.fileName m)
                    (Message.fileSize m) (Message.readBy m ++ [receipt]))) as Hm1.
  { rewrite Hfirst. cbn. apply lookup_insert_eq. }
  split_and!.
  - apply handleMessageRead_halves.
  - apply handleMessageRead_halves.
  - eexists. split; [exact Hm1|done].
  - unfold after, handleMessageRead_rest, handleMessageRead_find, Message_findById.
    rewrite Hid, Hm1, Hws1.
    assert (alreadyRead (Some u) (Message.mk (Message.sender m) (Message.chat m)
                (Message.content m) (Message.messageType m) (Message.fileUrl m)
                (Message.fileName m) (Message.fileSize m) (Message.readBy m ++ [receipt]))
            = true) as ->.
    { unfold alreadyRead. cbn [Message.readBy]. rewrite existsb_app. simpl.
      rewrite bool_decide_eq_true_2 by done. by rewrite orb_true_r. }
    by rewrite broadcastToChat_frames.
  - unfold between, found, handleMessageRead_rest, handleMessageRead_find, Message_findById,
      Message_push.
    rewrite Hid, Hm, Hws1, Hr, Hu, Hm1, Hnow, broadcastToChat_frames.
    eexists. split; [cbn; apply lookup_insert_eq|]. cbn. by rewrite <- app_assoc.
Qed.

(** ** Typing in any room *)

(** X6: [handleTypingStart] checks no membership either: whoever sends
    [typing_start] for a stored room, the claim is recorded and every
    stored participant with an open registered socket gets exactly one
    [typing_start] frame, except the sender. *)
Theorem handleTypingStart_no_membership ws chatId chat st :
  registry_wf st → castObjectId chatId = true →
  chats (db st) !! chatId = Some chat → NoDup (Chat.participants chat) →
  ∃ ds,
    outbox (handleTypingStart castObjectId ws chatId st) = outbox st ++ ds
    ∧ typingUsers (handleTypingStart castObjectId ws chatId st) !! typingKey st ws chatId
      = Some (mkTyping (ws_userId st ws) (ws_username st ws) chatId (now st))
    ∧ ∀ p c wp,
        p ∈ Chat.participants chat → is_Some (users (db st) !! p) →
        connectedUsers st !! p = Some c → sockets st !! c = Some wp → readyState wp = OPEN →
        count_frames c "typing_start" ds
        = if decide (Some p = ws_userId st ws) then 0 else 1.
Proof.
  intros Hwf Hcc Hchat Hnd. rewrite handleTypingStart_eq. eexists.
  split; [reflexivity|]. split; [simpl; apply lookup_insert_eq|].
  intros p c wp Hp Hs Hc Hwp Ho.
  unfold roomFrames, roomRecipients, Chat_findById_populated. rewrite Hcc, Hchat. simpl.
  unfold typing_event.
  rewrite (count_frames_deliver st _ _ p c wp); [|done|by do 2 apply NoDup_filter|done..].
  destruct (decide (Some p = ws_userId st ws)) as [E|E].
  - rewrite decide_False; [done|]. intros [H _]%list_elem_of_filter. done.
  - rewrite decide_True; [done|]. apply list_elem_of_filter. split; [done|].
    by apply list_elem_of_filter.
Qed.

(** ** What a disconnect clears *)

Lemma clearTyping_fold_Some uid (l : list (string * TypingUser)) (m : gmap string TypingUser) k c :
  foldl (λ m kv, if bool_decide (t_userId kv.2 = uid) then delete kv.1 m else m) m l !! k
  = Some c ↔
  m !! k = Some c ∧ ∀ v, (k, v) ∈ l → t_userId v ≠ uid.
Proof.
  revert m. induction l as [|[k0 v0] l IH]; intros m; cbn [foldl].
  - split; [intros H; split; [done|]; by intros v ?%elem_of_nil | by intros [? _]].
  - rewrite IH. cbn [fst snd]. split.
    + intros [Hm Hl]. case_bool_decide as Hu.
      * apply lookup_delete_Some in Hm as [Hne Hm]. split; [done|].
        intros v [?|?]%elem_of_cons; [simplify_eq | by apply Hl].
      * split; [done|]. intros v [?|?]%elem_of_cons; [by simplify_eq | by apply Hl].
    + intros [Hm Hl]. split.
      * case_bool_decide as Hu; [|done]. apply lookup_delete_Some. split; [|done].
        intros ->. apply (Hl v0); [apply list_elem_of_here | done].
      * intros v Hv. by apply Hl, list_elem_of_further.
Qed.

Lemma clearTyping_lookup_Some uid (m : gmap string TypingUser) k c :
  clearTyping uid m !! k = Some c ↔ m !! k = Some c ∧ t_userId c ≠ uid.
Proof.
  unfold clearTyping. rewrite clearTyping_fold_Some. split.
  - intros [Hm Hl]. split; [done|]. by apply Hl, elem_of_map_to_list.
  - intros [Hm Hu]. split; [done|]. intros v Hv%elem_of_map_to_list. by simplify_eq.
Qed.

(** X7: the disconnect path of a socket bound to [u] removes exactly the
    typing claims of [u], in every room, and keeps those of everyone else.
    It tells nobody that the typing stopped: the frames it writes are all
    [user_offline]. *)
Theorem handleDisconnection_clears_own_claims ws u st :
  ws_userId st ws = Some u → u ≠ "" →
  (∀ k c, typingUsers (handleDisconnection castObjectId ws st) !! k = Some c
          ↔ typingUsers st !! k = Some c ∧ t_userId c ≠ Some u)
  ∧ ∃ ds, outbox (handleDisconnection castObjectId ws st) = outbox st ++ ds
          ∧ Forall (λ d, type d.2 = "user_offline") ds.
Proof.
  intros Hu Hne. rewrite (handleDisconnection_some castObjectId _ _ _ Hu Hne). cbn zeta.
  destruct (castObjectId u); simpl.
  - split; [intros k c; apply clearTyping_lookup_Some|].
    eexists. split; [reflexivity|].
    eapply Forall_impl; [apply Forall_deliver|]. by intros d ->.
  - split; [intros k c; apply clearTyping_lookup_Some|].
    exists []. by rewrite app_nil_r.
Qed.

(** X8: presence follows the last socket event, not the registry: the
    disconnect path of any socket bound to a stored user [u] marks [u]
    offline in the store, with the current time as [lastSeen], whether or
    not another socket of [u] is open and registered. *)
Theorem handleDisconnection_marks_offline ws u d st :
  ws_userId st ws = Some u → u ≠ "" → castObjectId u = true →
  users (db st) !! u = Some d →
  users (db (handleDisconnection castObjectId ws st)) !! u
  = Some (User.mk (User.username d) (User.avatar d) false (now st))
  ∧ ∀ v, v ≠ u → users (db (handleDisconnection castObjectId ws st)) !! v = users (db st) !! v.
Proof.
  intros Hu Hne Hc Hd. rewrite (handleDisconnection_some castObjectId _ _ _ Hu Hne). cbn zeta.
  rewrite Hc. simpl. split.
  - by rewrite lookup_alter_eq, Hd.
  - intros v Hv. by rewrite lookup_alter_ne.
Qed.

(** ** Typing claims and the clock *)

Lemma set_timers_id st : set_timers (timers st) st = st.
Proof. by destruct st. Qed.

Lemma elapse_none_due ms st :
  Forall (λ t, (now st + ms < fireAt t)%Z) (timers st) →
  elapse castObjectId ms st = set_now (now st + ms) st.
Proof.
  intros H. unfold elapse.
  assert (filter (λ t, (fireAt t ≤ now st + ms)%Z) (timers st) = []) as ->.
  { induction H as [|t l Ht H IH]; [done|]. rewrite filter_cons_False by lia. done. }
  assert (filter (λ t, ¬ (fireAt t ≤ now st + ms)%Z) (timers st) = timers st) as ->.
  { induction H as [|t l Ht H IH]; [done|]. rewrite filter_cons_True by lia. by rewrite IH. }
  cbn [foldl]. by rewrite set_timers_id.
Qed.

Lemma elapse_single_unclaimed ms t st :
  timers st = [t] → (fireAt t ≤ now st + ms)%Z → typingUsers st !! tm_key t = None →
  elapse castObjectId ms st = set_now (now st + ms) (set_now (fireAt t) (set_timers [] st)).
Proof.
  intros Ht Hdue Hk. unfold elapse. rewrite Ht.
  rewrite !filter_cons, !filter_nil. repeat case_decide; try lia; try done.
  cbn [foldl]. by rewrite typingTimeout_unclaimed.
Qed.

(** X9: an explicit stop makes the pending expiry a no-op.  When U starts
    typing in R and sends [typing_stop] [d] ms later ([d < 3000]), the room
    gets the [typing_stop] fanout once, at the stop; the timer of the start
    fires at 3000 ms, finds no claim and writes nothing. *)
Theorem typing_stop_then_expiry ws chatId d st :
  timers st = [] → (0 ≤ d < 3000)%Z →
  let s1 := handleTypingStart castObjectId ws chatId st in
  let s2 := handleTypingStop castObjectId ws chatId (elapse castObjectId d s1) in
  let s3 := elapse castObjectId (3000 - d) s2 in
  outbox s2
  = outbox s1
    ++ roomFrames castObjectId st chatId
         (mkMsg "typing_stop"
                (P_typing (ws_userId st ws) (ws_username st ws) chatId (now st + d)))
         (ws_userId st ws)
  ∧ outbox s3 = outbox s2
  ∧ typingUsers s3 = delete (typingKey st ws chatId) (typingUsers st)
  ∧ timers s3 = []
  ∧ now s3 = (now st + 3000)%Z.
Proof.
  intros Ht Hd s1 s2 s3.
  set (t1 := mkTimer (now st + 3000) (typingKey st ws chatId) chatId ws).
  assert (timers s1 = [t1]) as Ht1.
  { unfold s1. rewrite handleTypingStart_eq. cbn [timers set_timers]. by rewrite Ht. }
  assert (now s1 = now st) as Hn1 by (unfold s1; by rewrite handleTypingStart_eq).
  assert (elapse castObjectId d s1 = set_now (now st + d) s1) as E1.
  { rewrite elapse_none_due, Hn1; [done|]. rewrite Ht1, Hn1.
    repeat constructor. simpl. lia. }
  assert (s2 = set_outbox
                 (outbox s1
                  ++ roomFrames castObjectId st chatId
                       (mkMsg "typing_stop"
                          (P_typing (ws_userId st ws) (ws_username st ws) chatId (now st + d)))
                       (ws_userId st ws))
                 (set_typingUsers (delete (typingKey st ws chatId) (typingUsers s1))
                    (set_now (now st + d) s1))) as E2.
  { unfold s2. rewrite E1. unfold handleTypingStop. rewrite broadcastToChat_frames.
    unfold s1. rewrite handleTypingStart_eq. reflexivity. }
  assert (s3 = set_now (now st + d + (3000 - d)) (set_now (fireAt t1) (set_timers [] s2)))
    as E3.
  { unfold s3. rewrite (elapse_single_unclaimed _ t1).
    - rewrite E2 at 1. cbn [now set_outbox set_typingUsers set_now]. done.
    - rewrite E2. cbn [timers set_outbox set_typingUsers set_now]. done.
    - rewrite E2. cbn [now set_outbox set_typingUsers set_now fireAt t1]. lia.
    - rewrite E2. cbn [typingUsers set_outbox set_typingUsers set_now tm_key t1].
      apply lookup_delete_eq. }
  split; [by rewrite E2|]. rewrite E3. cbn [outbox timers now typingUsers set_now set_timers].
  split_and!; [done| |done|lia].
  rewrite E2. cbn [typingUsers set_outbox set_typingUsers set_now].
  unfold s1. rewrite handleTypingStart_eq. cbn [typingUsers set_timers set_outbox
    set_typingUsers]. apply delete_insert_eq.
Qed.

(** X10: [leave_room] drops the typing claim without telling the room.  When
    U starts typing in R and leaves R [d] ms later ([d < 3000]), the only
    frame after the [typing_start] fanout is the [room_left] reply to U: the
    claim is gone, the timer of the start finds nothing at 3000 ms, and no
    [typing_stop] is ever written. *)
Theorem typing_then_leave_is_silent ws chatId d st :
  timers st = [] → (0 ≤ d < 3000)%Z →
  let s1 := handleTypingStart castObjectId ws chatId st in
  let s2 := handleLeaveRoom ws chatId (elapse castObjectId d s1) in
  let s3 := elapse castObjectId (3000 - d) s2 in
  outbox s3
  = outbox st
    ++ roomFrames castObjectId st chatId (typing_event "typing_start" st ws chatId)
         (ws_userId st ws)
    ++ frames st ws (mkMsg "room_left" (P_room chatId (now st + d)))
  ∧ typingUsers s3 = delete (typingKey st ws chatId) (typingUsers st)
  ∧ timers s3 = []
  ∧ now s3 = (now st + 3000)%Z.
Proof.
  intros Ht Hd s1 s2 s3.
  set (t1 := mkTimer (now st + 3000) (typingKey st ws chatId) chatId ws).
  assert (timers s1 = [t1]) as Ht1.
  { unfold s1. rewrite handleTypingStart_eq. cbn [timers set_timers]. by rewrite Ht. }
  assert (now s1 = now st) as Hn1 by (unfold s1; by rewrite handleTypingStart_eq).
  assert (elapse castObjectId d s1 = set_now (now st + d) s1) as E1.
  { rewrite elapse_none_due, Hn1; [done|]. rewrite Ht1, Hn1.
    repeat constructor. simpl. lia. }
  assert (s2 = set_outbox
                 (outbox s1 ++ frames st ws (mkMsg "room_left" (P_room chatId (now st + d))))
                 (set_typingUsers (delete (typingKey st ws chatId) (typingUsers s1))
                    (set_now (now st + d) s1))) as E2.
  { unfold s2. rewrite E1. unfold handleLeaveRoom. rewrite sendToClient_frames.
    unfold s1. rewrite handleTypingStart_eq. reflexivity. }
  assert (s3 = set_now (now st + d + (3000 - d)) (set_now (fireAt t1) (set_timers [] s2)))
    as E3.
  { unfold s3. rewrite (elapse_single_unclaimed _ t1).
    - rewrite E2 at 1. cbn [now set_outbox set_typingUsers set_now]. done.
    - rewrite E2. cbn [timers set_outbox set_typingUsers set_now]. done.
    - rewrite E2. cbn [now set_outbox set_typingUsers set_now fireAt t1]. lia.
    - rewrite E2. cbn [typingUsers set_outbox set_typingUsers set_now tm_key t1].
      apply lookup_delete_eq. }
  rewrite E3. cbn [outbox timers now typingUsers set_now set_timers].
  rewrite E2. cbn [outbox typingUsers set_outbox set_typingUsers set_now].
  unfold s1. rewrite handleTypingStart_eq. cbn [outbox typingUsers set_timers set_outbox
    set_typingUsers].
  split_and!; [by rewrite <- app_assoc | apply delete_insert_eq | done | lia].
Qed.

(** ** No typing claim outlives its timer *)

Lemma typing_shrinks_refl st : typing_shrinks st st.
Proof. by split_and!. Qed.

Lemma typing_shrinks_trans st1 st2 st3 :
  typing_shrinks st1 st2 → typing_shrinks st2 st3 → typing_shrinks st1 st3.
Proof.
  intros (Ht & Hn & Hk) (Ht' & Hn' & Hk'). split_and!; [congruence..|].
  intros k c H. by apply Hk, Hk'.
Qed.

Lemma timers_wf_shrinks st st' : typing_shrinks st st' → timers_wf st → timers_wf st'.
Proof.
  intros (Ht & Hn & Hk) [Hf Hc]. split; rewrite Ht, ?Hn; [done|].
  intros k [c H]. apply Hc. exists c. by apply Hk.
Qed.

Lemma handleDisconnection_shrinks ws st :
  typing_shrinks st (handleDisconnection castObjectId ws st).
Proof.
  destruct (ws_userId st ws) as [u|] eqn:Hu; cycle 1.
  { unfold handleDisconnection. rewrite Hu. apply typing_shrinks_refl. }
  destruct (decide (u = "")) as [->|Hne].
  { unfold handleDisconnection. rewrite Hu. apply typing_shrinks_refl. }
  rewrite (handleDisconnection_some castObjectId _ _ _ Hu Hne). cbn zeta.
  destruct (castObjectId u); (split_and!; [done..|]); simpl;
    intros k c H; by apply clearTyping_lookup_Some in H as [? _].
Qed.

Lemma emitClose_shrinks st c : typing_shrinks st (emitClose castObjectId st c).
Proof.
  unfold emitClose. destruct (sockets st !! c) as [w|]; [|apply typing_shrinks_refl].
  destruct (listening w); [|by split_and!].
  eapply typing_shrinks_trans; [|apply handleDisconnection_shrinks]. by split_and!.
Qed.

Lemma tick_shrinks st : typing_shrinks st (tick castObjectId st).
Proof.
  unfold tick.
  apply (foldl_preserves (λ s, typing_shrinks st s) (λ _, True)); [by apply Forall_true| |].
  - rewrite heartbeat_beat. by split_and!.
  - intros s c Hs _. eapply typing_shrinks_trans; [exact Hs | apply emitClose_shrinks].
Qed.

Lemma handleMessage_timers_wf ws data st :
  timers_wf st → timers_wf (handleMessage castObjectId ws data st).
Proof.
  intros Hwf.
  destruct data as [[chatId|chatId|chatId content mt fu fn fs|chatId|chatId|mid chatId|t]|];
    simpl.
  - apply (timers_wf_shrinks st); [|done]. unfold handleJoinRoom.
    repeat case_match; simplify_eq; rewrite ?sendToClient_frames; by split_and!.
  - apply (timers_wf_shrinks st); [|done]. unfold handleLeaveRoom.
    rewrite sendToClient_frames. split_and!; [done..|]. simpl.
    intros k c H. by apply lookup_delete_Some in H as [_ ?].
  - apply (timers_wf_shrinks st); [|done]. unfold handleSendMessage.
    repeat case_match; simplify_eq; rewrite ?sendToClient_frames, ?broadcastToChat_frames;
      (split_and!; [done..|]); simpl; try done.
    intros k c Hkc. by apply lookup_delete_Some in Hkc as [_ ?].
  - rewrite handleTypingStart_eq. destruct Hwf as [Hf Hc]. split; simpl.
    + apply Forall_app. split; [done|]. repeat constructor. simpl. lia.
    + intros k Hk. destruct (decide (k = typingKey st ws chatId)) as [->|Hne].
      * eexists. split; [apply elem_of_app; right; apply list_elem_of_here|done].
      * rewrite lookup_insert_ne in Hk by done. destruct (Hc k Hk) as (t & Ht & Hkt).
        exists t. split; [|done]. apply elem_of_app. by left.
  - apply (timers_wf_shrinks st); [|done]. unfold handleTypingStop.
    rewrite broadcastToChat_frames. split_and!; [done..|]. simpl.
    intros k c H. by apply lookup_delete_Some in H as [_ ?].
  - apply (timers_wf_shrinks st); [|done]. unfold handleMessageRead.
    repeat case_match; simplify_eq; rewrite ?broadcastToChat_frames; by split_and!.
  - done.
  - apply (timers_wf_shrinks st); [|done]. rewrite sendToClient_frames. by split_and!.
Qed.

Lemma typingTimeout_typing t st :
  timers (typingTimeout castObjectId t st) = timers st
  ∧ typingUsers (typingTimeout castObjectId t st) = delete (tm_key t) (typingUsers st).
Proof.
  unfold typingTimeout. case_bool_decide as H.
  - by rewrite broadcastToChat_frames.
  - split; [done|]. symmetry. apply delete_id.
    destruct (typingUsers st !! tm_key t) eqn:E; [|done]. exfalso. apply H. eauto.
Qed.

Lemma timeouts_typing (l : list Timer) st :
  timers (foldl (λ s t, typingTimeout castObjectId t (set_now (fireAt t) s)) st l) = timers st
  ∧ ∀ k c,
      typingUsers (foldl (λ s t, typingTimeout castObjectId t (set_now (fireAt t) s)) st l) !! k
      = Some c
      ↔ typingUsers st !! k = Some c ∧ ∀ t, t ∈ l → tm_key t ≠ k.
Proof.
  revert st. induction l as [|t l IH]; intros st; cbn [foldl].
  - split; [done|]. intros k c. split; [|by intros [? _]].
    intros H. split; [done|]. by intros t ?%elem_of_nil.
  - destruct (IH (typingTimeout castObjectId t (set_now (fireAt t) st))) as [Ht Hk].
    destruct (typingTimeout_typing t (set_now (fireAt t) st)) as [Et Ek].
    split; [by rewrite Ht, Et|].
    intros k c. rewrite Hk, Ek. simpl. rewrite lookup_delete_Some. split.
    + intros [[Hne Hm] Hl]. split; [done|].
      intros t' [->|?]%elem_of_cons; [done | by apply Hl].
    + intros [Hm Hl]. split_and!; [|done|].
      * apply Hl, list_elem_of_here.
      * intros t' Ht'. by apply Hl, list_elem_of_further.
Qed.

Lemma elapse_typing ms st :
  timers (elapse castObjectId ms st) = filter (λ t, ¬ (fireAt t ≤ now st + ms)%Z) (timers st)
  ∧ now (elapse castObjectId ms st) = (now st + ms)%Z
  ∧ ∀ k c, typingUsers (elapse castObjectId ms st) !! k = Some c
           ↔ typingUsers st !! k = Some c
             ∧ ∀ t, t ∈ timers st → (fireAt t ≤ now st + ms)%Z → tm_key t ≠ k.
Proof.
  unfold elapse. cbn [timers now typingUsers set_now].
  destruct (timeouts_typing (filter (λ t, (fireAt t ≤ now st + ms)%Z) (timers st))
              (set_timers (filter (λ t, ¬ (fireAt t ≤ now st + ms)%Z) (timers st)) st))
    as [Ht Hk].
  split_and!; [exact Ht | done |].
  intros k c. rewrite Hk. simpl. split; intros [Hm Hl]; (split; [done|]).
  - intros t Hin Hdue. apply Hl. by apply list_elem_of_filter.
  - intros t [Hdue Hin]%list_elem_of_filter. by apply Hl.
Qed.

Lemma elapse_timers_wf ms st :
  (0 ≤ ms)%Z → timers_wf st → timers_wf (elapse castObjectId ms st).
Proof.
  intros Hms [Hf Hc]. destruct (elapse_typing ms st) as (Et & En & Ek).
  split; rewrite Et, ?En.
  - apply Forall_forall. intros t [_ Hin]%list_elem_of_filter.
    rewrite Forall_forall in Hf. specialize (Hf t Hin). simpl in Hf. lia.
  - intros k [c H]. apply Ek in H as [Hm Hl].
    destruct (Hc k) as (t & Hin & Hkt); [eauto|].
    exists t. split; [|done]. apply list_elem_of_filter. split; [|done].
    intros Hdue. by apply (Hl t).
Qed.

(** A state in which every timer is due within 3000 ms and every claim has
    a timer is cleared of claims and timers by 3000 ms of silence. *)
Lemma elapse_clears st :
  timers_wf st →
  typingUsers (elapse castObjectId 3000 st) = ∅ ∧ timers (elapse castObjectId 3000 st) = [].
Proof.
  intros [Hf Hc]. destruct (elapse_typing 3000 st) as (Et & _ & Ek). split.
  - apply map_empty. intros k.
    destruct (typingUsers (elapse castObjectId 3000 st) !! k) as [c|] eqn:E; [|done].
    apply Ek in E as [Hm Hl]. destruct (Hc k) as (t & Hin & Hkt); [eauto|].
    exfalso. apply (Hl t); [done| |done].
    rewrite Forall_forall in Hf. by apply Hf.
  - rewrite Et. clear -Hf. induction Hf as [|t l Ht Hf IH]; [done|].
    rewrite filter_cons_False; [done|]. intros H. by apply H.
Qed.

Section MoreReachable.

Variable jwt_verify : string → option string.

Lemma onConnection_shrinks r req st :
  typing_shrinks st (onConnectionAt castObjectId jwt_verify r req st).
Proof.
  unfold onConnectionAt.
  destruct (negb _); [by split_and!|].
  destruct (_ ≫= jwt_verify) as [uid|]; [|by split_and!].
  destruct (User_findById _ _ uid) as [[user|]|]; [|by split_and!..].
  rewrite broadcastToUserChats_frames, sendToClient_frames. by split_and!.
Qed.

Lemma step_timers_wf st i :
  timers_wf st → timers_wf (step castObjectId jwt_verify st i).
Proof.
  intros Hwf. destruct i as [req|ws data|ws|ws| |ms|req closed]; simpl.
  - apply (timers_wf_shrinks st); [apply onConnection_shrinks | done].
  - repeat case_match; try done. by apply handleMessage_timers_wf.
  - apply (timers_wf_shrinks st); [|done]. unfold onPong.
    repeat case_match; by split_and!.
  - repeat case_match; try done.
    apply (timers_wf_shrinks st); [apply emitClose_shrinks | done].
  - apply (timers_wf_shrinks st); [apply tick_shrinks | done].
  - case_bool_decide; [by apply elapse_timers_wf | done].
  - apply (timers_wf_shrinks st); [apply onConnection_shrinks | done].
Qed.

(** X11: typing indicators cannot get stuck.  After any sequence of events,
    3000 ms without further events leave no typing claim and no pending
    timer. *)
Theorem typing_claims_expire s inputs :
  typingUsers (elapse castObjectId 3000 (run castObjectId jwt_verify (init s) inputs)) = ∅
  ∧ timers (elapse castObjectId 3000 (run castObjectId jwt_verify (init s) inputs)) = [].
Proof.
  apply elapse_clears. unfold run.
  apply (foldl_preserves timers_wf (λ _, True));
    [by apply Forall_true| |by intros st i Hst _; apply step_timers_wf].
  split; [apply Forall_nil_2|]. intros k [c H]. simpl in H. by rewrite lookup_empty in H.
Qed.

End MoreReachable.

(** ** Frames go to authenticated sockets only *)

Lemma good_outbox st ds :
  good st → Forall (λ d : Delivery, authenticated st d.1) ds →
  good (set_outbox (outbox st ++ ds) st).
Proof.
  intros (Hr & Hs & Ho) Hds. split_and!; [exact Hr | exact Hs |].
  simpl. apply Forall_app. split; [exact Ho | exact Hds].
Qed.

Lemma good_authenticated st uid c :
  good st → connectedUsers st !! uid = Some c → authenticated st c.
Proof.
  intros (Hr & Hs & _) Hc. apply Hr in Hc. unfold ws_userId in Hc.
  destruct (sockets st !! c) as [w|] eqn:Hw; [|done]. simpl in Hc.
  destruct (Hs c w Hw) as [_ Hn]. destruct Hn as [n Hn]; [by eauto|].
  by exists w, uid, n.
Qed.

Lemma deliver_authenticated st m p :
  good st → Forall (λ d : Delivery, authenticated st d.1) (deliver st m p).
Proof.
  intros Hg. destruct (deliver_cases st m p) as [->|(c & Hc & ->)]; [done|].
  repeat constructor. simpl. by eapply good_authenticated.
Qed.

Lemma bind_authenticated st m (l : list string) :
  good st → Forall (λ d : Delivery, authenticated st d.1) (l ≫= deliver st m).
Proof.
  intros Hg. apply Forall_forall. intros d (p & Hd & _)%list_elem_of_bind.
  pose proof (deliver_authenticated st m p Hg) as H. rewrite Forall_forall in H. by apply H.
Qed.

Lemma good_sendToClient ws m st :
  good st → (∀ w, sockets st !! ws = Some w → listening w = true) →
  good (sendToClient ws m st).
Proof.
  intros Hg Hl. rewrite sendToClient_frames. apply good_outbox; [done|].
  unfold frames. destruct (sockets st !! ws) as [w|] eqn:Hw; [|done].
  case_bool_decide; [|done]. repeat constructor. simpl.
  destruct Hg as (_ & Hs & _). destruct (Hs ws w Hw) as [Hb Hn].
  destruct Hb as [u Hu]; [by apply Hl|]. destruct Hn as [n Hn]; [by eauto|].
  by exists w, u, n.
Qed.

Lemma good_broadcastToChat chatId m e st :
  good st → good (broadcastToChat castObjectId chatId m e st).
Proof.
  intros Hg. rewrite broadcastToChat_frames. apply good_outbox; [done|].
  by apply bind_authenticated.
Qed.

Lemma good_broadcastToUserChats uid m st :
  good st → good (broadcastToUserChats castObjectId uid m st).
Proof.
  intros Hg. rewrite broadcastToUserChats_frames. apply good_outbox; [done|].
  by apply bind_authenticated.
Qed.

Lemma good_set_db v st : good st → good (set_db v st).
Proof. intros H. exact H. Qed.

Lemma good_set_typingUsers v st : good st → good (set_typingUsers v st).
Proof. intros H. exact H. Qed.

Lemma good_set_timers v st : good st → good (set_timers v st).
Proof. intros H. exact H. Qed.

Lemma good_set_now v st : good st → good (set_now v st).
Proof. intros H. exact H. Qed.

Lemma good_set_clients v st : good st → good (set_clients v st).
Proof. intros H. exact H. Qed.

(** A new socket table that is well formed and keeps every binding. *)
Lemma good_set_sockets S' st :
  good st →
  (∀ c w', S' !! c = Some w' → socket_wf w') →
  (∀ c w u, sockets st !! c = Some w → userId w = Some u →
            ∃ w', S' !! c = Some w' ∧ userId w' = Some u) →
  good (set_sockets S' st).
Proof.
  intros (Hr & Hs & Ho) Hwf Hkeep. split_and!.
  - intros uid c Hc. apply Hr in Hc. unfold ws_userId in *. simpl.
    destruct (sockets st !! c) as [w|] eqn:Hw; [|done]. simpl in Hc.
    destruct (Hkeep c w uid Hw Hc) as (w' & -> & Hu). done.
  - exact Hwf.
  - simpl. eapply Forall_impl; [exact Ho|]. intros d (w & u & n & Hw & Hu & _).
    destruct (Hkeep _ w u Hw Hu) as (w' & Hw' & Hu').
    destruct (Hwf _ w' Hw') as [_ Hn]. destruct Hn as [n' Hn']; [by eauto|].
    by exists w', u, n'.
Qed.

Lemma good_alter f c st :
  good st →
  (∀ w, sockets st !! c = Some w →
        socket_wf (f w) ∧ ∀ u, userId w = Some u → userId (f w) = Some u) →
  good (set_sockets (alter f c (sockets st)) st).
Proof.
  intros Hg Hf. pose proof Hg as (_ & Hs & _). apply good_set_sockets; [done|..].
  - intros c' w'. destruct (decide (c' = c)) as [->|Hne].
    + rewrite lookup_alter_eq. destruct (sockets st !! c) as [w|] eqn:Hw; [|done].
      intros [= <-]. by apply Hf.
    + rewrite lookup_alter_ne by done. apply Hs.
  - intros c' w u Hw Hu. destruct (decide (c' = c)) as [->|Hne].
    + rewrite lookup_alter_eq, Hw. eexists. split; [done|]. by apply Hf.
    + rewrite lookup_alter_ne by done. eauto.
Qed.

Lemma good_insert c w' st :
  good st → socket_wf w' →
  (∀ w u, sockets st !! c = Some w → userId w = Some u → userId w' = Some u) →
  good (set_sockets (<[c := w']> (sockets st)) st).
Proof.
  intros Hg Hw' Hk. pose proof Hg as (_ & Hs & _). apply good_set_sockets; [done|..].
  - intros c' w''. destruct (decide (c' = c)) as [->|Hne].
    + rewrite lookup_insert_eq. by intros [= <-].
    + rewrite lookup_insert_ne by done. apply Hs.
  - intros c' w u Hw Hu. destruct (decide (c' = c)) as [->|Hne].
    + rewrite lookup_insert_eq. eexists. split; [done|]. by eapply Hk.
    + rewrite lookup_insert_ne by done. eauto.
Qed.

Lemma good_closing c st : good st → good (set_sockets (alter closing c (sockets st)) st).
Proof.
  intros Hg. apply good_alter; [done|]. intros w Hw.
  destruct Hg as (_ & Hs & _). specialize (Hs c w Hw). unfold closing.
  case_bool_decide; [done|]. by destruct w.
Qed.

Lemma good_delete u st : good st → good (set_connectedUsers (delete u (connectedUsers st)) st).
Proof.
  intros (Hr & Hs & Ho). split_and!; [|exact Hs|exact Ho].
  intros uid c Hc. simpl in Hc. apply lookup_delete_Some in Hc as [_ Hc]. by apply Hr.
Qed.

Lemma good_handleDisconnection ws st :
  good st → good (handleDisconnection castObjectId ws st).
Proof.
  intros Hg. unfold handleDisconnection.
  repeat case_match; simplify_eq;
    repeat first [ done | apply good_broadcastToUserChats | apply good_set_db
                 | apply good_set_typingUsers | apply good_delete ].
Qed.

Lemma good_emitClose st c : good st → good (emitClose castObjectId st c).
Proof.
  intros Hg. unfold emitClose. destruct (sockets st !! c) as [w|] eqn:Hw; [|done].
  assert (good (set_clients (filter (λ c0, c0 ≠ c) (clients st))
                  (set_sockets (<[c := set_readyState CLOSED w]> (sockets st)) st))) as H1.
  { apply good_set_clients, good_insert; [done| |].
    - destruct Hg as (_ & Hs & _). specialize (Hs c w Hw). by destruct w.
    - intros w0 u Hw0 Hu. by simplify_eq. }
  destruct (listening w); [by apply good_handleDisconnection | done].
Qed.

Lemma good_heartbeat st : good st → good (heartbeat st).
Proof.
  intros Hg. unfold heartbeat.
  apply (foldl_preserves good (λ _, True)); [by apply Forall_true | done |].
  intros s c Hs _. unfold heartbeat_each. destruct (sockets s !! c) as [w|] eqn:Hw; [|done].
  case_bool_decide.
  - by apply good_closing.
  - apply good_insert; [done| |].
    + destruct Hs as (_ & Hs & _). specialize (Hs c w Hw). by destruct w.
    + intros w0 u Hw0 Hu. by simplify_eq.
Qed.

Lemma good_tick st : good st → good (tick castObjectId st).
Proof.
  intros Hg. unfold tick.
  apply (foldl_preserves good (λ _, True));
    [by apply Forall_true | by apply good_heartbeat | by intros s c Hs _; apply good_emitClose].
Qed.

Lemma good_onPong ws st : good st → good (onPong ws st).
Proof.
  intros Hg. unfold onPong. destruct (sockets st !! ws) as [w|] eqn:Hw; [|done].
  destruct (listening w) eqn:Hl; [|done]. apply good_insert; [done| |].
  - destruct Hg as (_ & Hs & _). specialize (Hs ws w Hw). by destruct w.
  - intros w0 u Hw0 Hu. by simplify_eq.
Qed.

Lemma good_typingTimeout t st : good st → good (typingTimeout castObjectId t st).
Proof.
  intros Hg. unfold typingTimeout. case_bool_decide; [|done].
  by apply good_broadcastToChat, good_set_typingUsers.
Qed.

Lemma good_elapse ms st : good st → good (elapse castObjectId ms st).
Proof.
  intros Hg. unfold elapse. apply good_set_now.
  apply (foldl_preserves good (λ _, True)); [by apply Forall_true | by apply good_set_timers |].
  intros s t Hs _. by apply good_typingTimeout, good_set_now.
Qed.

Lemma good_handleMessage ws data st w :
  good st → sockets st !! ws = Some w → listening w = true →
  good (handleMessage castObjectId ws data st).
Proof.
  intros Hg Hw Hl.
  assert (∀ s, good s → sockets s = sockets st → ∀ m, good (sendToClient ws m s)) as Hsend.
  { intros s Hs Heq m. apply good_sendToClient; [done|]. intros w0. rewrite Heq, Hw. by intros [= <-]. }
  unfold handleMessage, handleJoinRoom, handleLeaveRoom, handleSendMessage, handleTypingStart,
    handleTypingStop, handleMessageRead.
  repeat case_match; simplify_eq;
    repeat first [ done | apply good_broadcastToChat | apply good_set_db
                 | apply good_set_typingUsers | apply good_set_timers
                 | apply Hsend; [|reflexivity] ].
Qed.

Section Safety.

Variable jwt_verify : string → option string.

Lemma good_onConnection r req st :
  good st → good (onConnectionAt castObjectId jwt_verify r req st).
Proof.
  intros Hg. unfold onConnectionAt.
  set (ws := fresh (dom (sockets st))).
  set (cs := if bool_decide (r = CLOSED) then clients st else clients st ++ [ws]).
  assert (sockets st !! ws = None) as Hfresh.
  { apply not_elem_of_dom. apply is_fresh. }
  assert (good (set_clients cs
                  (set_sockets (<[ws := mkWs None None None r false]> (sockets st)) st))) as HA.
  { apply good_set_clients, good_insert; [done| |].
    - split; simpl; [done|]. by intros [? ?].
    - intros w u Hw. by rewrite Hfresh in Hw. }
  assert (∀ s, good s → good (ws_close ws s)) as Hclose.
  { intros s Hs. by apply good_closing. }
  destruct (negb _); [by apply Hclose|].
  destruct (_ ≫= jwt_verify) as [uid|]; [|by apply Hclose].
  destruct (User_findById _ _ uid) as [[user|]|]; [|by apply Hclose..].
  set (bound := mkWs (Some uid) (Some (User.username user)) (Some true) r false).
  apply good_broadcastToUserChats.
  match goal with |- good (sendToClient _ _ (set_sockets _ ?s3)) => set (st3 := s3) end.
  assert (good st3) as HB.
  { unfold st3. apply good_set_db.
    match goal with |- good (set_connectedUsers _ ?s) => assert (good s) as HC end.
    { apply good_insert; [done| |].
      - split; simpl; eauto.
      - simpl. intros w u. rewrite lookup_insert_eq. by intros [= <-]. }
    destruct HC as (Hr & Hs & Ho). split_and!; [|exact Hs|exact Ho].
    intros u c. simpl. destruct (decide (u = uid)) as [->|Hne].
    - rewrite lookup_insert_eq. intros [= <-]. unfold ws_userId. simpl.
      by rewrite lookup_insert_eq.
    - rewrite lookup_insert_ne by done. intros Hc. by apply Hr in Hc. }
  assert (sockets st3 !! ws = Some bound) as Hws.
  { unfold st3. simpl. by rewrite lookup_insert_eq. }
  apply good_sendToClient.
  - apply good_alter; [done|]. intros w. rewrite Hws. intros [= <-].
    split; [|done]. split; simpl; eauto.
  - intros w. cbn [sockets set_sockets]. rewrite lookup_alter_eq, Hws. by intros [= <-].
Qed.

Lemma good_step st i : good st → good (step castObjectId jwt_verify st i).
Proof.
  intros Hg. destruct i as [req|ws data|ws|ws| |ms|req closed]; simpl.
  - by apply good_onConnection.
  - destruct (sockets st !! ws) as [w|] eqn:Hw; [|done].
    destruct (listening w) eqn:Hl; [|done]. simpl.
    case_bool_decide; [|done]. by eapply good_handleMessage.
  - by apply good_onPong.
  - destruct (sockets st !! ws) as [w|]; [|done].
    case_bool_decide; [|done]. by apply good_emitClose.
  - by apply good_tick.
  - case_bool_decide; [|done]. by apply good_elapse.
  - by apply good_onConnection.
Qed.

Lemma good_run s inputs : good (run castObjectId jwt_verify (init s) inputs).
Proof.
  unfold run.
  apply (foldl_preserves good (λ _, True));
    [by apply Forall_true | | by intros st i Hst _; apply good_step].
  split_and!; [by intros uid c Hc | by intros c w Hw | by apply Forall_nil_2].
Qed.

(** X12: the hub never writes to a socket that did not pass the connection
    handler.  After any sequence of events, every frame written so far was
    addressed to a socket bound to a user identity and a user name. *)
Theorem frames_only_to_authenticated s inputs c m :
  (c, m) ∈ outbox (run castObjectId jwt_verify (init s) inputs) →
  ∃ w u n, sockets (run castObjectId jwt_verify (init s) inputs) !! c = Some w
           ∧ userId w = Some u ∧ username w = Some n.
Proof.
  intros Hin. destruct (good_run s inputs) as (_ & _ & Ho).
  rewrite Forall_forall in Ho. exact (Ho _ Hin).
Qed.

Section Listing.

Variable toString : ConnId → string.

(** X13: in every reachable state [getConnectedUsers] lists each connected
    identity once, as many entries as [getOnlineCount] counts, and the
    [ws.username!] of every entry is defined. *)
Theorem getConnectedUsers_reachable s inputs :
  let st := run castObjectId jwt_verify (init s) inputs in
  length (getConnectedUsers toString st) = getOnlineCount st
  ∧ NoDup (map ConnectedUser.userId (getConnectedUsers toString st))
  ∧ (∀ uid, uid ∈ map ConnectedUser.userId (getConnectedUsers toString st)
            ↔ is_Some (connectedUsers st !! uid))
  ∧ Forall (λ e, is_Some (ConnectedUser.username e)) (getConnectedUsers toString st).
Proof.
  intros st. pose proof (good_run s inputs) as Hg. fold st in Hg. clearbody st.
  assert (map ConnectedUser.userId (getConnectedUsers toString st)
          = (map_to_list (connectedUsers st)).*1) as Hids.
  { unfold getConnectedUsers. induction (map_to_list (connectedUsers st)) as [|kv l IH]; [done|].
    simpl. by rewrite IH. }
  rewrite Hids. split_and!.
  - unfold getConnectedUsers, getOnlineCount. by rewrite length_map, length_map_to_list.
  - apply NoDup_fst_map_to_list.
  - intros uid. rewrite list_elem_of_fmap. split.
    + intros ([k c] & -> & Hin). apply elem_of_map_to_list in Hin. simpl. eauto.
    + intros [c Hc]. exists (uid, c). split; [done|]. by apply elem_of_map_to_list.
  - unfold getConnectedUsers.
    assert (∀ l : list (string * ConnId),
              (∀ k c, (k, c) ∈ l → connectedUsers st !! k = Some c) →
              Forall (λ e, is_Some (ConnectedUser.username e))
                (map (λ kv, ConnectedUser.mk kv.1 (ws_username st kv.2) (toString kv.2) (now st))
                   l)) as Hall.
    { induction l as [|[k c] l IH]; intros Hl; simpl; constructor.
      - simpl. destruct (good_authenticated st k c Hg) as (w & u & n & Hw & Hu & Hn).
        { apply Hl, list_elem_of_here. }
        unfold ws_username. rewrite Hw. simpl. eauto.
      - apply IH. intros k' c' Hin. by apply Hl, list_elem_of_further. }
    apply Hall. intros k c Hin. by apply elem_of_map_to_list.
Qed.

End Listing.

End Safety.

(** ** Upgrade requests *)

Section Upgrade.

Variable jwt_verify : string → option string.

Lemma ws_close_fresh r cs st :
  ws_close (fresh (dom (sockets st)))
    (set_clients cs
       (set_sockets (<[fresh (dom (sockets st)) := mkWs None None None r false]> (sockets st))
          st))
  = set_clients cs
      (set_sockets
         (<[fresh (dom (sockets st)) :=
              mkWs None None None (if bool_decide (r = CLOSED) then CLOSED else CLOSING) false]>
            (sockets st))
         st).
Proof.
  unfold ws_close. simpl. unfold set_sockets, set_clients. simpl. f_equal.
  rewrite alter_insert_eq. unfold closing. simpl. by destruct r.
Qed.

(** The state after a request that is refused. *)
Lemma onConnectionAt_refused r req st :
  (∀ tok uid u, request_token req = Some tok → tok ≠ "" → jwt_verify tok = Some uid →
                User_findById castObjectId (db st) uid ≠ Ok (Some u)) →
  onConnectionAt castObjectId jwt_verify r req st
  = set_clients (if bool_decide (r = CLOSED) then clients st
                 else clients st ++ [fresh (dom (sockets st))])
      (set_sockets
         (<[fresh (dom (sockets st)) :=
              mkWs None None None (if bool_decide (r = CLOSED) then CLOSED else CLOSING) false]>
            (sockets st))
         st).
Proof.
  intros Hno. rewrite <- ws_close_fresh. unfold onConnectionAt.
  fold (request_token req).
  destruct (truthy (request_token req)) eqn:Ht; [|done]. simpl.
  destruct (request_token req) as [tok|] eqn:Htok; [|done].
  simpl. destruct (jwt_verify tok) as [uid|] eqn:Hv; [|done].
  destruct (User_findById castObjectId (db st) uid) as [[u|]|] eqn:Hu; [|done..].
  exfalso. apply (Hno tok uid u); [done| |done..].
  simpl in Ht. by apply bool_decide_eq_true in Ht.
Qed.

(** X14: an upgrade request is refused unless it carries a non-empty token
    that verifies and names a stored user.  A refused request leaves the
    registry, the store, the typing claims and the frames written as they
    were; its socket is closing, has no identity and no listeners, and
    whatever it sends afterwards is ignored. *)
Theorem onConnection_rejected req st :
  (∀ tok uid u, request_token req = Some tok → tok ≠ "" → jwt_verify tok = Some uid →
                User_findById castObjectId (db st) uid ≠ Ok (Some u)) →
  let ws := fresh (dom (sockets st)) in
  let st' := onConnection castObjectId jwt_verify req st in
  st' = set_clients (clients st ++ [ws])
          (set_sockets (<[ws := mkWs None None None CLOSING false]> (sockets st)) st)
  ∧ ∀ data, step castObjectId jwt_verify st' (Frame ws data) = st'.
Proof.
  intros Hno ws st'.
  assert (st' = set_clients (clients st ++ [ws])
                  (set_sockets (<[ws := mkWs None None None CLOSING false]> (sockets st)) st))
    as ->.
  { unfold st', onConnection. by rewrite (onConnectionAt_refused OPEN req st Hno). }
  split; [done|]. intros data. simpl. by rewrite lookup_insert_eq.
Qed.

(** The state after a request that is accepted. *)
Lemma onConnectionAt_ok r req tok uid u st :
  request_token req = Some tok → tok ≠ "" → jwt_verify tok = Some uid →
  User_findById castObjectId (db st) uid = Ok (Some u) →
  let ws := fresh (dom (sockets st)) in
  let st4 :=
    set_sockets
      (<[ws := mkWs (Some uid) (Some (User.username u)) (Some true) r true]> (sockets st))
      (set_db (User_setPresence (db st) uid true (now st))
         (set_connectedUsers (<[uid := ws]> (connectedUsers st))
            (set_clients (if bool_decide (r = CLOSED) then clients st else clients st ++ [ws])
               st))) in
  onConnectionAt castObjectId jwt_verify r req st
  = set_outbox
      (outbox st
       ++ (if bool_decide (r = OPEN)
           then [(ws, mkMsg "connection" (P_connection "Connected successfully" uid (now st)))]
           else [])
       ++ userRoomsFrames castObjectId st4 uid
            (presence_event "user_online" uid (Some (User.username u)) (now st)))
      st4.
Proof.
  intros Htok Hne Hv Hu ws st4. unfold onConnectionAt. fold (request_token req).
  rewrite Htok. simpl. rewrite bool_decide_eq_true_2 by done. simpl. rewrite Hv, Hu.
  fold ws. rewrite broadcastToUserChats_frames, sendToClient_frames.
  rewrite insert_insert_eq.
  unfold frames. simpl. rewrite alter_insert_eq, lookup_insert_eq. simpl.
  rewrite <- app_assoc. subst st4. clear. destruct st. reflexivity.
Qed.

Lemma fresh_unbound st : ws_userId st (fresh (dom (sockets st))) = None.
Proof.
  unfold ws_userId. replace (sockets st !! fresh (dom (sockets st))) with (@None ExtendedWebSocket); [done|].
  symmetry. apply not_elem_of_dom, is_fresh.
Qed.

Lemma online_frames st st3 uid m ws :
  registry_wf st → ws = fresh (dom (sockets st)) →
  db st3 = User_setPresence (db st) uid true (now st) →
  connectedUsers st3 = <[uid := ws]> (connectedUsers st) →
  Forall (λ d : Delivery, d.1 ≠ ws ∧ d.2 = m ∧ ws_userId st d.1 ≠ Some uid)
    (userRoomsFrames castObjectId st3 uid m).
Proof.
  intros Hr -> Hdb Hreg. apply Forall_forall. intros d (p & Hd & Hp)%list_elem_of_bind.
  assert (p ≠ uid) as Hne.
  { intros ->. by apply (userRoomsRecipients_not_self castObjectId st3 uid). }
  destruct (deliver_cases st3 m p) as [E|(c & Hc & E)]; rewrite E in Hd.
  { by apply elem_of_nil in Hd. }
  apply list_elem_of_singleton in Hd as ->. simpl.
  rewrite Hreg, lookup_insert_ne in Hc by done. apply Hr in Hc. split_and!; [|done|].
  - intros ->. by rewrite fresh_unbound in Hc.
  - rewrite Hc. by intros [= ->].
Qed.

Lemma onConnectionAt_accepted r req tok uid u st :
  request_token req = Some tok → tok ≠ "" → jwt_verify tok = Some uid →
  User_findById castObjectId (db st) uid = Ok (Some u) →
  registry_wf st →
  let ws := fresh (dom (sockets st)) in
  let st' := onConnectionAt castObjectId jwt_verify r req st in
  connectedUsers st' = <[uid := ws]> (connectedUsers st)
  ∧ sockets st'
    = <[ws := mkWs (Some uid) (Some (User.username u)) (Some true) r true]> (sockets st)
  ∧ clients st' = (if bool_decide (r = CLOSED) then clients st else clients st ++ [ws])
  ∧ db st' = User_setPresence (db st) uid true (now st)
  ∧ getOnlineCount st'
    = (if decide (is_Some (connectedUsers st !! uid)) then getOnlineCount st
       else S (getOnlineCount st))
  ∧ ∃ ds,
      outbox st'
      = outbox st
        ++ (if bool_decide (r = OPEN)
            then [(ws, mkMsg "connection" (P_connection "Connected successfully" uid (now st)))]
            else [])
        ++ ds
      ∧ Forall (λ d : Delivery,
                  d.1 ≠ ws
                  ∧ d.2 = presence_event "user_online" uid (Some (User.username u)) (now st)
                  ∧ ws_userId st d.1 ≠ Some uid) ds.
Proof.
  intros Htok Hne Hv Hu Hr ws st'. unfold st'.
  rewrite (onConnectionAt_ok r req tok uid u st Htok Hne Hv Hu). cbn zeta. fold ws.
  split_and!; try reflexivity.
  - unfold getOnlineCount. simpl. case_decide as Hs.
    + destruct Hs as [c Hc]. by apply map_size_insert_Some.
    + rewrite map_size_insert_None; [done|]. by apply eq_None_not_Some.
  - eexists. split; [reflexivity|]. by apply online_frames.
Qed.

(** X15: an upgrade request with a non-empty token that verifies and names a
    stored user binds the new socket to that user, registers it under the
    user's identity in place of whatever was registered, and marks the user
    online, whether the socket is still open when the listener goes on
    after its awaits, or closing, or closed.  The welcome frame is written
    only to a socket that is still open, and before the presence frames,
    which go to sockets of other users.  The online count grows by one
    unless the identity was registered already. *)
Theorem onConnection_accepted r req tok uid u st :
  request_token req = Some tok → tok ≠ "" → jwt_verify tok = Some uid →
  User_findById castObjectId (db st) uid = Ok (Some u) →
  registry_wf st →
  let ws := fresh (dom (sockets st)) in
  let st' := onConnectionAt castObjectId jwt_verify r req st in
  connectedUsers st' = <[uid := ws]> (connectedUsers st)
  ∧ sockets st'
    = <[ws := mkWs (Some uid) (Some (User.username u)) (Some true) r true]> (sockets st)
  ∧ clients st' = (if bool_decide (r = CLOSED) then clients st else clients st ++ [ws])
  ∧ db st' = User_setPresence (db st) uid true (now st)
  ∧ getOnlineCount st'
    = (if decide (is_Some (connectedUsers st !! uid)) then getOnlineCount st
       else S (getOnlineCount st))
  ∧ ∃ ds,
      outbox st'
      = outbox st
        ++ (if bool_decide (r = OPEN)
            then [(ws, mkMsg "connection" (P_connection "Connected successfully" uid (now st)))]
            else [])
        ++ ds
      ∧ Forall (λ d : Delivery,
                  d.1 ≠ ws
                  ∧ d.2 = presence_event "user_online" uid (Some (User.username u)) (now st)
                  ∧ ws_userId st d.1 ≠ Some uid) ds.
Proof. exact (onConnectionAt_accepted r req tok uid u st). Qed.

(** X16: a second connection of a user supersedes the first in the registry
    and nothing else: the socket registered before is left as it was, open
    and with its listeners, it stays in [wss.clients], it is sent no frame,
    and the online count does not change. *)
Theorem reconnect_leaves_old_socket req tok uid u old st :
  request_token req = Some tok → tok ≠ "" → jwt_verify tok = Some uid →
  User_findById castObjectId (db st) uid = Ok (Some u) →
  registry_wf st → connectedUsers st !! uid = Some old →
  let ws := fresh (dom (sockets st)) in
  let st' := onConnection castObjectId jwt_verify req st in
  ws ≠ old
  ∧ connectedUsers st' !! uid = Some ws
  ∧ sockets st' !! old = sockets st !! old
  ∧ (old ∈ clients st → old ∈ clients st')
  ∧ getOnlineCount st' = getOnlineCount st
  ∧ ∃ ds, outbox st' = outbox st ++ ds ∧ Forall (λ d : Delivery, d.1 ≠ old) ds.
Proof.
  intros Htok Hne Hv Hu Hr Hold ws st'.
  destruct (onConnectionAt_accepted OPEN req tok uid u st Htok Hne Hv Hu Hr)
    as (Hreg & Hs & Hc & _ & Hn & ds & Ho & Hds).
  fold (onConnection castObjectId jwt_verify req st) in Hreg, Hs, Hc, Hn, Ho.
  fold ws in Hreg, Hs, Hc, Ho, Hds. fold st' in Hreg, Hs, Hc, Hn, Ho.
  assert (ws ≠ old) as Hwo.
  { intros E. apply Hr in Hold. rewrite <- E in Hold. unfold ws in Hold.
    by rewrite fresh_unbound in Hold. }
  split_and!; [done| | | | |].
  - by rewrite Hreg, lookup_insert_eq.
  - by rewrite Hs, lookup_insert_ne.
  - intros Hin. rewrite Hc. apply elem_of_app. by left.
  - rewrite Hn. by rewrite decide_True by eauto.
  - eexists. split; [exact Ho|]. apply Forall_app. split.
    + repeat constructor. simpl. done.
    + eapply Forall_impl; [exact Hds|]. intros d (_ & _ & Hd) E. apply Hd. rewrite E.
      by apply Hr.
Qed.

Lemma split_space_app scheme rest :
  no_space scheme = true → split_space (scheme +:+ " " +:+ rest) = (scheme, Some rest).
Proof.
  induction scheme as [|a scheme IH]; intros Hs; simpl in *; [done|].
  apply andb_true_iff in Hs as [Ha Hs]. apply negb_true_iff in Ha. rewrite Ha.
  by rewrite (IH Hs).
Qed.

Lemma split_space_no_space tok : no_space tok = true → split_space tok = (tok, None).
Proof.
  induction tok as [|a tok IH]; intros Hs; simpl in *; [done|].
  apply andb_true_iff in Hs as [Ha Hs]. apply negb_true_iff in Ha. rewrite Ha.
  by rewrite (IH Hs).
Qed.

(** X17: the connection handler reads the second word of the
    [authorization] header whatever the first word is: a request is treated
    as the same request with the scheme [Bearer]. *)
Theorem onConnection_ignores_scheme scheme rest param st :
  no_space scheme = true →
  onConnection castObjectId jwt_verify (mkRequest param (Some (scheme +:+ " " +:+ rest))) st
  = onConnection castObjectId jwt_verify (mkRequest param (Some ("Bearer " +:+ rest))) st.
Proof.
  intros Hs. unfold onConnection, onConnectionAt. simpl authorization. simpl token_param.
  assert (split_1 (scheme +:+ " " +:+ rest) = split_1 ("Bearer " +:+ rest)) as E.
  { unfold split_1. rewrite (split_space_app scheme rest Hs).
    change ("Bearer " +:+ rest) with ("Bearer" +:+ " " +:+ rest).
    by rewrite (split_space_app "Bearer" rest). }
  cbn [mbind option_bind]. by rewrite E.
Qed.

Lemma substring_all s : String.substring 0 (String.length s) s = s.
Proof. induction s as [|a s IH]; simpl; [done|]. by rewrite IH. Qed.

Lemma prefix_substring p h :
  String.prefix p h = true →
  h = p +:+ String.substring (String.length p) (String.length h - String.length p) h.
Proof.
  revert h. induction p as [|a p IH]; intros h Hp.
  - simpl. by rewrite Nat.sub_0_r, substring_all.
  - destruct h as [|b h]; [discriminate Hp|]. simpl in Hp.
    destruct (ascii_dec a b) as [<-|]; [|discriminate Hp].
    simpl.
    match goal with
    | |- _ = String a p +:+ ?x => change (String a p +:+ x) with (String a (p +:+ x))
    end.
    f_equal. by apply IH.
Qed.

Lemma bearer_Some h tok : bearer h = Some tok → h = Some ("Bearer " +:+ tok).
Proof.
  unfold bearer. destruct h as [h|]; [|discriminate]. cbn [mbind option_bind].
  destruct (String.prefix "Bearer " h) eqn:Hp; [|discriminate]. intros [= <-].
  f_equal. exact (prefix_substring "Bearer " h Hp).
Qed.

(** X18: the credential that the REST middleware accepts opens a socket for
    the same user.  If [authenticate] lets a request through as the user
    [uid] and its token is not empty and has no space, then an upgrade
    request that carries the same [Authorization] header and no [token]
    parameter is accepted, and its socket is bound to [uid] and registered
    for [uid]. *)
Theorem authenticate_then_upgrade h tok uid u st :
  authenticate castObjectId jwt_verify h (db st) = Some (uid, u) →
  bearer h = Some tok → tok ≠ "" → no_space tok = true →
  let ws := fresh (dom (sockets st)) in
  let st' := onConnection castObjectId jwt_verify (mkRequest None h) st in
  connectedUsers st' !! uid = Some ws
  ∧ sockets st' !! ws = Some (mkWs (Some uid) (Some (User.username u)) (Some true) OPEN true)
  ∧ (ws, mkMsg "connection" (P_connection "Connected successfully" uid (now st)))
    ∈ outbox st'.
Proof.
  intros Ha Hb Hne Hs ws st'. unfold authenticate in Ha. rewrite Hb in Ha.
  destruct (jwt_verify tok) as [uid'|] eqn:Hv; [|done].
  destruct (User_findById castObjectId (db st) uid') as [[u'|]|] eqn:Hu; [|done..].
  simplify_eq. apply bearer_Some in Hb as ->.
  assert (request_token (mkRequest None (Some ("Bearer " +:+ tok))) = Some tok) as Htok.
  { unfold request_token. simpl. unfold split_1.
    change ("Bearer " +:+ tok) with ("Bearer" +:+ " " +:+ tok).
    rewrite (split_space_app "Bearer" tok) by done. simpl.
    by rewrite (split_space_no_space tok Hs). }
  unfold st', onConnection.
  rewrite (onConnectionAt_ok OPEN _ tok uid u st Htok Hne Hv Hu). cbn zeta. fold ws.
  simpl. rewrite !lookup_insert_eq. split_and!; [done..|].
  apply elem_of_app. right. apply list_elem_of_here.
Qed.

End Upgrade.

(** ** The message routes and the hub *)

Lemma db_broadcastToChat chatId m e st : db (broadcastToChat castObjectId chatId m e st) = db st.
Proof. by rewrite broadcastToChat_frames. Qed.

Lemma db_sendToClient ws m st : db (sendToClient ws m st) = db st.
Proof. by rewrite sendToClient_frames. Qed.

(** X20: a message sent over REST and the same message sent over the socket
    of the same user leave the same store, whatever the outcome: both check
    membership, both run the validators of the message, and both keep the
    message when saving the chat fails. *)
Theorem post_message_agrees ws uid chatId content messageType fileUrl fileName fileSize st :
  ws_userId st ws = Some uid → castObjectId "" = false →
  (post_message castObjectId uid (Some chatId) (Some content) messageType fileUrl fileName
     fileSize (db st)).2
  = db (handleSendMessage castObjectId ws chatId content messageType fileUrl fileName fileSize st).
Proof.
  intros Hu Hempty. unfold post_message, handleSendMessage. rewrite Hu. simpl.
  destruct (decide (chatId = "")) as [->|Hc].
  { simpl. unfold Chat_findOne. rewrite Hempty. by rewrite db_sendToClient. }
  rewrite (bool_decide_eq_true_2 (chatId ≠ "")) by done. simpl.
  destruct (decide (content = "")) as [->|Hn].
  { simpl. destruct (Chat_findOne castObjectId (db st) chatId (Some uid)) as [[chat|]|];
      rewrite ?db_sendToClient; done. }
  rewrite (bool_decide_eq_true_2 (content ≠ "")) by done. simpl.
  destruct (Chat_findOne castObjectId (db st) chatId (Some uid)) as [[chat|]|];
    rewrite ?db_sendToClient; try done.
  destruct (Message_save _ _ _) as [[[_id m'] s1]|]; rewrite ?db_sendToClient; try done.
  destruct (Chat_save _ _ _) as [s2|]; rewrite ?db_sendToClient; try done.
  rewrite db_broadcastToChat. simpl. by rewrite db_broadcastToChat.
Qed.

(** X21: the REST route for read receipts records a receipt only for a
    participant of the message's chat, and then leaves the store that the
    hub leaves for the same reader; for anyone else it answers 403 and
    changes nothing, where the hub records the receipt. *)
Theorem post_read_gate ws uid id chatId m st :
  ws_userId st ws = Some uid → castObjectId uid = true →
  castObjectId id = true → messages (db st) !! id = Some m →
  castObjectId (Message.chat m) = true →
  post_read castObjectId uid id (now st) (db st)
  = match chats (db st) !! Message.chat m with
    | Some chat =>
        if bool_decide (uid ∈ Chat.participants chat)
        then (200, db (handleMessageRead castObjectId ws id chatId st))
        else (403, db st)
    | None => (403, db st)
    end.
Proof.
  intros Hu Hcu Hci Hm Hcc. unfold post_read, handleMessageRead, Message_findById, Chat_findOne.
  rewrite Hci, Hm, Hcc, Hcu, Hu. simpl.
  destruct (chats (db st) !! Message.chat m) as [chat|]; simpl; [|done].
  case_bool_decide; [|done].
  rewrite Hcu. destruct (alreadyRead (Some uid) m); by rewrite db_broadcastToChat.
Qed.

(** X22: the delete route removes a message only for its sender and touches
    nothing else in the store; a chat whose [lastMessage] is the deleted
    message keeps that reference, which then resolves to nothing. *)
Theorem delete_message_sound uid id s :
  let r := delete_message castObjectId uid id s in
  users r.2 = users s ∧ chats r.2 = chats s
  ∧ (∀ k, k ≠ id → messages r.2 !! k = messages s !! k)
  ∧ (r.1 = 200 ↔ castObjectId id = true
                  ∧ ∃ m, messages s !! id = Some m ∧ Message.sender m = Some uid)
  ∧ (r.1 = 200 → messages r.2 !! id = None ∧ Message_populated r.2 id = None)
  ∧ (r.1 ≠ 200 → r.2 = s).
Proof.
  unfold delete_message, Message_findOne, Message_findByIdAndDelete.
  destruct (castObjectId id); simpl; [|split_and!; try done; naive_solver].
  destruct (messages s !! id) as [m|] eqn:Hm; simpl; [|split_and!; try done; naive_solver].
  case_bool_decide as Hs; simpl.
  - split_and!; try done.
    + intros k Hk. by rewrite lookup_delete_ne.
    + naive_solver.
    + intros _. unfold Message_populated. simpl. by rewrite lookup_delete_eq.
  - split_and!; try done. split; [done|]. intros [_ (m' & [= <-] & Hs')]. done.
Qed.

(** ** What the hub never does to the store *)

Lemma store_grows_refl s : store_grows s s.
Proof.
  split_and!.
  - intros k. by destruct (users s !! k).
  - intros k. by destruct (chats s !! k).
  - intros k m Hm. by exists m.
Qed.

Lemma store_grows_trans s1 s2 s3 : store_grows s1 s2 → store_grows s2 s3 → store_grows s1 s3.
Proof.
  intros (Hu & Hc & Hm) (Hu' & Hc' & Hm'). split_and!.
  - intros k. specialize (Hu k). specialize (Hu' k).
    destruct (users s1 !! k), (users s2 !! k), (users s3 !! k); try done.
    destruct Hu, Hu'. split; congruence.
  - intros k. specialize (Hc k). specialize (Hc' k).
    destruct (chats s1 !! k), (chats s2 !! k), (chats s3 !! k); try done.
    destruct Hc, Hc'. split; congruence.
  - intros k m Hk1. destruct (Hm k m Hk1) as (m2 & Hk2 & ? & ? & ? & ? & Hp).
    destruct (Hm' k m2 Hk2) as (m3 & Hk3 & ? & ? & ? & ? & Hp').
    exists m3. split_and!; try congruence. by etrans.
Qed.

Lemma store_grows_setPresence s id online seen :
  store_grows s (User_setPresence s id online seen).
Proof.
  split_and!.
  - intros k. simpl. destruct (decide (k = id)) as [->|Hne].
    + rewrite lookup_alter_eq. by destruct (users s !! id).
    + rewrite lookup_alter_ne by done. by destruct (users s !! k).
  - intros k. simpl. by destruct (chats s !! k).
  - intros k m Hm. by exists m.
Qed.

Lemma store_grows_Message_save s m _id m' s1 :
  Message_save castObjectId s m = Ok (_id, m', s1) → store_grows s s1.
Proof.
  unfold Message_save. case_match; [|done]. intros [= <- <- <-]. split_and!.
  - intros k. simpl. by destruct (users s !! k).
  - intros k. simpl. by destruct (chats s !! k).
  - intros k m0 Hm. exists m0. split_and!; try done. simpl.
    rewrite lookup_insert_ne; [done|]. intros <-.
    pose proof (is_fresh (dom (messages s))) as Hf. apply not_elem_of_dom in Hf. congruence.
Qed.

Lemma store_grows_Chat_save s k c c' s2 :
  chats s !! k = Some c → Chat.type c' = Chat.type c →
  Chat.participants c' = Chat.participants c →
  Chat_save s k c' = Ok s2 → store_grows s s2.
Proof.
  intros Hk Ht Hp. unfold Chat_save. destruct (Chat.pre_save c') as [c''|] eqn:Hs; [|done].
  intros [= <-]. split_and!.
  - intros k0. simpl. by destruct (users s !! k0).
  - intros k0. simpl. destruct (decide (k0 = k)) as [->|Hne].
    + rewrite lookup_insert_eq, Hk.
      destruct (Chat_pre_save_cases c' c'' Hs) as (? & ? & _). split; congruence.
    + rewrite lookup_insert_ne by done. by destruct (chats s !! k0).
  - intros k0 m Hm. by exists m.
Qed.

Lemma store_grows_Message_update s id m r :
  messages s !! id = Some m →
  store_grows s
    (Message_update s id
       (Message.mk (Message.sender m) (Message.chat m) (Message.content m)
          (Message.messageType m) (Message.fileUrl m) (Message.fileName m)
          (Message.fileSize m) (Message.readBy m ++ [r]))).
Proof.
  intros Hm. split_and!.
  - intros k. simpl. by destruct (users s !! k).
  - intros k. simpl. by destruct (chats s !! k).
  - intros k m0 Hm0. simpl. destruct (decide (k = id)) as [->|Hne].
    + rewrite lookup_insert_eq. simplify_eq. eexists. split_and!; try done. simpl.
      by apply prefix_app_r.
    + rewrite lookup_insert_ne by done. by exists m0.
Qed.

Lemma Chat_findOne_Some s chatId uid chat :
  Chat_findOne castObjectId s chatId uid = Ok (Some chat) →
  chats s !! chatId = Some chat ∧ ∃ u, uid = Some u ∧ u ∈ Chat.participants chat.
Proof.
  unfold Chat_findOne. repeat case_match; try done. intros [= E].
  destruct (chats s !! chatId) as [c|]; [|done]. simpl in E.
  case_bool_decide; [|done]. simplify_eq. eauto.
Qed.

Lemma handleSendMessage_grows ws chatId content messageType fileUrl fileName fileSize st :
  store_grows (db st)
    (db (handleSendMessage castObjectId ws chatId content messageType fileUrl fileName fileSize
           st)).
Proof.
  unfold handleSendMessage.
  destruct (Chat_findOne castObjectId (db st) chatId (ws_userId st ws)) as [[chat|]|] eqn:Hc;
    rewrite ?db_sendToClient; try apply store_grows_refl.
  apply Chat_findOne_Some in Hc as [Hc _].
  destruct (Message_save _ _ _) as [[[_id m'] s1]|] eqn:Hm;
    rewrite ?db_sendToClient; try apply store_grows_refl.
  pose proof (store_grows_Message_save _ _ _ _ _ Hm) as H1.
  destruct (Chat_save _ _ _) as [s2|] eqn:Hs; rewrite ?db_sendToClient; [|done].
  rewrite db_broadcastToChat. simpl. rewrite db_broadcastToChat. simpl.
  eapply store_grows_trans; [exact H1|].
  eapply (store_grows_Chat_save s1 chatId chat) in Hs; [exact Hs| |done|done].
  unfold Message_save in Hm. case_match; [|done]. by simplify_eq.
Qed.

Lemma handleMessageRead_grows ws messageId chatId st :
  store_grows (db st) (db (handleMessageRead castObjectId ws messageId chatId st)).
Proof.
  unfold handleMessageRead, Message_findById.
  destruct (castObjectId messageId); [|apply store_grows_refl]. 
  destruct (messages (db st) !! messageId) as [m|] eqn:Hm; [|apply store_grows_refl].
  destruct (alreadyRead _ _); [rewrite db_broadcastToChat; apply store_grows_refl|].
  destruct (ws_userId st ws) as [u|]; [|apply store_grows_refl].
  destruct (castObjectId u); [|apply store_grows_refl].
  rewrite db_broadcastToChat. simpl. by apply store_grows_Message_update.
Qed.

Lemma handleMessage_grows ws data st :
  store_grows (db st) (db (handleMessage castObjectId ws data st)).
Proof.
  destruct data as [[chatId|chatId|chatId content mt fu fn fs|chatId|chatId|mid chatId|t]|];
    unfold handleMessage.
  - unfold handleJoinRoom. repeat case_match; simplify_eq; rewrite ?db_sendToClient;
      apply store_grows_refl.
  - unfold handleLeaveRoom. rewrite db_sendToClient. apply store_grows_refl.
  - apply handleSendMessage_grows.
  - rewrite handleTypingStart_eq. apply store_grows_refl.
  - unfold handleTypingStop. rewrite db_broadcastToChat. apply store_grows_refl.
  - apply handleMessageRead_grows.
  - apply store_grows_refl.
  - rewrite db_sendToClient. apply store_grows_refl.
Qed.

Lemma handleDisconnection_grows ws st :
  store_grows (db st) (db (handleDisconnection castObjectId ws st)).
Proof.
  unfold handleDisconnection, User_findByIdAndUpdate.
  repeat case_match; simplify_eq; try apply store_grows_refl.
  rewrite broadcastToUserChats_frames. simpl. apply store_grows_setPresence.
Qed.

Lemma emitClose_grows st c : store_grows (db st) (db (emitClose castObjectId st c)).
Proof.
  unfold emitClose. destruct (sockets st !! c) as [w|]; [|apply store_grows_refl].
  destruct (listening w); [|apply store_grows_refl].
  eapply store_grows_trans; [|apply handleDisconnection_grows]. apply store_grows_refl.
Qed.

Lemma tick_grows st : store_grows (db st) (db (tick castObjectId st)).
Proof.
  unfold tick.
  apply (foldl_preserves (λ s, store_grows (db st) (db s)) (λ _, True));
    [by apply Forall_true | |].
  - destruct (heartbeat_frame st) as (_ & _ & -> & _). apply store_grows_refl.
  - intros s c Hs _. eapply store_grows_trans; [exact Hs | apply emitClose_grows].
Qed.

Lemma elapse_db ms st : db (elapse castObjectId ms st) = db st.
Proof.
  unfold elapse. simpl.
  apply (foldl_preserves (λ s, db s = db st) (λ _, True)); [by apply Forall_true | done |].
  intros s t Hs _. unfold typingTimeout. case_bool_decide; [|done].
  by rewrite db_broadcastToChat.
Qed.

Section StoreReachable.

Variable jwt_verify : string → option string.

Lemma onConnection_grows r req st :
  store_grows (db st) (db (onConnectionAt castObjectId jwt_verify r req st)).
Proof.
  unfold onConnectionAt.
  destruct (negb _); [apply store_grows_refl|].
  destruct (_ ≫= jwt_verify) as [uid|]; [|apply store_grows_refl].
  destruct (User_findById _ _ uid) as [[user|]|]; [|apply store_grows_refl..].
  rewrite broadcastToUserChats_frames. simpl. rewrite db_sendToClient. simpl.
  apply store_grows_setPresence.
Qed.

Lemma step_grows st i : store_grows (db st) (db (step castObjectId jwt_verify st i)).
Proof.
  destruct i as [req|ws data|ws|ws| |ms|req closed]; simpl.
  - apply onConnection_grows.
  - repeat case_match; try apply store_grows_refl. apply handleMessage_grows.
  - unfold onPong. repeat case_match; apply store_grows_refl.
  - repeat case_match; try apply store_grows_refl. apply emitClose_grows.
  - apply tick_grows.
  - case_bool_decide; [rewrite elapse_db|]; apply store_grows_refl.
  - apply onConnection_grows.
Qed.

Lemma run_grows st inputs :
  store_grows (db st) (db (run castObjectId jwt_verify st inputs)).
Proof.
  unfold run.
  apply (foldl_preserves (λ s, store_grows (db st) (db s)) (λ _, True));
    [by apply Forall_true | apply store_grows_refl |].
  intros s i Hs _. eapply store_grows_trans; [exact Hs | apply step_grows].
Qed.

(** X23: no event on a socket changes who is in a chat.  Whatever the hub
    has gone through, the store has the chats it started with, of the same
    kind and with the same participants, and the users it started with,
    under the same names; the hub creates and deletes neither. *)
Theorem hub_keeps_membership st inputs k :
  match chats (db st) !! k, chats (db (run castObjectId jwt_verify st inputs)) !! k with
  | Some c, Some c' => Chat.type c' = Chat.type c ∧ Chat.participants c' = Chat.participants c
  | None, None => True
  | _, _ => False
  end
  ∧ match users (db st) !! k, users (db (run castObjectId jwt_verify st inputs)) !! k with
    | Some u, Some u' => User.username u' = User.username u ∧ User.avatar u' = User.avatar u
    | None, None => True
    | _, _ => False
    end.
Proof.
  destruct (run_grows st inputs) as (Hu & Hc & _). split; [apply Hc | apply Hu].
Qed.

(** X24: the hub only ever adds to the messages.  A stored message stays
    stored under its id with its sender, chat, content and type, and its
    read receipts are only appended to. *)
Theorem hub_messages_append_only st inputs k m :
  messages (db st) !! k = Some m →
  ∃ m', messages (db (run castObjectId jwt_verify st inputs)) !! k = Some m'
        ∧ Message.sender m' = Message.sender m
        ∧ Message.chat m' = Message.chat m
        ∧ Message.content m' = Message.content m
        ∧ Message.messageType m' = Message.messageType m
        ∧ Message.readBy m `prefix_of` Message.readBy m'.
Proof.
  destruct (run_grows st inputs) as (_ & _ & Hm). apply Hm.
Qed.

End StoreReachable.

(** ** The chat routes *)

Lemma Set_of_fold (l acc : list string) :
  (NoDup acc →
   NoDup (foldl (λ acc x, if bool_decide (x ∈ acc) then acc else acc ++ [x]) acc l))
  ∧ ∀ x, x ∈ foldl (λ acc x, if bool_decide (x ∈ acc) then acc else acc ++ [x]) acc l
         ↔ x ∈ acc ∨ x ∈ l.
Proof.
  revert acc. induction l as [|a l IH]; intros acc; cbn [foldl].
  - split; [done|]. intros x. rewrite elem_of_nil. naive_solver.
  - case_bool_decide as Ha.
    + destruct (IH acc) as [Hn He]. split; [done|]. intros x. rewrite He, elem_of_cons.
      naive_solver.
    + destruct (IH (acc ++ [a])) as [Hn He]. split.
      * intros Hacc. apply Hn. apply NoDup_app. split_and!; [done| |apply NoDup_singleton].
        intros x Hx ->%list_elem_of_singleton. done.
      * intros x. rewrite He, elem_of_app, list_elem_of_singleton, elem_of_cons. naive_solver.
Qed.

Lemma Set_of_NoDup l : NoDup (Set_of l).
Proof. apply Set_of_fold. constructor. Qed.

Lemma Set_of_elem l x : x ∈ Set_of l ↔ x ∈ l.
Proof. unfold Set_of. rewrite (proj2 (Set_of_fold l [])), elem_of_nil. naive_solver. Qed.

Lemma User_find_in_all s ids found :
  NoDup ids → User_find_in castObjectId s ids = Ok found → length found = length ids →
  ∀ p, p ∈ ids → is_Some (users s !! p) ∧ castObjectId p = true.
Proof.
  unfold User_find_in. intros Hnd. destruct (forallb castObjectId ids) eqn:Hc; [|done].
  intros [= <-] Hlen p Hp. split.
  2:{ rewrite forallb_forall in Hc. apply Hc. by apply list_elem_of_In. }
  set (keys := map fst (map_to_list (users s))) in *.
  assert (filter (λ k, k ∈ ids) keys ≡ₚ ids) as Hperm.
  { apply submseteq_length_Permutation; [|lia].
    apply NoDup_submseteq.
    - apply NoDup_filter. apply NoDup_fst_map_to_list.
    - by intros x [? _]%list_elem_of_filter. }
  assert (p ∈ filter (λ k, k ∈ ids) keys) as [_ Hk]%list_elem_of_filter by by rewrite Hperm.
  unfold keys in Hk. apply list_elem_of_fmap in Hk as ([k u] & -> & Hk).
  apply elem_of_map_to_list in Hk. simpl. eauto.
Qed.

Lemma Chat_create_ok s name type ps adm k s' :
  Chat_create castObjectId s name type ps adm = Ok (k, s') →
  ∃ kind c, Chat_kind type = Some kind
            ∧ Chat.pre_save (Chat.mk kind ps adm None) = Some c
            ∧ chats s !! k = None
            ∧ s' = mkStore (users s) (<[k := c]> (chats s)) (messages s).
Proof.
  unfold Chat_create. destruct (Chat_kind type) as [kind|]; [|done].
  case_match; [|done]. destruct (Chat.pre_save _) as [c|] eqn:Hs; [|done].
  intros [= <- <-]. exists kind, c. split_and!; try done.
  apply not_elem_of_dom, is_fresh.
Qed.

Lemma post_chat_cases uid participantIds name type s :
  ((post_chat castObjectId uid participantIds name type s).1 ≠ 201
   ∧ (post_chat castObjectId uid participantIds name type s).2 = s)
  ∨ ∃ ids k s' found,
      participantIds = Some ids
      ∧ User_find_in castObjectId s (Set_of (uid :: ids)) = Ok found
      ∧ length found = length (Set_of (uid :: ids))
      ∧ (default "private" type = "private" → length (Set_of (uid :: ids)) = 2 →
         Chat_exists_private castObjectId s (Set_of (uid :: ids)) = Ok false)
      ∧ Chat_create castObjectId s
          (if bool_decide (default "private" type = "group") then name else None)
          (default "private" type) (Set_of (uid :: ids))
          (if bool_decide (default "private" type = "group") then Some uid else None)
        = Ok (k, s')
      ∧ post_chat castObjectId uid participantIds name type s = (201, s').
Proof.
  unfold post_chat. destruct participantIds as [ids|]; [|by left].
  case_bool_decide; [by left|].
  destruct (User_find_in _ _ _) as [found|] eqn:Hf; [|by left].
  case_bool_decide as Hlen; [by left|].
  destruct (Chat_create _ _ _ _ _ _) as [[k s']|] eqn:Hc; cycle 1.
  { left. repeat case_match; done. }
  destruct (bool_decide (default "private" type = "private")
            && bool_decide (length (Set_of (uid :: ids)) = 2)) eqn:Hp.
  - destruct (Chat_exists_private _ _ _) as [[]|] eqn:He; [by left| |by left].
    right. exists ids, k, s', found. split_and!; try done; try lia.
  - right. exists ids, k, s', found. split_and!; try done; try lia.
    intros Ht Hl. rewrite !bool_decide_eq_true_2 in Hp by done. done.
Qed.

(** X25: a chat that the create route stores is a new chat and nothing else
    changes; its participants are the creator and the given ids, each once
    and each a stored user; it passes the [pre('save')] hook, and a group
    chat has its creator as admin. *)
Theorem post_chat_created uid ids name type s :
  (post_chat castObjectId uid (Some ids) name type s).1 = 201 →
  ∃ k c,
    chats s !! k = None
    ∧ (post_chat castObjectId uid (Some ids) name type s).2
      = mkStore (users s) (<[k := c]> (chats s)) (messages s)
    ∧ NoDup (Chat.participants c)
    ∧ (∀ p, p ∈ Chat.participants c ↔ p = uid ∨ p ∈ ids)
    ∧ (∀ p, p ∈ Chat.participants c → is_Some (users s !! p) ∧ castObjectId p = true)
    ∧ Chat.pre_save c = Some c
    ∧ Chat.lastMessage c = None
    ∧ (match Chat.type c with Chat.group => Chat.admin c = Some uid | Chat.private => True end).
Proof.
  intros H201.
  destruct (post_chat_cases uid (Some ids) name type s)
    as [Hs|(ids' & k & s' & found & [= <-] & Hf & Hlen & _ & Hc & E)].
  { by destruct Hs. }
  rewrite E. simpl.
  destruct (Chat_create_ok _ _ _ _ _ _ _ Hc) as (kind & c & Hk & Hsave & Hfresh & ->).
  destruct (Chat_pre_save_cases _ _ Hsave) as (Ht & Hp & Hlm & _ & _ & Hg & Hidem).
  simpl in Ht, Hp, Hlm. exists k, c. split_and!; try done.
  - rewrite Hp. apply Set_of_NoDup.
  - intros p. rewrite Hp, Set_of_elem, elem_of_cons. done.
  - intros p. rewrite Hp. apply (User_find_in_all s _ found); [apply Set_of_NoDup|done..].
  - rewrite Ht. destruct kind; [done|]. simpl in Hg.
    unfold Chat_kind in Hk. repeat case_bool_decide; simplify_eq.
    destruct Hg as (_ & _ & Hg); [done|]. rewrite Hg by eauto. done.
Qed.



(** X27: the delete route removes a chat only for a participant, and a
    group chat only for its admin.  It removes the chat together with every
    message of the chat and nothing else, and from then on a fanout to the
    chat on the hub writes no frame. *)
Theorem delete_chat_sound uid id s :
  let r := delete_chat castObjectId uid id s in
  (r.1 = 200 →
   (∃ chat, chats s !! id = Some chat ∧ uid ∈ Chat.participants chat
            ∧ match Chat.type chat with
              | Chat.group => Chat.admin chat = Some uid
              | Chat.private => True
              end)
   ∧ users r.2 = users s
   ∧ chats r.2 !! id = None
   ∧ (∀ k, k ≠ id → chats r.2 !! k = chats s !! k)
   ∧ (∀ k m, messages r.2 !! k = Some m ↔ messages s !! k = Some m ∧ Message.chat m ≠ id)
   ∧ ∀ st m e, db st = r.2 → roomFrames castObjectId st id m e = [])
  ∧ (r.1 ≠ 200 → r.2 = s).
Proof.
  unfold delete_chat.
  destruct (Chat_findOne castObjectId s id (Some uid)) as [[chat|]|] eqn:Hc; simpl; [|done..].
  apply Chat_findOne_Some in Hc as (Hk & u & [= <-] & Hin).
  destruct (Chat.type chat) eqn:Ht; simpl.
  - split; [|done]. intros _. split_and!; try done.
    + exists chat. by rewrite Ht.
    + by rewrite lookup_delete_eq.
    + intros k Hne. by rewrite lookup_delete_ne.
    + intros k m. by rewrite map_lookup_filter_Some.
    + intros st m e Hdb. unfold roomFrames, roomRecipients, Chat_findById_populated.
      rewrite Hdb. simpl. rewrite lookup_delete_eq. by destruct (castObjectId id).
  - case_bool_decide as Ha; simpl; [done|]. split; [|done]. intros _. split_and!; try done.
    + exists chat. rewrite Ht. split_and!; [done..|].
      destruct (decide (Chat.admin chat = Some uid)); [done|]. by destruct Ha.
    + by rewrite lookup_delete_eq.
    + intros k Hne. by rewrite lookup_delete_ne.
    + intros k m. by rewrite map_lookup_filter_Some.
    + intros st m e Hdb. unfold roomFrames, roomRecipients, Chat_findById_populated.
      rewrite Hdb. simpl. rewrite lookup_delete_eq. by destruct (castObjectId id).
Qed.

End MoreFacts.

(** ** The client of the hub *)

Lemma splice_first_count handler (handlers : list nat) h :
  length (filter (λ x, x = h) (WebSocketService.splice_first handler (handlers ++ [handler])))
  = length (filter (λ x, x = h) handlers).
Proof.
  induction handlers as [|a hs IH]; simpl.
  - by rewrite bool_decide_eq_true_2.
  - case_bool_decide as Ha.
    + subst a. rewrite filter_app, length_app. rewrite !filter_cons.
      repeat case_decide; simpl; rewrite ?filter_nil; simpl; lia.
    + rewrite !filter_cons. case_decide; simpl; by rewrite IH.
Qed.

Lemma splice_first_fresh handler (handlers : list nat) :
  handler ∉ handlers →
  WebSocketService.splice_first handler (handlers ++ [handler]) = handlers.
Proof.
  induction handlers as [|a hs IH]; simpl; intros Hn.
  - by rewrite bool_decide_eq_true_2.
  - rewrite not_elem_of_cons in Hn. destruct Hn as [Ha Hn].
    rewrite bool_decide_eq_false_2 by done. by rewrite IH.
Qed.

(** X28: registering a handler and removing it again leaves every event
    with the handlers it had, each called as often as before; the handlers
    of the event are called in the order they had if the handler was not
    registered for it before. *)
Theorem on_off_restores event handler c type h :
  let c' := WebSocketService.off event handler (WebSocketService.on event handler c) in
  length (filter (λ x, x = h) (WebSocketService.handleMessage type c'))
  = length (filter (λ x, x = h) (WebSocketService.handleMessage type c))
  ∧ (handler ∉ WebSocketService.handleMessage event c →
     WebSocketService.handleMessage type c' = WebSocketService.handleMessage type c).
Proof.
  unfold WebSocketService.off, WebSocketService.on, WebSocketService.handleMessage. simpl.
  destruct (decide (type = event)) as [->|Hne].
  - rewrite !lookup_alter_eq. case_bool_decide as Hs.
    + destruct Hs as [hs Hs]. rewrite Hs. simpl. split; [apply splice_first_count|].
      apply splice_first_fresh.
    + rewrite lookup_insert_eq. simpl. rewrite bool_decide_eq_true_2 by done.
      apply eq_None_not_Some in Hs. rewrite Hs. done.
  - rewrite !lookup_alter_ne by done. case_bool_decide; [done|].
    by rewrite lookup_insert_ne.
Qed.

Lemma failures_spec n c :
  WebSocketService.isManualClose c = false →
  let a := WebSocketService.reconnectAttempts c in
  let k := n `min` (WebSocketService.maxReconnectAttempts - a) in
  (WebSocketService.failures n c).1
  = map (λ i, (WebSocketService.reconnectInterval * Z.of_nat (a + i))%Z) (seq 0 k)
  ∧ WebSocketService.reconnectAttempts (WebSocketService.failures n c).2 = a + k
  ∧ WebSocketService.connects (WebSocketService.failures n c).2
    = WebSocketService.connects c + k
  ∧ WebSocketService.eventHandlers (WebSocketService.failures n c).2
    = WebSocketService.eventHandlers c.
Proof.
  revert c. induction n as [|n IH]; intros c Hm; [cbn; split_and!; [done|lia|lia|done]|].
  cbn zeta. cbn [WebSocketService.failures]. unfold WebSocketService.onclose.
  rewrite Hm. cbn [negb andb]. unfold WebSocketService.maxReconnectAttempts in *.
  case_bool_decide as Ha.
  - specialize (IH (WebSocketService.reconnect c) Hm). cbn zeta in IH.
    destruct (WebSocketService.failures n (WebSocketService.reconnect c)) as [ds c'].
    cbn [fst snd] in *. destruct IH as (Hd & Hr & Hc & He).
    change (WebSocketService.reconnectAttempts (WebSocketService.reconnect c))
      with (S (WebSocketService.reconnectAttempts c)) in *.
    change (WebSocketService.connects (WebSocketService.reconnect c))
      with (S (WebSocketService.connects c)) in *.
    change (WebSocketService.eventHandlers (WebSocketService.reconnect c))
      with (WebSocketService.eventHandlers c) in *.
    assert (S n `min` (5 - WebSocketService.reconnectAttempts c)
            = S (n `min` (5 - S (WebSocketService.reconnectAttempts c)))) as -> by lia.
    split_and!; [|lia|lia|done].
    cbn [seq map]. f_equal; [f_equal; lia|].
    rewrite Hd, <- seq_shift, map_map. apply map_ext. intros i. f_equal. lia.
  - assert (S n `min` (5 - WebSocketService.reconnectAttempts c) = 0) as -> by lia.
    cbn. split_and!; [done|lia|lia|done].
Qed.

(** X29: a service that was not closed by hand reconnects at most five
    times in a row.  When [n] connections in a row close without having
    opened, starting with [a] attempts counted, the service creates
    [min n (5 - a)] sockets, the [i]-th of them [3000 * (a + i)] ms after the
    close before it, counting [i] from 0, so that the first reconnect of a
    fresh service is immediate; an [onopen] starts the count again. *)
Theorem reconnect_schedule n c :
  WebSocketService.isManualClose c = false →
  let a := WebSocketService.reconnectAttempts c in
  let k := n `min` (5 - a) in
  (WebSocketService.failures n c).1 = map (λ i, (3000 * Z.of_nat (a + i))%Z) (seq 0 k)
  ∧ WebSocketService.connects (WebSocketService.failures n c).2
    = WebSocketService.connects c + k
  ∧ WebSocketService.reconnectAttempts
      (WebSocketService.onopen (WebSocketService.failures n c).2) = 0.
Proof.
  intros Hm. destruct (failures_spec n c Hm) as (Hd & _ & Hc & _). by split_and!.
Qed.

(** X30: [disconnect()] stops the service from scheduling reconnects, but
    not a reconnect that is scheduled already: however many connections
    close after it, no timer is set, yet the callback of a timer set before
    creates a socket all the same; while that socket has not opened its
    closing sets no timer either, and once it opens the service reconnects
    on its schedule again. *)
Theorem disconnect_keeps_pending_reconnect n c :
  WebSocketService.failures n (WebSocketService.disconnect c)
  = ([], WebSocketService.disconnect c)
  ∧ let c' := WebSocketService.reconnect (WebSocketService.disconnect c) in
    WebSocketService.connects c' = S (WebSocketService.connects c)
    ∧ WebSocketService.failures n c' = ([], c')
    ∧ (WebSocketService.failures n (WebSocketService.onopen c')).1
      = map (λ i, (3000 * Z.of_nat i)%Z) (seq 0 (n `min` 5)).
Proof.
  split; [by destruct n|]. intros c'. split; [done|]. split; [by destruct n|].
  destruct (failures_spec n (WebSocketService.onopen c')) as [Hd _]; [done|].
  exact Hd.
Qed.

(** * The extra properties on the concrete deployment *)

Lemma handleSendMessage_invalid_witness :
  handleSendMessage Demo.castObjectId 0 Demo.lobby Cases.blank None None None None Demo.online
  = set_outbox
      (outbox Demo.online ++ [(0, mkMsg "error" (P_error "Failed to send message" None))])
      Demo.online
  ∧ handleSendMessage Demo.castObjectId 0 Demo.lobby (Cases.repeat 1001 Cases.face) None None
      None None Demo.online
    = set_outbox
        (outbox Demo.online ++ [(0, mkMsg "error" (P_error "Failed to send message" None))])
        Demo.online.
Proof.
  split.
  - apply (handleSendMessage_invalid Demo.castObjectId 0 Demo.alice_ws Demo.alice Demo.lobby
             Cases.lobby_doc);
      [vm_compute; reflexivity | reflexivity | reflexivity | vm_compute; reflexivity
      | vm_compute; reflexivity | vm_compute; reflexivity | by_compute
      | vm_compute; reflexivity | left; vm_compute; reflexivity].
  - apply (handleSendMessage_invalid Demo.castObjectId 0 Demo.alice_ws Demo.alice Demo.lobby
             Cases.lobby_doc);
      [vm_compute; reflexivity | reflexivity | reflexivity | vm_compute; reflexivity
      | vm_compute; reflexivity | vm_compute; reflexivity | by_compute
      | vm_compute; reflexivity | right; left; vm_compute; lia].
Defined.

Lemma handleSendMessage_chat_save_fails_witness :
  handleSendMessage Demo.castObjectId 0 Cases.solo
    (Cases.nbsp +:+ Cases.zero_width +:+ Cases.e_acute +:+ Cases.next_line +:+ " ")
    None None None None Cases.alone
  = set_outbox
      (outbox Cases.alone ++ [(0, mkMsg "error" (P_error "Failed to send message" None))])
      (set_db
         (mkStore (users (db Cases.alone)) (chats (db Cases.alone))
            (<[fresh (dom (messages (db Cases.alone))) :=
                 Message.mk (Some Demo.alice) Cases.solo
                   (Cases.zero_width +:+ Cases.e_acute +:+ Cases.next_line) "text" None None
                   None []]> (messages (db Cases.alone))))
         Cases.alone).
Proof.
  apply (handleSendMessage_chat_save_fails Demo.castObjectId 0 Demo.alice_ws Demo.alice
           Cases.solo (Chat.mk Chat.group [Demo.alice] (Some Demo.alice) None)
           (Cases.nbsp +:+ Cases.zero_width +:+ Cases.e_acute +:+ Cases.next_line +:+ " ")
           None None None None Cases.alone).
  - vm_compute; reflexivity.
  - reflexivity.
  - reflexivity.
  - vm_compute; reflexivity.
  - vm_compute; reflexivity.
  - vm_compute; reflexivity.
  - by_compute.
  - vm_compute; reflexivity.
  - by_compute.
  - vm_compute. lia.
  - by_compute.
  - vm_compute; reflexivity.
Defined.

Lemma handleMessageRead_no_membership_witness :
  handleMessageRead Demo.castObjectId 0 Demo.hello Demo.team Demo.outsider
  = set_outbox
      (outbox Demo.outsider
       ++ roomFrames Demo.castObjectId Demo.outsider Demo.team
            (read_event Demo.outsider 0 Demo.hello Demo.team) None)
      (set_db
         (Message_update (db Demo.outsider) Demo.hello
            (Message.mk (Message.sender Cases.hello_doc) (Message.chat Cases.hello_doc)
               (Message.content Cases.hello_doc) (Message.messageType Cases.hello_doc)
               (Message.fileUrl Cases.hello_doc) (Message.fileName Cases.hello_doc)
               (Message.fileSize Cases.hello_doc)
               (Message.readBy Cases.hello_doc
                ++ [Message.mkReceipt Demo.carol (now Demo.outsider)])))
         Demo.outsider).
Proof.
  apply (handleMessageRead_no_membership Demo.castObjectId 0 Demo.carol Demo.hello Demo.team
           Cases.hello_doc Demo.outsider);
    vm_compute; reflexivity.
Defined.

Lemma handleMessageRead_twice_witness :
  let found := handleMessageRead_find Demo.castObjectId Demo.hello Demo.online in
  let first :=
    handleMessageRead_rest Demo.castObjectId 0 Demo.hello Demo.lobby found Demo.online in
  (∃ m1, messages (db first) !! Demo.hello = Some m1
         ∧ Message.readBy m1 = [Message.mkReceipt Demo.alice 0])
  ∧ db (handleMessageRead Demo.castObjectId 0 Demo.hello Demo.lobby first) = db first
  ∧ ∃ m2, messages (db (handleMessageRead_rest Demo.castObjectId 0 Demo.hello Demo.lobby
                          found first)) !! Demo.hello = Some m2
          ∧ Message.readBy m2
            = [Message.mkReceipt Demo.alice 0; Message.mkReceipt Demo.alice 0].
Proof.
  intros found first.
  destruct (handleMessageRead_twice Demo.castObjectId 0 Demo.alice Demo.hello Demo.lobby
              Demo.lobby Cases.hello_doc Demo.online) as (_ & Ha & H1 & H & H2);
    [vm_compute; reflexivity..|].
  split_and!; [exact H1 | exact (eq_trans (f_equal db (eq_sym Ha)) H) | exact H2].
Defined.

Lemma handleTypingStart_no_membership_witness :
  ∃ ds,
    outbox (handleTypingStart Demo.castObjectId 0 Demo.lobby Demo.outsider)
    = outbox Demo.outsider ++ ds
    ∧ typingUsers (handleTypingStart Demo.castObjectId 0 Demo.lobby Demo.outsider)
      !! typingKey Demo.outsider 0 Demo.lobby
      = Some (mkTyping (ws_userId Demo.outsider 0) (ws_username Demo.outsider 0) Demo.lobby
                (now Demo.outsider)).
Proof.
  destruct (handleTypingStart_no_membership Demo.castObjectId 0 Demo.lobby Cases.lobby_doc
              Demo.outsider) as (ds & H1 & H2 & _).
  - exact (proj1 (run_wf Demo.castObjectId Demo.jwt_verify Demo.store [Demo.login Demo.carol])).
  - vm_compute; reflexivity.
  - vm_compute; reflexivity.
  - by_compute.
  - exists ds. split; assumption.
Defined.

Lemma handleDisconnection_clears_own_claims_witness :
  ∃ ds, outbox (handleDisconnection Demo.castObjectId 0 Demo.online) = outbox Demo.online ++ ds
        ∧ Forall (λ d : Delivery, type d.2 = "user_offline") ds.
Proof.
  destruct (handleDisconnection_clears_own_claims Demo.castObjectId 0 Demo.alice Demo.online)
    as [_ H]; [vm_compute; reflexivity | discriminate | exact H].
Defined.

Lemma handleDisconnection_marks_offline_witness :
  users (db (handleDisconnection Demo.castObjectId 0 Demo.online)) !! Demo.alice
  = Some (User.mk (User.username Cases.alice_doc) (User.avatar Cases.alice_doc) false
            (now Demo.online)).
Proof.
  apply (handleDisconnection_marks_offline Demo.castObjectId 0 Demo.alice Cases.alice_doc
           Demo.online);
    [vm_compute; reflexivity | discriminate | vm_compute; reflexivity..].
Defined.

Lemma typing_stop_then_expiry_witness :
  timers
    (elapse Demo.castObjectId (3000 - 1000)
       (handleTypingStop Demo.castObjectId 0 Demo.lobby
          (elapse Demo.castObjectId 1000
             (handleTypingStart Demo.castObjectId 0 Demo.lobby Demo.online))))
  = [].
Proof.
  destruct (typing_stop_then_expiry Demo.castObjectId 0 Demo.lobby 1000 Demo.online)
    as (_ & _ & _ & H & _); [vm_compute; reflexivity | lia | exact H].
Defined.

Lemma typing_then_leave_is_silent_witness :
  timers
    (elapse Demo.castObjectId (3000 - 1000)
       (handleLeaveRoom 0 Demo.lobby
          (elapse Demo.castObjectId 1000
             (handleTypingStart Demo.castObjectId 0 Demo.lobby Demo.online))))
  = [].
Proof.
  destruct (typing_then_leave_is_silent Demo.castObjectId 0 Demo.lobby 1000 Demo.online)
    as (_ & _ & H & _); [vm_compute; reflexivity | lia | exact H].
Defined.

Lemma frames_only_to_authenticated_witness :
  ∃ w u n, sockets Cases.single !! 0 = Some w ∧ userId w = Some u ∧ username w = Some n.
Proof.
  apply (frames_only_to_authenticated Demo.castObjectId Demo.jwt_verify Demo.store
           [Demo.login Demo.alice] 0
           (mkMsg "connection" (P_connection "Connected successfully" Demo.alice 0))).
  vm_compute. apply list_elem_of_here.
Defined.

Lemma onConnection_rejected_witness :
  connectedUsers
    (onConnection Demo.castObjectId Demo.jwt_verify (Cases.upgrade Demo.nowhere)
       (init Demo.store))
  = ∅.
Proof.
  destruct (onConnection_rejected Demo.castObjectId Demo.jwt_verify (Cases.upgrade Demo.nowhere)
              (init Demo.store)) as [H _].
  - intros tok uid u H1 _ H2. vm_compute in H1. injection H1 as <-.
    vm_compute in H2. injection H2 as <-. vm_compute. discriminate.
  - rewrite H. reflexivity.
Defined.

Lemma onConnection_accepted_witness :
  ∃ ds,
    outbox (onConnectionAt Demo.castObjectId Demo.jwt_verify OPEN (Cases.upgrade Demo.bob)
              Cases.single)
    = outbox Cases.single
      ++ [(fresh (dom (sockets Cases.single)),
           mkMsg "connection"
             (P_connection "Connected successfully" Demo.bob (now Cases.single)))]
      ++ ds
    ∧ Forall (λ d : Delivery,
                d.1 ≠ fresh (dom (sockets Cases.single))
                ∧ d.2 = presence_event "user_online" Demo.bob
                          (Some (User.username (Demo.user "bob"))) (now Cases.single)
                ∧ ws_userId Cases.single d.1 ≠ Some Demo.bob) ds.
Proof.
  destruct (onConnection_accepted Demo.castObjectId Demo.jwt_verify OPEN
              (Cases.upgrade Demo.bob) (Cases.token Demo.bob) Demo.bob (Demo.user "bob")
              Cases.single) as (_ & _ & _ & _ & _ & H).
  - vm_compute; reflexivity.
  - by_compute.
  - vm_compute; reflexivity.
  - vm_compute; reflexivity.
  - exact (proj1 (run_wf Demo.castObjectId Demo.jwt_verify Demo.store [Demo.login Demo.alice])).
  - exact H.
Defined.

Lemma reconnect_leaves_old_socket_witness :
  sockets
    (onConnection Demo.castObjectId Demo.jwt_verify (Cases.upgrade Demo.alice) Cases.single)
  !! 0
  = sockets Cases.single !! 0
  ∧ getOnlineCount
      (onConnection Demo.castObjectId Demo.jwt_verify (Cases.upgrade Demo.alice) Cases.single)
    = getOnlineCount Cases.single.
Proof.
  destruct (reconnect_leaves_old_socket Demo.castObjectId Demo.jwt_verify
              (Cases.upgrade Demo.alice) (Cases.token Demo.alice) Demo.alice Cases.alice_doc 0
              Cases.single) as (_ & _ & H1 & _ & H2 & _).
  - vm_compute; reflexivity.
  - by_compute.
  - vm_compute; reflexivity.
  - vm_compute; reflexivity.
  - exact (proj1 (run_wf Demo.castObjectId Demo.jwt_verify Demo.store [Demo.login Demo.alice])).
  - vm_compute; reflexivity.
  - split; assumption.
Defined.

Lemma onConnection_ignores_scheme_witness :
  onConnection Demo.castObjectId Demo.jwt_verify
    (mkRequest None (Some ("Token" +:+ " " +:+ Cases.token Demo.alice))) (init Demo.store)
  = onConnection Demo.castObjectId Demo.jwt_verify
      (mkRequest None (Some ("Bearer " +:+ Cases.token Demo.alice))) (init Demo.store).
Proof.
  apply (onConnection_ignores_scheme Demo.castObjectId Demo.jwt_verify "Token"
           (Cases.token Demo.alice) None (init Demo.store)).
  reflexivity.
Defined.

Lemma authenticate_then_upgrade_witness :
  connectedUsers
    (onConnection Demo.castObjectId Demo.jwt_verify
       (mkRequest None (Some ("Bearer " +:+ Cases.token Demo.alice))) (init Demo.store))
  !! Demo.alice
  = Some (fresh (dom (sockets (init Demo.store)))).
Proof.
  apply (authenticate_then_upgrade Demo.castObjectId Demo.jwt_verify
           (Some ("Bearer " +:+ Cases.token Demo.alice)) (Cases.token Demo.alice) Demo.alice
           (Demo.user "alice") (init Demo.store)).
  - vm_compute; reflexivity.
  - vm_compute; reflexivity.
  - by_compute.
  - vm_compute; reflexivity.
Defined.

Lemma Chat_pre_save_sound_witness :
  Chat.pre_save (Chat.mk Chat.group [Demo.alice; Demo.bob] (Some Demo.alice) None)
  = Some (Chat.mk Chat.group [Demo.alice; Demo.bob] (Some Demo.alice) None).
Proof.
  apply (Chat_pre_save_sound (Chat.mk Chat.group [Demo.alice; Demo.bob] None None)).
  vm_compute; reflexivity.
Defined.

Lemma post_message_agrees_witness :
  (post_message Demo.castObjectId Demo.alice (Some Demo.lobby) (Some "hi") None None None None
     (db Demo.online)).2
  = db (handleSendMessage Demo.castObjectId 0 Demo.lobby "hi" None None None None Demo.online).
Proof.
  apply (post_message_agrees Demo.castObjectId 0 Demo.alice Demo.lobby "hi" None None None None
           Demo.online);
    vm_compute; reflexivity.
Defined.

Lemma post_read_gate_witness :
  post_read Demo.castObjectId Demo.carol Demo.hello (now Demo.outsider) (db Demo.outsider)
  = (403, db Demo.outsider).
Proof.
  etrans.
  - apply (post_read_gate Demo.castObjectId 0 Demo.carol Demo.hello Demo.team Cases.hello_doc
             Demo.outsider);
      vm_compute; reflexivity.
  - vm_compute; reflexivity.
Defined.

Lemma hub_messages_append_only_witness :
  ∃ m',
    messages
      (db (run Demo.castObjectId Demo.jwt_verify (init Demo.store)
             [Demo.login Demo.alice; Frame 0 (Some (message_read Demo.hello Demo.lobby))]))
    !! Demo.hello = Some m'
    ∧ Message.sender m' = Message.sender Cases.hello_doc
    ∧ Message.chat m' = Message.chat Cases.hello_doc
    ∧ Message.content m' = Message.content Cases.hello_doc
    ∧ Message.messageType m' = Message.messageType Cases.hello_doc
    ∧ Message.readBy Cases.hello_doc `prefix_of` Message.readBy m'.
Proof.
  apply (hub_messages_append_only Demo.castObjectId Demo.jwt_verify (init Demo.store)
           [Demo.login Demo.alice; Frame 0 (Some (message_read Demo.hello Demo.lobby))]
           Demo.hello Cases.hello_doc).
  vm_compute; reflexivity.
Defined.

Lemma post_chat_created_witness :
  ∃ k c,
    chats Demo.store !! k = None
    ∧ (post_chat Demo.castObjectId Demo.alice (Some [Demo.carol]) None None Demo.store).2
      = mkStore (users Demo.store) (<[k := c]> (chats Demo.store)) (messages Demo.store)
    ∧ NoDup (Chat.participants c)
    ∧ (∀ p, p ∈ Chat.participants c ↔ p = Demo.alice ∨ p ∈ [Demo.carol]).
Proof.
  destruct (post_chat_created Demo.castObjectId Demo.alice [Demo.carol] None None Demo.store)
    as (k & c & H1 & H2 & H3 & H4 & _); [vm_compute; reflexivity|].
  exists k, c. split_and!; assumption.
Defined.


Lemma reconnect_schedule_witness :
  (WebSocketService.failures 7 WebSocketService.new).1 = [0; 3000; 6000; 9000; 12000]%Z
  ∧ WebSocketService.connects (WebSocketService.failures 7 WebSocketService.new).2 = 5.
Proof.
  destruct (reconnect_schedule 7 WebSocketService.new) as (H1 & H2 & _); [reflexivity|].
  split; [rewrite H1 | rewrite H2]; reflexivity.
Defined.
